(** * fundata: the spreadsheet field-extraction engine of [smart_extractor.py]

    A shallow embedding of [smart_extractor.py] (table detection, key/value
    scanning, validation and value normalisation) together with the
    properties of it that the specification states, further properties of
    its functions, and the format analyser of [analyze_excel.py].

    Python strings are sequences of Unicode code points, and the extractor
    depends on that ([len], the character before a match, the CJK range
    test), so a string is a list of code points here, written with [py]
    from a UTF-8 literal. *)

From Stdlib Require Import String Ascii NArith ZArith Bool Arith Lia List.
Import ListNotations.

(* ================================================================== *)
(** * Python strings *)
(* ================================================================== *)

Module PyStr.

Definition char := N.
Definition str := list char.

(** ** UTF-8 literals *)

Definition bytes_of (s : string) : list N :=
  map N_of_ascii (list_ascii_of_string s).

Fixpoint utf8_decode (bs : list N) : str :=
  match bs with
  | [] => []
  | b :: r =>
      if (b <? 128)%N then b :: utf8_decode r
      else if (b <? 224)%N then
        match r with
        | b1 :: r1 => ((b mod 32) * 64 + b1 mod 64)%N :: utf8_decode r1
        | _ => []
        end
      else if (b <? 240)%N then
        match r with
        | b1 :: b2 :: r2 =>
            ((b mod 16) * 4096 + (b1 mod 64) * 64 + b2 mod 64)%N :: utf8_decode r2
        | _ => []
        end
      else
        match r with
        | b1 :: b2 :: b3 :: r3 =>
            ((b mod 8) * 262144 + (b1 mod 64) * 4096 + (b2 mod 64) * 64 + b3 mod 64)%N
              :: utf8_decode r3
        | _ => []
        end
  end.

(** [py "..."] is the Python string with the literal's characters. *)
Definition py (s : string) : str := utf8_decode (bytes_of s).

(** ** Characters the extractor names *)

Definition LF : char := 10%N.
Definition SPACE : char := 32%N.
Definition UNDERSCORE : char := 95%N.
Definition COMMA : char := 44%N.
(** the full-width colon U+FF1A *)
Definition FWCOLON : char := 65306%N.

(** ** Equality, truth value *)

Fixpoint eqb (a b : str) : bool :=
  match a, b with
  | [], [] => true
  | x :: a', y :: b' => (x =? y)%N && eqb a' b'
  | _, _ => false
  end.

(** [bool(s)]: a string is true when it is not empty *)
Definition truthy (s : str) : bool :=
  match s with [] => false | _ => true end.

(** ** [sub in s], [s.find(sub)] *)

Fixpoint startswith (s sub : str) : bool :=
  match sub, s with
  | [], _ => true
  | x :: sub', y :: s' => (x =? y)%N && startswith s' sub'
  | _ :: _, [] => false
  end.

(** [s.find(sub)]: the least index where [sub] occurs, [None] for -1 *)
Fixpoint find (s sub : str) : option nat :=
  if startswith s sub then Some 0
  else match s with
       | [] => None
       | _ :: s' => option_map S (find s' sub)
       end.

(** [sub in s] *)
Definition contains (sub s : str) : bool :=
  match find s sub with Some _ => true | None => false end.

(** ** [s.replace(c, r)] for a one-character [c] *)

Definition replace (c : char) (r : str) (s : str) : str :=
  flat_map (fun x => if (x =? c)%N then r else [x]) s.

(** ** [s.strip()] *)

(** [str.isspace] on one code point: the characters [strip()] removes *)
Definition isspace (c : char) : bool :=
  ((9 <=? c) && (c <=? 13) || (28 <=? c) && (c <=? 32)
   || (c =? 133) || (c =? 160) || (c =? 5760)
   || (8192 <=? c) && (c <=? 8202)
   || (c =? 8232) || (c =? 8233) || (c =? 8239) || (c =? 8287)
   || (c =? 12288))%N.

Fixpoint lstrip (s : str) : str :=
  match s with
  | c :: s' => if isspace c then lstrip s' else s
  | [] => []
  end.

Definition rstrip (s : str) : str := rev (lstrip (rev s)).

Definition strip (s : str) : str := rstrip (lstrip s).

(** ** [s.split(c)[0]] and [s.split(c, 1)] for a one-character [c] *)

(** the part of [s] before the first [c] *)
Fixpoint before (c : char) (s : str) : str :=
  match s with
  | [] => []
  | x :: s' => if (x =? c)%N then [] else x :: before c s'
  end.

(** the part of [s] after the first [c]; [None] when [c] does not occur *)
Fixpoint after (c : char) (s : str) : option str :=
  match s with
  | [] => None
  | x :: s' => if (x =? c)%N then Some s' else after c s'
  end.

(** [c in s] for a one-character [c] *)
Definition has_char (c : char) (s : str) : bool :=
  existsb (fun x => (x =? c)%N) s.

End PyStr.

Import PyStr.

(** What the embedding takes from the Python runtime instead of the
    repository: the Unicode tables outside ASCII, and how the platform's
    [strftime] writes a year below 1000 (glibc does not pad it). *)
Record PyEnv := {
  (** [str.isalpha] of a code point from 128 up *)
  unicode_isalpha : char -> bool;
  (** the decimal digit value of a code point from 128 up, if it is a digit *)
  unicode_decimal : char -> option N;
  (** [%Y] of a year below 1000 *)
  strftime_small_year : N -> str
}.

(** the decimal numeral of a number below 1000, without padding: [%Y] of
    glibc for such a year *)
Definition unpadded (y : N) : str :=
  let digit := fun n : N => (48 + n mod 10)%N in
  if (y <? 10)%N then [digit y]
  else if (y <? 100)%N then [digit (y / 10)%N; digit y]
  else [digit (y / 100)%N; digit (y / 10)%N; digit y].

(** a runtime whose tables know nothing outside ASCII, with the [strftime]
    of glibc, for closed examples *)
Definition ascii_env : PyEnv :=
  {| unicode_isalpha := fun _ => false;
     unicode_decimal := fun _ => None;
     strftime_small_year := unpadded |}.

(* ================================================================== *)
(** * Data model *)
(* ================================================================== *)

(** ** Cells and the raw grid

    The extractor reads a cell only through [str(v)], [pd.isna(v)] and
    [pd.notna(v)]: a cell is either NaN or a value given by its [str]. *)
Inductive cell :=
| NaN
| Val (s : str).

Definition str_of (v : cell) : str :=
  match v with
  | NaN => py "nan"
  | Val s => s
  end.

Definition isna (v : cell) : bool :=
  match v with NaN => true | Val _ => false end.

Definition notna (v : cell) : bool := negb (isna v).

(** A DataFrame read with [header=None]: [len(df)] rows of
    [len(df.columns)] cells; a cell a row list does not reach is NaN. *)
Record DataFrame := {
  df_rows : list (list cell);
  ncols : nat
}.

Definition len (df : DataFrame) : nat := length (df_rows df).

(** [df.iloc[i, j]] *)
Definition iloc (df : DataFrame) (i j : nat) : cell :=
  nth j (nth i (df_rows df) []) NaN.

(** [df.iloc[i]], the cells of row [i] *)
Definition row (df : DataFrame) (i : nat) : list cell :=
  map (iloc df i) (seq 0 (ncols df)).

(** the grid [pd.DataFrame(rows)] builds from rows of text cells of equal
    length *)
Definition grid (cells : list (list string)) : DataFrame :=
  {| df_rows := map (map (fun s => Val (py s))) cells;
     ncols := fold_right (fun r n => Nat.max (length r) n) 0 cells |}.

(** ** Dictionaries, in insertion order *)

Definition dict (V : Type) := list (str * V).

Fixpoint dict_get {V} (d : dict V) (k : str) : option V :=
  match d with
  | [] => None
  | (k', v) :: d' => if eqb k' k then Some v else dict_get d' k
  end.

(** [d[k] = v] *)
Fixpoint dict_set {V} (d : dict V) (k : str) (v : V) : dict V :=
  match d with
  | [] => [(k, v)]
  | (k', v') :: d' => if eqb k' k then (k', v) :: d' else (k', v') :: dict_set d' k v
  end.

(** A candidate record: canonical field name to cleaned value *)
Definition record := dict str.

(** ** The keyword catalog of [extract_fund_data_smart] *)

Definition catalog := dict (list str).

Definition keywords : catalog :=
  [ (py "产品名称",
      [py "产品名称"; py "基金名称"; py "资产名称"; py "名称"; py "FundName"]);
    (py "产品代码",
      [py "产品代码"; py "基金代码"; py "资产代码"; py "代码"; py "协会备案编码";
       py "协会备案代码"; py "FundFillingCode"]);
    (py "单位净值",
      [py "单位净值"; py "基金份额净值"; py "产品单位净值"; py "当期净值";
       py "资产净值"; py "净值"; py "实际净值"; py "NAV/Share"; py "NAVShare"]);
    (py "累计单位净值",
      [py "累计单位净值"; py "基金份额累计净值"; py "产品累计单位净值";
       py "当期累计净值"; py "资产净值累计净值"; py "累计净值"; py "实际累计净值";
       py "AccumulatedNAV/Share"; py "AccumulatedNAVShare"]);
    (py "净值日期",
      [py "净值日期"; py "日期"; py "估值基准日"; py "NAVAsOfDate"]) ].

(* ================================================================== *)
(** * Helpers of the extractor *)
(* ================================================================== *)

(** [clean_value] *)
Definition clean_value (value : str) : str :=
  let value := strip value in
  if has_char UNDERSCORE value then before UNDERSCORE value else value.

(** the [header_patterns] list of [is_header_keyword] *)
Definition header_patterns : list str :=
  [ py "产品名称"; py "基金名称"; py "名称";
    py "产品代码"; py "基金代码"; py "代码";
    py "单位净值"; py "基金份额净值"; py "产品单位净值"; py "净值";
    py "累计单位净值"; py "基金份额累计净值"; py "产品累计单位净值"; py "累计净值";
    py "净值日期"; py "日期";
    py "客户名称"; py "份额"; py "参与计提份额";
    py "计提频率"; py "业绩报酬"; py "提取净值"; py "虚拟净值" ].

(** [is_header_keyword]; the lower-cased copy the source computes is not
    used by it *)
Definition is_header_keyword (value : str) (all_keywords : list str) : bool :=
  existsb (fun keyword => contains keyword value || contains value keyword) header_patterns
  || existsb (fun keyword => contains keyword value || contains value keyword) all_keywords.

(** the set [all_keywords] of [extract_keyvalue_format], as a list *)
Definition all_keywords_of (kws : catalog) : list str :=
  flat_map snd kws.

(** [is_valid_result] *)
Definition required_fields : list str := [py "产品代码"; py "单位净值"].

Definition is_valid_result (result : record) : bool :=
  match result with
  | [] => false
  | _ =>
      forallb (fun field =>
                 match dict_get result field with
                 | Some v => truthy v
                 | None => false
                 end) required_fields
  end.

(* ================================================================== *)
(** * Format 1: the table path, [extract_table_format] *)
(* ================================================================== *)

(** What the [try ... except Exception: return None] of a path catches *)
Inductive exc (A : Type) :=
| Ret (a : A)
| Raise.
Arguments Ret {A} a.
Arguments Raise {A}.

Definition bind {A B} (m : exc A) (k : A -> exc B) : exc B :=
  match m with
  | Ret a => k a
  | Raise => Raise
  end.

Notation "x <- m ;; k" := (bind m (fun x => k))
  (at level 61, m at next level, right associativity).

(** ** Header detection *)

(** a cell of [row_cleaned]: line breaks and spaces removed *)
Definition squeeze (s : str) : str := replace SPACE [] (replace LF [] s).

Definition row_cleaned (df : DataFrame) (row_idx : nat) : list str :=
  map (fun v => squeeze (str_of v)) (row df row_idx).

(** [pattern in cell or pattern.replace(' ', '') in cell] *)
Definition pattern_in (pattern cell : str) : bool :=
  contains pattern cell || contains (replace SPACE [] pattern) cell.

(** one field of the counting loop: some pattern is in some cell *)
Definition field_in_row (patterns : list str) (cells : list str) : bool :=
  existsb (fun pattern => existsb (pattern_in pattern) cells) patterns.

Definition matched_field_count (kws : catalog) (cells : list str) : nat :=
  length (filter (fun kv => field_in_row (snd kv) cells) kws).

Definition is_header_row (kws : catalog) (df : DataFrame) (row_idx : nat) : bool :=
  2 <=? matched_field_count kws (row_cleaned df row_idx).

(** the first of the rows [range(min(5, len(df)))] with two matched fields *)
Definition header_row_idx (df : DataFrame) (kws : catalog) : option nat :=
  List.find (is_header_row kws df) (seq 0 (Nat.min 5 (len df))).

(** ** Data rows *)

Definition cleaned_headers (df : DataFrame) (h : nat) : list str :=
  map (fun v => strip (replace LF [SPACE] (str_of v))) (row df h).

(** a cell of an all-blank row *)
Definition blank_cell (v : cell) : bool :=
  isna v
  || (let s := strip (str_of v) in eqb s [] || eqb s (py "nan") || eqb s (py "NaN")).

(** [data_row[col]]: the cell under the label when one column carries it,
    a Series of cells when several do *)
Inductive item :=
| Scalar (v : cell)
| Series.

Fixpoint index_of (col : str) (columns : list str) : nat :=
  match columns with
  | [] => 0
  | c :: columns' => if eqb c col then 0 else S (index_of col columns')
  end.

Definition getitem (columns : list str) (data_row : list cell) (col : str) : item :=
  if length (filter (eqb col) columns) =? 1
  then Scalar (nth (index_of col columns) data_row NaN)
  else Series.

(** [pd.notna(value) and str(value).strip() and str(value) != 'nan'] *)
Definition value_present (value : cell) : bool :=
  notna value && truthy (strip (str_of value)) && negb (eqb (str_of value) (py "nan")).

(** the loop over the columns for one pattern; the truth value of a Series
    raises *)
Fixpoint scan_columns (columns : list str) (data_row : list cell) (pattern : str)
    (cols : list str) : exc (option str) :=
  match cols with
  | [] => Ret None
  | col :: cols' =>
      if pattern_in pattern (squeeze col) then
        match getitem columns data_row col with
        | Series => Raise
        | Scalar value =>
            if value_present value then Ret (Some (clean_value (str_of value)))
            else scan_columns columns data_row pattern cols'
        end
      else scan_columns columns data_row pattern cols'
  end.

(** the loop over the patterns of one field *)
Fixpoint lookup_field (columns : list str) (data_row : list cell)
    (patterns : list str) : exc (option str) :=
  match patterns with
  | [] => Ret None
  | pattern :: patterns' =>
      found <- scan_columns columns data_row pattern columns ;;
      match found with
      | Some v => Ret (Some v)
      | None => lookup_field columns data_row patterns'
      end
  end.

(** the loop over the fields for one data row *)
Fixpoint extract_row (columns : list str) (data_row : list cell)
    (kws : catalog) (result : record) : exc record :=
  match kws with
  | [] => Ret result
  | (field_name, patterns) :: kws' =>
      found <- lookup_field columns data_row patterns ;;
      match found with
      | Some v => extract_row columns data_row kws' (dict_set result field_name v)
      | None => extract_row columns data_row kws' result
      end
  end.

(** the loop over the data rows *)
Fixpoint extract_rows (columns : list str) (kws : catalog)
    (data_rows : list (list cell)) (results : list record) : exc (list record) :=
  match data_rows with
  | [] => Ret results
  | data_row :: data_rows' =>
      if forallb blank_cell data_row then extract_rows columns kws data_rows' results
      else
        result <- extract_row columns data_row kws [] ;;
        extract_rows columns kws data_rows'
          (if 3 <=? length result then results ++ [result] else results)
  end.

(** the rows after the header row *)
Definition data_rows (df : DataFrame) (data_row_idx : nat) : list (list cell) :=
  map (row df) (seq data_row_idx (len df - data_row_idx)).

Definition extract_table_format (df : DataFrame) (kws : catalog) : option (list record) :=
  match header_row_idx df kws with
  | None => None
  | Some h =>
      let data_row_idx := h + 1 in
      if len df <=? data_row_idx then None
      else
        match extract_rows (cleaned_headers df h) kws (data_rows df data_row_idx) [] with
        | Raise => None
        | Ret [] => None
        | Ret results => Some results
        end
  end.

(* ================================================================== *)
(** * Formats 2 and 3: the key/value path, [extract_keyvalue_format] *)
(* ================================================================== *)

(** the first result of [f] along [l]: a loop left by [break] *)
Fixpoint first_some {A B} (f : A -> option B) (l : list A) : option B :=
  match l with
  | [] => None
  | a :: l' => match f a with
               | Some b => Some b
               | None => first_some f l'
               end
  end.

Section KeyValue.

Variable env : PyEnv.

(** [c.isalpha()] of one character *)
Definition isalpha (c : char) : bool :=
  if (c <? 128)%N
  then ((65 <=? c) && (c <=? 90) || (97 <=? c) && (c <=? 122))%N
  else unicode_isalpha env c.

(** ['一' <= c <= '鿿'] *)
Definition is_cjk (c : char) : bool := ((19968 <=? c) && (c <=? 40959))%N.

(** the cleaned form of a cell or of a pattern in the key/value scan *)
Definition cleaned (s : str) : str := replace LF [] (replace SPACE [] s).

(** [cell_value[idx-1] if idx > 0 else ''] *)
Definition char_before (cell_value : str) (idx : nat) : option char :=
  match idx with
  | 0 => None
  | S k => nth_error cell_value k
  end.

(** the value of [is_match] once a pattern has been tried on a cell *)
Definition is_match (cell_value pattern : str) : bool :=
  if eqb (cleaned cell_value) (cleaned pattern) then true
  else
    match find cell_value pattern with
    | Some idx =>
        match char_before cell_value idx with
        | Some c => negb (isalpha c || is_cjk c)
        | None => true
        end
    | None => false
    end.

(** [better_field_match]: another field has a longer pattern in the cell *)
Definition better_field_match (kws : catalog) (field_name : str)
    (cell_value_cleaned pattern_cleaned : str) : bool :=
  existsb (fun kv =>
             negb (eqb (fst kv) field_name)
             && existsb (fun other_pattern =>
                           contains (cleaned other_pattern) cell_value_cleaned
                           && (length pattern_cleaned <? length (cleaned other_pattern)))
                        (snd kv))
          kws.

(** layout 1, the value after the full-width colon of the label's cell *)
Definition same_cell_value (all_keywords : list str) (cell_value : str) : option str :=
  if has_char FWCOLON cell_value then
    match after FWCOLON cell_value with
    | Some rest =>
        let value := strip rest in
        if truthy value && negb (eqb value (py "nan"))
           && negb (is_header_keyword value all_keywords)
        then Some (clean_value value) else None
    | None => None
    end
  else None.

(** layout 2, the cells at the given offsets to the right of the label *)
Definition right_value (df : DataFrame) (all_keywords : list str) (i j : nat)
    (offsets : list nat) : option str :=
  first_some
    (fun offset =>
       if j + offset <? ncols df then
         let value := strip (str_of (iloc df i (j + offset))) in
         if truthy value && negb (eqb value (py "nan")) && negb (eqb value (py "NaN"))
            && negb (is_header_keyword value all_keywords)
         then Some (clean_value value) else None
       else None)
    offsets.

(** what an accepted label cell gives: layout 1, else layout 2 *)
Definition locate_value (df : DataFrame) (all_keywords : list str) (i j : nat)
    (cell_value : str) : option str :=
  match same_cell_value all_keywords cell_value with
  | Some v => Some v
  | None => right_value df all_keywords i j [1; 2]
  end.

(** the loop over the patterns of a field at one cell: a pattern that does
    not match, or that loses to a longer pattern of another field, leads to
    the next pattern; the first other pattern ends the loop, with or without
    a value *)
Fixpoint scan_patterns (df : DataFrame) (kws : catalog) (all_keywords : list str)
    (field_name : str) (i j : nat) (cell_value : str) (patterns : list str)
    : option str :=
  match patterns with
  | [] => None
  | pattern :: patterns' =>
      if is_match cell_value pattern then
        if better_field_match kws field_name (cleaned cell_value) (cleaned pattern)
        then scan_patterns df kws all_keywords field_name i j cell_value patterns'
        else locate_value df all_keywords i j cell_value
      else scan_patterns df kws all_keywords field_name i j cell_value patterns'
  end.

(** one cell of the scan for a field *)
Definition scan_cell (df : DataFrame) (kws : catalog) (all_keywords : list str)
    (field_name : str) (patterns : list str) (i j : nat) : option str :=
  scan_patterns df kws all_keywords field_name i j
    (strip (str_of (iloc df i j))) patterns.

(** the loops over the rows and columns for one field, left at the first
    cell that sets the field *)
Definition scan_field (df : DataFrame) (kws : catalog) (all_keywords : list str)
    (field_name : str) (patterns : list str) : option str :=
  first_some
    (fun i => first_some (scan_cell df kws all_keywords field_name patterns i)
                         (seq 0 (ncols df)))
    (seq 0 (len df)).

(** the loop over the fields *)
Fixpoint scan_fields (df : DataFrame) (kws : catalog) (all_keywords : list str)
    (todo : catalog) (result : record) : record :=
  match todo with
  | [] => result
  | (field_name, patterns) :: todo' =>
      match scan_field df kws all_keywords field_name patterns with
      | Some v => scan_fields df kws all_keywords todo' (dict_set result field_name v)
      | None => scan_fields df kws all_keywords todo' result
      end
  end.

(** the dictionary [result] when the scan ends *)
Definition keyvalue_scan (df : DataFrame) (kws : catalog) : record :=
  scan_fields df kws (all_keywords_of kws) kws [].

Definition extract_keyvalue_format (df : DataFrame) (kws : catalog) : option record :=
  let result := keyvalue_scan df kws in
  if 3 <=? length result then Some result else None.

(* ================================================================== *)
(** * The orchestrator, [extract_fund_data_smart] *)
(* ================================================================== *)

(** the body of [extract_fund_data_smart] over the results of the two
    paths; the key/value path is a thunk, run only when it is reached *)
Definition choose_path (table : option (list record))
    (keyvalue : unit -> option record) : option (list record) :=
  let fallback :=
    fun _ : unit =>
      match keyvalue tt with
      | Some result => if is_valid_result result then Some [result] else None
      | None => None
      end in
  match table with
  | Some ((_ :: _) as results) =>
      match filter is_valid_result results with
      | [] => fallback tt
      | valid_results => Some valid_results
      end
  | _ => fallback tt
  end.

Definition extract_fund_data_smart (df : DataFrame) : option (list record) :=
  choose_path (extract_table_format df keywords)
              (fun _ => extract_keyvalue_format df keywords).

End KeyValue.

(* ================================================================== *)
(** * Value normalisation *)
(* ================================================================== *)

(** ** [float(s)] of a string

    A float is an IEEE 754 double. [FBin neg m e] is the finite double
    [(-1)^neg * m * 2^e], written with an odd [m]; a zero is [m = 0] and
    [e = 0], and keeps its sign. [float] returns the double nearest to the
    decimal numeral it reads, a tie going to the double whose last bit is
    0, and an infinity when that is 2^1024 or more ([nearest_double]). *)
Inductive pyfloat :=
| FBin (neg : bool) (m : N) (e : Z)
| FInf (neg : bool)
| FNan.

(** [n / d] rounded to the nearest integer, a tie to the even one, for
    [0 <= n] and [0 < d] *)
Definition round_half_even (n d : Z) : Z :=
  let q := (n / d)%Z in
  match (2 * (n mod d) ?= d)%Z with
  | Lt => q
  | Gt => (q + 1)%Z
  | Eq => if Z.even q then q else (q + 1)%Z
  end.

(** [p * 2^e] written with an odd mantissa *)
Fixpoint odd_part (p : positive) (e : Z) : positive * Z :=
  match p with
  | xO p' => odd_part p' (e + 1)
  | _ => (p, e)
  end.

(** the double nearest to [(-1)^neg * m * 10^e]: the number is [num / den];
    [lg] is the exponent of its leading bit, [k] the exponent of the last
    of the 53 bits kept (never below -1074, where the subnormal numbers
    end), [q] the number in units of [2^k], rounded *)
Definition nearest_double (neg : bool) (m : N) (e : Z) : pyfloat :=
  let num := (if 0 <=? e then Z.of_N m * 10 ^ e else Z.of_N m)%Z in
  let den := (if 0 <=? e then 1 else 10 ^ (- e))%Z in
  let scaled_num := fun k => (if 0 <=? k then num else num * 2 ^ (- k))%Z in
  let scaled_den := fun k => (if 0 <=? k then den * 2 ^ k else den)%Z in
  let l := (Z.log2 num - Z.log2 den)%Z in
  let lg := (if scaled_num l <? scaled_den l then l - 1 else l)%Z in
  let k := Z.max (-1074) (lg - 52) in
  let q := round_half_even (scaled_num k) (scaled_den k) in
  if ((971 <? k) || (k =? 971) && (2 ^ 53 <=? q))%Z then FInf neg
  else match q with
       | Zpos p => let (p', e') := odd_part p k in FBin neg (Npos p') e'
       | _ => FBin neg 0 0
       end.

(** a value of a normalised record *)
Inductive pyval :=
| PNone
| PStr (s : str)
| PFloat (f : pyfloat).

Definition of_option (v : option str) : pyval :=
  match v with
  | Some s => PStr s
  | None => PNone
  end.

Definition is_digit (c : char) : bool := ((48 <=? c) && (c <=? 57))%N.

Definition ascii_lower (c : char) : char :=
  if ((65 <=? c) && (c <=? 90))%N then (c + 32)%N else c.

(** the white space of the C locale, which [float] strips *)
Definition c_isspace (c : char) : bool :=
  ((9 <=? c) && (c <=? 13) || (c =? 32))%N.

Fixpoint c_lstrip (s : str) : str :=
  match s with
  | c :: s' => if c_isspace c then c_lstrip s' else s
  | [] => []
  end.

Definition c_strip (s : str) : str := rev (c_lstrip (rev (c_lstrip s))).

(** the states of the numeral [digits [. [digits]] [e [sign] digits]] or
    [. digits [e [sign] digits]] *)
Inductive fstate :=
| FStart
| FInt (m : N)
| FDot
| FFrac (m k : N)
| FE (m k : N)
| FESign (m k : N) (eneg : bool)
| FExp (m k : N) (eneg : bool) (x : N).

Definition is_e (c : char) : bool := ((c =? 101) || (c =? 69))%N.
Definition is_dot (c : char) : bool := (c =? 46)%N.
Definition is_plus (c : char) : bool := (c =? 43)%N.
Definition is_minus (c : char) : bool := (c =? 45)%N.

Definition push (m : N) (c : char) : N := (10 * m + (c - 48))%N.

Definition fstep (st : fstate) (c : char) : option fstate :=
  match st with
  | FStart =>
      if is_digit c then Some (FInt (push 0 c))
      else if is_dot c then Some FDot else None
  | FInt m =>
      if is_digit c then Some (FInt (push m c))
      else if is_dot c then Some (FFrac m 0)
      else if is_e c then Some (FE m 0) else None
  | FDot => if is_digit c then Some (FFrac (push 0 c) 1) else None
  | FFrac m k =>
      if is_digit c then Some (FFrac (push m c) (k + 1))
      else if is_e c then Some (FE m k) else None
  | FE m k =>
      if is_digit c then Some (FExp m k false (push 0 c))
      else if is_plus c then Some (FESign m k false)
      else if is_minus c then Some (FESign m k true) else None
  | FESign m k eneg => if is_digit c then Some (FExp m k eneg (push 0 c)) else None
  | FExp m k eneg x => if is_digit c then Some (FExp m k eneg (push x c)) else None
  end.

Fixpoint frun (st : fstate) (s : str) : option fstate :=
  match s with
  | [] => Some st
  | c :: s' => match fstep st c with
               | Some st' => frun st' s'
               | None => None
               end
  end.

(** the end of the numeral: the digits read are [m], of which [k] stand
    after the point, and the exponent is [x] *)
Definition ffinal (neg : bool) (st : fstate) : option pyfloat :=
  match st with
  | FInt m => Some (nearest_double neg m 0)
  | FFrac m k => Some (nearest_double neg m (- Z.of_N k))
  | FExp m k eneg x =>
      Some (nearest_double neg m ((if eneg then - Z.of_N x else Z.of_N x) - Z.of_N k))
  | _ => None
  end.

(** the numeral after the sign: [inf], [infinity], [nan] in any case, or
    a decimal numeral *)
Definition float_body (neg : bool) (s : str) : option pyfloat :=
  let l := map ascii_lower s in
  if eqb l (py "inf") || eqb l (py "infinity") then Some (FInf neg)
  else if eqb l (py "nan") then Some FNan
  else match frun FStart s with
       | Some st => ffinal neg st
       | None => None
       end.

(** an underscore may stand only between two digits; they are removed *)
Fixpoint drop_underscores (prev : char) (s : str) : option str :=
  match s with
  | [] => if (prev =? UNDERSCORE)%N then None else Some []
  | c :: s' =>
      if (c =? UNDERSCORE)%N then
        if is_digit prev then drop_underscores c s' else None
      else if (prev =? UNDERSCORE)%N && negb (is_digit c) then None
      else option_map (cons c) (drop_underscores c s')
  end.

Section Normalise.

Variable env : PyEnv.

(** the decimal digit value of a character: [\d], [int], [float] *)
Definition decimal_of (c : char) : option N :=
  if (c <? 128)%N then (if is_digit c then Some (c - 48)%N else None)
  else match unicode_decimal env c with
       | Some d => if (d <=? 9)%N then Some d else None
       | None => None
       end.

(** [float] first writes the white space and the digits from outside ASCII
    as an ASCII space and ASCII digits; any other such character fails it *)
Definition ascii_char (c : char) : option char :=
  if (c <? 128)%N then Some c
  else if isspace c then Some SPACE
  else option_map (fun d => (48 + d)%N) (decimal_of c).

Fixpoint to_ascii (s : str) : option str :=
  match s with
  | [] => Some []
  | c :: s' =>
      match ascii_char c, to_ascii s' with
      | Some a, Some r => Some (a :: r)
      | _, _ => None
      end
  end.

(** [float(s)]; [None] stands for [ValueError] *)
Definition py_float (s : str) : option pyfloat :=
  match to_ascii s with
  | None => None
  | Some a =>
      match (if has_char UNDERSCORE a then drop_underscores 0%N a else Some a) with
      | None => None
      | Some b =>
          match c_strip b with
          | [] => None
          | c :: r =>
              if is_minus c then float_body true r
              else if is_plus c then float_body false r
              else float_body false (c :: r)
          end
      end
  end.

(** [convert_to_float] of what [data.get] gives: [float(None)] raises as
    well, and the bare [except] returns the value *)
Definition convert_to_float (value : option str) : pyval :=
  match value with
  | Some s => match py_float s with
              | Some f => PFloat f
              | None => PStr s
              end
  | None => PNone
  end.

(** ** [datetime.strptime] on the four formats of [normalize_date]

    [strptime] turns the format into a regular expression, one group of
    alternatives per directive, matches it at the start of the string with
    the regular expression's backtracking, and fails unless the match ends
    where the string ends and the numbers read form a date and a time. *)

Inductive directive :=
| DY | Dm | Dd | DH | DM | DS
(** a character of the format that stands for itself *)
| DLit (c : char)
(** white space in the format: [\s+] *)
| DSpace.

(** one position of an alternative *)
Inductive cls :=
| Lit (c : char)
| Rng (lo hi : char)
(** [\d] *)
| Dig.

Definition cls_match (k : cls) (c : char) : bool :=
  match k with
  | Lit a => (c =? a)%N
  | Rng lo hi => ((lo <=? c) && (c <=? hi))%N
  | Dig => match decimal_of c with Some _ => true | None => false end
  end.

Definition d0 : char := 48%N.
Definition d1 : char := 49%N.
Definition d2 : char := 50%N.
Definition d3 : char := 51%N.
Definition d5 : char := 53%N.
Definition d6 : char := 54%N.
Definition d9 : char := 57%N.

(** the alternatives of a directive, in the order the expression lists them *)
Definition alternatives (d : directive) : list (list cls) :=
  match d with
  | DY => [[Dig; Dig; Dig; Dig]]
  | Dm => [[Lit d1; Rng d0 d2]; [Lit d0; Rng d1 d9]; [Rng d1 d9]]
  | Dd => [[Lit d3; Rng d0 d1]; [Rng d1 d2; Dig]; [Lit d0; Rng d1 d9]; [Rng d1 d9];
           [Lit SPACE; Rng d1 d9]]
  | DH => [[Lit d2; Rng d0 d3]; [Rng d0 d1; Dig]; [Dig]]
  | DM => [[Rng d0 d5; Dig]; [Dig]]
  | DS => [[Lit d6; Rng d0 d1]; [Rng d0 d5; Dig]; [Dig]]
  | DLit c => [[Lit c]]
  | DSpace => []
  end.

(** an alternative at the start of [s]: the characters it takes and the rest *)
Fixpoint take_alt (alt : list cls) (s : str) : option (str * str) :=
  match alt with
  | [] => Some ([], s)
  | k :: alt' =>
      match s with
      | c :: s' =>
          if cls_match k c then
            match take_alt alt' s' with
            | Some (t, r) => Some (c :: t, r)
            | None => None
            end
          else None
      | [] => None
      end
  end.

(** the ways [\s+] can match at the start of [s], longest first *)
Fixpoint spaces (s : str) : list (str * str) :=
  match s with
  | c :: s' =>
      if isspace c then
        map (fun tr => (c :: fst tr, snd tr)) (spaces s') ++ [([c], s')]
      else []
  | [] => []
  end.

(** the ways a directive can match at the start of [s], in the order the
    matcher tries them *)
Definition candidates (d : directive) (s : str) : list (str * str) :=
  match d with
  | DSpace => spaces s
  | _ => flat_map (fun alt => match take_alt alt s with
                              | Some tr => [tr]
                              | None => []
                              end) (alternatives d)
  end.

(** the match of the expression at the start of [s]: the text of each
    directive, and the rest of the string *)
Fixpoint regex_match (fmt : list directive) (s : str)
    : option (list (directive * str) * str) :=
  match fmt with
  | [] => Some ([], s)
  | d :: fmt' =>
      first_some (fun tr =>
                    match regex_match fmt' (snd tr) with
                    | Some (groups, rest) => Some ((d, fst tr) :: groups, rest)
                    | None => None
                    end)
                 (candidates d s)
  end.

(** [int(text)] of a group: its digits, a leading space skipped *)
Definition int_of (text : str) : N :=
  fold_left (fun n c => match decimal_of c with
                        | Some d => (10 * n + d)%N
                        | None => n
                        end) text 0%N.

Definition same_directive (a b : directive) : bool :=
  match a, b with
  | DY, DY | Dm, Dm | Dd, Dd | DH, DH | DM, DM | DS, DS => true
  | _, _ => false
  end.

(** the number read for a directive, [default] when the format lacks it *)
Fixpoint group (groups : list (directive * str)) (d : directive) (default : N) : N :=
  match groups with
  | [] => default
  | (d', text) :: groups' =>
      if same_directive d' d then int_of text else group groups' d default
  end.

Definition is_leap (y : N) : bool :=
  ((y mod 4 =? 0) && (negb (y mod 100 =? 0) || (y mod 400 =? 0)))%N.

Definition days_in_month (y m : N) : N :=
  (if m =? 2 then (if is_leap y then 29 else 28)
   else if (m =? 4) || (m =? 6) || (m =? 9) || (m =? 11) then 30
   else 31)%N.

(** a calendar date, as [datetime] holds it *)
Record date := { year : N; month : N; day : N }.

Definition valid_datetime (y m d hh mm ss : N) : bool :=
  ((1 <=? y) && (y <=? 9999) && (1 <=? m) && (m <=? 12)
   && (1 <=? d) && (d <=? days_in_month y m)
   && (hh <=? 23) && (mm <=? 59) && (ss <=? 59))%N.

(** [datetime.strptime(s, fmt)], its date; [None] stands for [ValueError] *)
Definition strptime (s : str) (fmt : list directive) : option date :=
  match regex_match fmt s with
  | Some (groups, []) =>
      let y := group groups DY 1900%N in
      let m := group groups Dm 1%N in
      let d := group groups Dd 1%N in
      if valid_datetime y m d (group groups DH 0%N) (group groups DM 0%N)
                        (group groups DS 0%N)
      then Some {| year := y; month := m; day := d |}
      else None
  | _ => None
  end.

(** ** [strftime('%Y%m%d')] *)

Definition digit_char (n : N) : char := (48 + n mod 10)%N.

Definition two_digits (n : N) : str := [digit_char (n / 10); digit_char n].

Definition four_digits (n : N) : str :=
  [digit_char (n / 1000); digit_char (n / 100); digit_char (n / 10); digit_char n].

Definition strftime_Ymd (dt : date) : str :=
  (if (1000 <=? year dt)%N then four_digits (year dt)
   else strftime_small_year env (year dt))
  ++ two_digits (month dt) ++ two_digits (day dt).

(** ** [normalize_date] *)

Definition DASH : char := 45%N.
Definition SLASH : char := 47%N.
Definition COLON : char := 58%N.

(** the list [formats], in its order *)
Definition formats : list (list directive) :=
  [ [DY; Dm; Dd];
    [DY; DLit DASH; Dm; DLit DASH; Dd];
    [DY; DLit SLASH; Dm; DLit SLASH; Dd];
    [DY; DLit DASH; Dm; DLit DASH; Dd; DSpace; DH; DLit COLON; DM; DLit COLON; DS] ].

(** [normalize_date] of what [data.get] gives *)
Definition normalize_date (date_str : option str) : pyval :=
  match date_str with
  | None => PNone
  | Some [] => PNone
  | Some raw =>
      let date_str := strip raw in
      match first_some (strptime date_str) formats with
      | Some dt => PStr (strftime_Ymd dt)
      | None => PStr date_str
      end
  end.

(* ================================================================== *)
(** * [extract_and_normalize] *)
(* ================================================================== *)

(** [convert_to_float(data.get(k)) if data.get(k) else None] *)
Definition float_if_present (data : record) (k : str) : pyval :=
  match dict_get data k with
  | Some v => if truthy v then convert_to_float (Some v) else PNone
  | None => PNone
  end.

(** the dictionary [normalized] built for one record *)
Definition normalized (data : record) : dict pyval :=
  [ (py "产品名称", of_option (dict_get data (py "产品名称")));
    (py "产品代码", of_option (dict_get data (py "产品代码")));
    (py "客户名称", of_option (dict_get data (py "客户名称")));
    (py "参与计提份额", float_if_present data (py "参与计提份额"));
    (py "净值日期", normalize_date (dict_get data (py "净值日期")));
    (py "单位净值", convert_to_float (dict_get data (py "单位净值")));
    (py "累计单位净值", float_if_present data (py "累计单位净值"));
    (py "计提频率", of_option (dict_get data (py "计提频率")));
    (py "虚拟计提业绩报酬金额", float_if_present data (py "虚拟计提业绩报酬金额"));
    (py "提取净值", float_if_present data (py "提取净值"));
    (py "计提后虚拟净值", float_if_present data (py "计提后虚拟净值")) ].

Definition extract_and_normalize (df : DataFrame) : option (list (dict pyval)) :=
  match extract_fund_data_smart env df with
  | None => None
  | Some [] => None
  | Some data_list => Some (map normalized data_list)
  end.

End Normalise.

(* ================================================================== *)
(** * Facts about strings, dictionaries and loops *)
(* ================================================================== *)

Lemma eqb_eq (a b : str) : eqb a b = true <-> a = b.
Proof.
  revert b; induction a as [|x a IH]; intros [|y b]; simpl; split; intro H;
    try reflexivity; try discriminate.
  - apply andb_true_iff in H as [Hx Hab].
    apply N.eqb_eq in Hx. apply IH in Hab. congruence.
  - injection H as -> ->. rewrite N.eqb_refl. simpl. now apply IH.
Qed.

Lemma eqb_refl (a : str) : eqb a a = true.
Proof. now apply eqb_eq. Qed.

Lemma eqb_neq (a b : str) : eqb a b = false <-> a <> b.
Proof.
  split.
  - intros H E. apply eqb_eq in E. congruence.
  - intro H. destruct (eqb a b) eqn:E; [|reflexivity].
    apply eqb_eq in E. contradiction.
Qed.

(** [sub] occurs in [s] at index [idx] *)
Definition occurs_at (s sub : str) (idx : nat) : Prop :=
  exists pre post, s = pre ++ sub ++ post /\ length pre = idx.

(** [sub] is a substring of [s] *)
Definition substring (sub s : str) : Prop :=
  exists pre post, s = pre ++ sub ++ post.

Lemma startswith_spec (s sub : str) :
  startswith s sub = true <-> exists post, s = sub ++ post.
Proof.
  revert s; induction sub as [|x sub IH]; intros s; simpl.
  - split; [intros _; now exists s | intros _; now destruct s].
  - destruct s as [|y s]; simpl.
    + split; [discriminate | intros [post H]; discriminate].
    + rewrite andb_true_iff, N.eqb_eq, IH. split.
      * intros [-> [post ->]]. now exists post.
      * intros [post H]. injection H as -> ->. split; [reflexivity | now exists post].
Qed.

Lemma startswith_occurs (s sub : str) :
  startswith s sub = true <-> occurs_at s sub 0.
Proof.
  rewrite startswith_spec. split.
  - intros [post ->]. now exists [], post.
  - intros [pre [post [-> Hl]]]. destruct pre; [|discriminate]. now exists post.
Qed.

Lemma occurs_at_cons (c : char) (s sub : str) (k : nat) :
  occurs_at (c :: s) sub (S k) <-> occurs_at s sub k.
Proof.
  split.
  - intros [pre [post [H Hl]]]. destruct pre as [|p pre]; [discriminate|].
    simpl in H, Hl. injection H as -> ->. injection Hl as <-. now exists pre, post.
  - intros [pre [post [-> <-]]]. now exists (c :: pre), post.
Qed.

Lemma occurs_at_nil (sub : str) (k : nat) : occurs_at [] sub k -> k = 0.
Proof.
  intros [pre [post [H Hl]]]. destruct pre; [now subst | discriminate].
Qed.

Lemma find_unfold (s sub : str) :
  find s sub =
  if startswith s sub then Some 0
  else match s with
       | [] => None
       | _ :: s' => option_map S (find s' sub)
       end.
Proof. destruct s; reflexivity. Qed.

(** [find] gives the least index of an occurrence *)
Lemma find_Some (s sub : str) (idx : nat) :
  find s sub = Some idx <->
  occurs_at s sub idx /\ forall k, k < idx -> ~ occurs_at s sub k.
Proof.
  revert idx; induction s as [|c s IH]; intros idx; rewrite find_unfold.
  - destruct (startswith [] sub) eqn:E.
    + apply startswith_occurs in E. split.
      * intros [= <-]. split; [assumption | intros k Hk; lia].
      * intros [H _]. apply occurs_at_nil in H. now subst.
    + split; [discriminate|]. intros [H _].
      pose proof (occurs_at_nil _ _ H) as ->.
      apply startswith_occurs in H. congruence.
  - destruct (startswith (c :: s) sub) eqn:E.
    + apply startswith_occurs in E. split.
      * intros [= <-]. split; [assumption | intros k Hk; lia].
      * intros [_ Hmin]. destruct idx as [|idx]; [reflexivity|].
        exfalso. apply (Hmin 0); [lia | assumption].
    + assert (E0 : ~ occurs_at (c :: s) sub 0).
      { intro H. apply startswith_occurs in H. congruence. }
      destruct (find s sub) as [k0|] eqn:F; simpl.
      * destruct (proj1 (IH k0) eq_refl) as [Hocc Hmin]. split.
        -- intros [= <-]. split; [now apply occurs_at_cons|].
           intros [|k] Hk; [assumption|].
           rewrite occurs_at_cons. apply Hmin. lia.
        -- intros [Hocc' Hmin']. destruct idx as [|idx]; [contradiction|].
           apply occurs_at_cons in Hocc'.
           assert (IHidx : Some k0 = Some idx).
           { apply IH. split; [assumption|]. intros k Hk Hc.
             apply (Hmin' (S k)); [lia | now apply occurs_at_cons]. }
           now injection IHidx as ->.
      * split; [discriminate|]. intros [Hocc _].
        destruct idx as [|idx]; [contradiction|].
        apply occurs_at_cons in Hocc. exfalso.
        assert (Hnone : forall k, ~ occurs_at s sub k).
        { intro k. induction k as [k IHk] using lt_wf_ind. intro Hk.
          assert (None = Some k); [|discriminate].
          apply IH. split; [assumption | intros; now apply IHk]. }
        exact (Hnone idx Hocc).
Qed.

Lemma find_None (s sub : str) :
  find s sub = None <-> ~ substring sub s.
Proof.
  split.
  - intros F [pre [post H]].
    assert (Hocc : occurs_at s sub (length pre)) by now exists pre, post.
    clear H. remember (length pre) as n eqn:Hn. clear Hn pre post.
    induction n as [n IHn] using lt_wf_ind.
    assert (find s sub = Some n); [|congruence].
    apply find_Some. split; [assumption|]. intros k Hk Hc. now apply (IHn k).
  - intros H. destruct (find s sub) as [k|] eqn:F; [|reflexivity].
    exfalso. apply H. apply find_Some in F as [[pre [post [E _]]] _].
    now exists pre, post.
Qed.

(** [sub in s] holds exactly of the substrings of [s] *)
Lemma contains_spec (sub s : str) :
  contains sub s = true <-> substring sub s.
Proof.
  unfold contains. destruct (find s sub) as [k|] eqn:F.
  - split; [|reflexivity]. intros _.
    apply find_Some in F as [[pre [post [E _]]] _]. now exists pre, post.
  - split; [discriminate|]. intro H. apply find_None in F. contradiction.
Qed.

(* ================================================================== *)
(** * The key/value scan: candidate matches and the tie-break *)
(* ================================================================== *)



(** a match by containment at the start of the cell *)
Lemma is_match_at_start (env : PyEnv) (cell_value pattern : str) :
  find cell_value pattern = Some 0 ->
  is_match env cell_value pattern = true.
Proof.
  intros F. unfold is_match. rewrite F. simpl.
  now destruct (eqb (cleaned cell_value) (cleaned pattern)).
Qed.


(** *** Evaluating the scan under any Unicode table

    [is_match] asks [isalpha] only together with the CJK test, so it does not
    change when the table is made to call the CJK range alphabetic (which
    the Unicode table does). *)
Definition cjk_closed (env : PyEnv) : PyEnv :=
  {| unicode_isalpha := fun c => is_cjk c || unicode_isalpha env c;
     unicode_decimal := unicode_decimal env;
     strftime_small_year := strftime_small_year env |}.

Lemma is_match_cjk_closed (env : PyEnv) (cell_value pattern : str) :
  is_match env cell_value pattern = is_match (cjk_closed env) cell_value pattern.
Proof.
  unfold is_match, isalpha, cjk_closed; simpl.
  destruct (eqb (cleaned cell_value) (cleaned pattern)); [reflexivity|].
  destruct (find cell_value pattern) as [idx|]; [|reflexivity].
  destruct (char_before cell_value idx) as [c|]; [|reflexivity].
  destruct (c <? 128)%N; [reflexivity|].
  now destruct (is_cjk c), (unicode_isalpha env c).
Qed.

Lemma first_some_ext {A B} (f g : A -> option B) (l : list A) :
  (forall a, f a = g a) -> first_some f l = first_some g l.
Proof.
  intros H. induction l as [|a l IH]; simpl; [reflexivity|].
  now rewrite H, IH.
Qed.

Lemma scan_patterns_cjk_closed (env : PyEnv) df kws all field_name i j cell_value patterns :
  scan_patterns env df kws all field_name i j cell_value patterns =
  scan_patterns (cjk_closed env) df kws all field_name i j cell_value patterns.
Proof.
  induction patterns as [|pattern patterns IH]; simpl; [reflexivity|].
  now rewrite <- is_match_cjk_closed, IH.
Qed.

Lemma scan_field_cjk_closed (env : PyEnv) df kws all field_name patterns :
  scan_field env df kws all field_name patterns =
  scan_field (cjk_closed env) df kws all field_name patterns.
Proof.
  unfold scan_field. apply first_some_ext. intros i.
  apply first_some_ext. intros j. apply scan_patterns_cjk_closed.
Qed.

Lemma scan_fields_cjk_closed (env : PyEnv) df kws all todo result :
  scan_fields env df kws all todo result =
  scan_fields (cjk_closed env) df kws all todo result.
Proof.
  revert result. induction todo as [|[field_name patterns] todo IH]; intros result;
    simpl; [reflexivity|].
  rewrite <- scan_field_cjk_closed.
  destruct (scan_field env df kws all field_name patterns); apply IH.
Qed.

Lemma keyvalue_scan_cjk_closed (env : PyEnv) df kws :
  keyvalue_scan env df kws = keyvalue_scan (cjk_closed env) df kws.
Proof. apply scan_fields_cjk_closed. Qed.

Lemma extract_keyvalue_format_cjk_closed (env : PyEnv) df kws :
  extract_keyvalue_format env df kws = extract_keyvalue_format (cjk_closed env) df kws.
Proof.
  unfold extract_keyvalue_format. now rewrite <- keyvalue_scan_cjk_closed.
Qed.

Lemma extract_fund_data_smart_cjk_closed (env : PyEnv) df :
  extract_fund_data_smart env df = extract_fund_data_smart (cjk_closed env) df.
Proof.
  unfold extract_fund_data_smart. now rewrite <- extract_keyvalue_format_cjk_closed.
Qed.

(** evaluation of a closed key/value scan, whatever the Unicode table *)
Ltac eval_scan env :=
  try rewrite (keyvalue_scan_cjk_closed env);
  try rewrite (extract_fund_data_smart_cjk_closed env);
  try rewrite (is_match_cjk_closed env);
  try rewrite (scan_patterns_cjk_closed env);
  destruct env; vm_compute; reflexivity.

(** the tie-break test, in words: another field has an alias that is a
    substring of the cleaned cell text and longer than the matched alias *)
Definition longer_alias_elsewhere (kws : catalog) (field_name : str)
    (cell_value pattern : str) : Prop :=
  exists other_field other_patterns other_pattern,
    In (other_field, other_patterns) kws
    /\ other_field <> field_name
    /\ In other_pattern other_patterns
    /\ substring (cleaned other_pattern) (cleaned cell_value)
    /\ length (cleaned pattern) < length (cleaned other_pattern).

Lemma better_field_match_spec (kws : catalog) (field_name cell_value pattern : str) :
  better_field_match kws field_name (cleaned cell_value) (cleaned pattern) = true
  <-> longer_alias_elsewhere kws field_name cell_value pattern.
Proof.
  unfold better_field_match, longer_alias_elsewhere.
  rewrite existsb_exists. split.
  - intros [[other_field other_patterns] [Hin H]]. simpl in H.
    apply andb_true_iff in H as [Hne H].
    apply existsb_exists in H as [other_pattern [Hp H]].
    apply andb_true_iff in H as [Hc Hl].
    exists other_field, other_patterns, other_pattern.
    repeat split; try assumption.
    + apply negb_true_iff in Hne. now apply eqb_neq.
    + now apply contains_spec.
    + now apply Nat.ltb_lt.
  - intros [other_field [other_patterns [other_pattern [Hin [Hne [Hp [Hc Hl]]]]]]].
    exists (other_field, other_patterns). split; [assumption|]. simpl.
    apply andb_true_iff. split.
    + apply negb_true_iff. now apply eqb_neq.
    + apply existsb_exists. exists other_pattern. split; [assumption|].
      apply andb_true_iff. split; [now apply contains_spec | now apply Nat.ltb_lt].
Qed.

(** a cell gives a field nothing when each of its matching patterns loses
    the tie-break *)
Lemma scan_patterns_all_beaten (env : PyEnv) df kws all field_name i j cell_value patterns :
  (forall pattern, In pattern patterns ->
     is_match env cell_value pattern = true ->
     better_field_match kws field_name (cleaned cell_value) (cleaned pattern) = true) ->
  scan_patterns env df kws all field_name i j cell_value patterns = None.
Proof.
  induction patterns as [|pattern patterns IH]; intros H; simpl; [reflexivity|].
  destruct (is_match env cell_value pattern) eqn:M.
  - rewrite (H pattern (or_introl eq_refl) M). apply IH.
    intros p Hp. apply H. now right.
  - apply IH. intros p Hp. apply H. now right.
Qed.

(** C1. In the key/value scan, a match of field F through an alias at a cell
    is discarded whenever another field has an alias that is a substring of
    the same cleaned cell text and strictly longer than F's matched alias:
    the scan goes on to F's next alias, and a cell at which every matching
    alias of F is so beaten gives F nothing. For the cell
    "累计单位净值：1.23" the field with alias "净值" (单位净值) does not bind;
    the field with the longer alias "累计单位净值" takes the value. For
    "净值日期：20240130" the alias "净值" matches and loses to "净值日期". *)
Theorem most_specific_wins (env : PyEnv) :
  (forall kws field_name cell_value pattern,
      better_field_match kws field_name (cleaned cell_value) (cleaned pattern) = true
      <-> longer_alias_elsewhere kws field_name cell_value pattern)
  /\ (forall df kws all field_name i j cell_value pattern patterns,
         is_match env cell_value pattern = true ->
         longer_alias_elsewhere kws field_name cell_value pattern ->
         scan_patterns env df kws all field_name i j cell_value (pattern :: patterns)
         = scan_patterns env df kws all field_name i j cell_value patterns)
  /\ (forall df kws all field_name i j cell_value patterns,
         (forall pattern, In pattern patterns ->
            is_match env cell_value pattern = true ->
            longer_alias_elsewhere kws field_name cell_value pattern) ->
         scan_patterns env df kws all field_name i j cell_value patterns = None)
  /\ (let df := grid [["累计单位净值：1.23"%string]] in
      cleaned (strip (str_of (iloc df 0 0))) = py "累计单位净值：1.23"
      /\ (forall patterns, dict_get keywords (py "单位净值") = Some patterns ->
            In (py "净值") patterns
            /\ scan_cell env df keywords (all_keywords_of keywords)
                 (py "单位净值") patterns 0 0 = None)
      /\ keyvalue_scan env df keywords = [(py "累计单位净值", py "1.23")])
  /\ (let df := grid [["净值日期：20240130"%string]] in
      is_match env (strip (str_of (iloc df 0 0))) (py "净值") = true
      /\ longer_alias_elsewhere keywords (py "单位净值")
           (strip (str_of (iloc df 0 0))) (py "净值")
      /\ keyvalue_scan env df keywords = [(py "净值日期", py "20240130")]).
Proof.
  split; [|split; [|split; [|split]]].
  - intros. apply better_field_match_spec.
  - intros df kws all field_name i j cell_value pattern patterns M B.
    apply better_field_match_spec in B. simpl. now rewrite M, B.
  - intros df kws all field_name i j cell_value patterns H.
    apply scan_patterns_all_beaten. intros pattern Hp M.
    apply better_field_match_spec. now apply H.
  - cbv zeta. split; [now vm_compute|]. split.
    + intros patterns [= <-]. split; [vm_compute; tauto|].
      unfold scan_cell. eval_scan env.
    + eval_scan env.
  - cbv zeta. split; [|split].
    + apply is_match_at_start. now vm_compute.
    + apply better_field_match_spec. now vm_compute.
    + eval_scan env.
Qed.

(* ================================================================== *)
(** * The key/value scan: where the value is looked for *)
(* ================================================================== *)

Lemma has_char_In (c : char) (s : str) : has_char c s = true <-> In c s.
Proof.
  unfold has_char. rewrite existsb_exists. split.
  - intros [x [Hx E]]. apply N.eqb_eq in E. now subst.
  - intros H. exists c. split; [assumption | apply N.eqb_refl].
Qed.

(** [s.split(c, 1)]: the text after the first [c] *)
Lemma after_spec (c : char) (s rest : str) :
  after c s = Some rest <-> exists label, s = label ++ c :: rest /\ ~ In c label.
Proof.
  revert rest; induction s as [|x s IH]; intros rest; simpl.
  - split; [discriminate|]. intros [[|y label] [H _]]; discriminate.
  - destruct (x =? c)%N eqn:E.
    + apply N.eqb_eq in E. subst x. split.
      * intros [= <-]. exists []. split; [reflexivity | intros []].
      * intros [[|y label] [H Hn]].
        -- now injection H as <-.
        -- injection H as <- _. exfalso. apply Hn. now left.
    + apply N.eqb_neq in E. rewrite IH. split.
      * intros [label [-> Hn]]. exists (x :: label). split; [reflexivity|].
        intros [H|H]; [congruence | contradiction].
      * intros [[|y label] [H Hn]].
        -- injection H as H _. congruence.
        -- injection H as <- ->. exists label. split; [reflexivity|].
           intros H. apply Hn. now right.
Qed.

(** the cells of row [i] are all the grid that [locate_value] reads *)
Lemma locate_value_row_only (df df' : DataFrame) all i j cell_value :
  ncols df = ncols df' ->
  nth i (df_rows df) [] = nth i (df_rows df') [] ->
  locate_value df all i j cell_value = locate_value df' all i j cell_value.
Proof.
  intros Hc Hr. unfold locate_value, right_value, iloc. now rewrite Hc, Hr.
Qed.

(** a grid with a label and its value directly below it: nothing is found *)
Lemma value_below_label_not_found :
  let df := grid [["产品代码"%string]; ["T05851"%string];
                  ["产品名称"%string]; ["Fund"%string];
                  ["单位净值"%string]; ["1.5"%string]] in
  dict_get (keyvalue_scan ascii_env df keywords) (py "产品代码") <> Some (py "T05851")
  /\ keyvalue_scan ascii_env df keywords = []
  /\ extract_fund_data_smart ascii_env df = None.
Proof.
  cbv zeta. split; [|split]; now vm_compute.
Qed.

(** the condition on a value of layout 1 *)
Definition accepted_same_cell (all : list str) (value : str) : bool :=
  truthy value && negb (eqb value (py "nan")) && negb (is_header_keyword value all).

(** the condition on a value of layout 2 *)
Definition accepted_right (all : list str) (value : str) : bool :=
  truthy value && negb (eqb value (py "nan")) && negb (eqb value (py "NaN"))
  && negb (is_header_keyword value all).

(** C4, as the code has it. Once a label cell is accepted for a field (an
    alias matches and no other field has a longer alias in the cell), the
    value is looked for in two layouts, in this order, the first success
    winning: (1) the text after the first full-width colon of the label's
    own cell; (2) the cell at horizontal offset +1, then +2. No other cell is
    read: the result depends on row [i] only, and a value that stands
    directly below its label is not found by the key/value scan. *)
Theorem locate_value_layouts (env : PyEnv) :
  (forall df kws all field_name i j cell_value pattern patterns,
      is_match env cell_value pattern = true ->
      better_field_match kws field_name (cleaned cell_value) (cleaned pattern) = false ->
      scan_patterns env df kws all field_name i j cell_value (pattern :: patterns)
      = locate_value df all i j cell_value)
  /\ (forall df all i j cell_value,
         locate_value df all i j cell_value =
         match same_cell_value all cell_value with
         | Some v => Some v
         | None =>
             match right_value df all i j [1] with
             | Some v => Some v
             | None => right_value df all i j [2]
             end
         end)
  /\ (forall all cell_value v,
         same_cell_value all cell_value = Some v <->
         exists label rest,
           cell_value = label ++ FWCOLON :: rest /\ ~ In FWCOLON label
           /\ accepted_same_cell all (strip rest) = true
           /\ v = clean_value (strip rest))
  /\ (forall df all i j offset v,
         right_value df all i j [offset] = Some v <->
         j + offset < ncols df
         /\ accepted_right all (strip (str_of (iloc df i (j + offset)))) = true
         /\ v = clean_value (strip (str_of (iloc df i (j + offset)))))
  /\ (forall df df' all i j cell_value,
         ncols df = ncols df' ->
         nth i (df_rows df) [] = nth i (df_rows df') [] ->
         locate_value df all i j cell_value = locate_value df' all i j cell_value)
  /\ keyvalue_scan env (grid [["产品代码"%string]; ["T05851"%string]]) keywords = []
  /\ keyvalue_scan env (grid [["产品代码：T05851"%string]]) keywords
     = [(py "产品代码", py "T05851")]
  /\ keyvalue_scan env (grid [["产品代码"%string; "T05851"%string]]) keywords
     = [(py "产品代码", py "T05851")]
  /\ keyvalue_scan env (grid [["产品代码"; EmptyString; "T05851"]%string]) keywords
     = [(py "产品代码", py "T05851")].
Proof.
  repeat match goal with |- _ /\ _ => split end.
  - intros df kws all field_name i j cell_value pattern patterns M B.
    simpl. now rewrite M, B.
  - intros df all i j cell_value. unfold locate_value.
    destruct (same_cell_value all cell_value); [reflexivity|].
    unfold right_value. simpl.
    destruct (j + 1 <? ncols df); [|reflexivity].
    match goal with |- context [if ?b then Some ?x else None] => destruct b end;
      reflexivity.
  - intros all cell_value v. unfold same_cell_value, accepted_same_cell. split.
    + destruct (has_char FWCOLON cell_value); [|discriminate].
      destruct (after FWCOLON cell_value) as [rest|] eqn:A; [|discriminate].
      apply after_spec in A as [label [-> Hn]].
      destruct (truthy (strip rest) && negb (eqb (strip rest) (py "nan"))
                && negb (is_header_keyword (strip rest) all)) eqn:Acc; [|discriminate].
      intros [= <-]. now exists label, rest.
    + intros [label [rest [-> [Hn [Acc ->]]]]].
      assert (H : has_char FWCOLON (label ++ FWCOLON :: rest) = true).
      { apply has_char_In. apply in_or_app. right. now left. }
      rewrite H.
      assert (A : after FWCOLON (label ++ FWCOLON :: rest) = Some rest).
      { apply after_spec. now exists label. }
      rewrite A. cbv zeta. now rewrite Acc.
  - intros df all i j offset v. unfold right_value, accepted_right. simpl.
    destruct (j + offset <? ncols df) eqn:L.
    + apply Nat.ltb_lt in L.
      match goal with |- context [if ?b then Some ?x else None] => destruct b end.
      * split; [intros [= <-]; auto | intros [_ [_ ->]]; reflexivity].
      * split; [discriminate | intros [_ [H _]]; discriminate].
    + apply Nat.ltb_ge in L. split; [discriminate | intros [H _]; lia].
  - intros. now apply locate_value_row_only.
  - eval_scan env.
  - eval_scan env.
  - eval_scan env.
  - eval_scan env.
Qed.

(* ================================================================== *)
(** * What a record can hold: invariants of the two paths *)
(* ================================================================== *)

(** a value that is empty or starts with a character that is not white
    space *)
Definition clean_head (v : str) : bool :=
  match v with
  | [] => true
  | c :: _ => negb (isspace c)
  end.

Lemma lstrip_clean_head (s : str) : clean_head (lstrip s) = true.
Proof.
  induction s as [|c s IH]; simpl; [reflexivity|].
  destruct (isspace c) eqn:E; [assumption|]. simpl. now rewrite E.
Qed.

Lemma lstrip_app_nonspace (l : str) (c : char) :
  isspace c = false -> lstrip (l ++ [c]) = lstrip l ++ [c].
Proof.
  intros Hc. induction l as [|x l IH]; simpl.
  - now rewrite Hc.
  - destruct (isspace x); [assumption | reflexivity].
Qed.

Lemma rstrip_cons_nonspace (c : char) (t : str) :
  isspace c = false -> rstrip (c :: t) = c :: rstrip t.
Proof.
  intros Hc. unfold rstrip. simpl.
  rewrite (lstrip_app_nonspace _ _ Hc), rev_app_distr. reflexivity.
Qed.

Lemma rstrip_clean_head (s : str) : clean_head s = true -> clean_head (rstrip s) = true.
Proof.
  destruct s as [|c t]; [reflexivity|]. simpl. intros Hc.
  apply negb_true_iff in Hc. rewrite (rstrip_cons_nonspace _ _ Hc). simpl.
  now rewrite Hc.
Qed.

Lemma strip_clean_head (s : str) : clean_head (strip s) = true.
Proof. unfold strip. apply rstrip_clean_head, lstrip_clean_head. Qed.

Lemma before_clean_head (c : char) (s : str) :
  clean_head s = true -> clean_head (before c s) = true.
Proof.
  destruct s as [|x s]; [reflexivity|]. simpl.
  destruct (x =? c)%N; [reflexivity | trivial].
Qed.

Lemma clean_value_clean_head (value : str) : clean_head (clean_value value) = true.
Proof.
  unfold clean_value. destruct (has_char UNDERSCORE (strip value)).
  - apply before_clean_head, strip_clean_head.
  - apply strip_clean_head.
Qed.

(** such a value, when it is not empty, is not blank *)
Lemma clean_head_not_blank (v : str) :
  clean_head v = true -> truthy v = true -> strip v <> [].
Proof.
  destruct v as [|c t]; [discriminate|]. simpl. intros Hc _.
  apply negb_true_iff in Hc. unfold strip. simpl. rewrite Hc.
  rewrite (rstrip_cons_nonspace _ _ Hc). discriminate.
Qed.

(** an entry of a record: the key is one of [K], the value came out of
    [clean_value] *)
Definition good_entry (K : str -> Prop) (kv : str * str) : Prop :=
  K (fst kv) /\ exists raw, snd kv = clean_value raw.

Definition good_record (K : str -> Prop) (r : record) : Prop :=
  Forall (good_entry K) r.

Lemma dict_set_good (K : str -> Prop) (r : record) (k v : str) :
  good_record K r -> K k -> (exists raw, v = clean_value raw) ->
  good_record K (dict_set r k v).
Proof.
  intros Hr Hk Hv. induction Hr as [|[k' v'] r Hkv Hr IH]; simpl.
  - constructor; [now split | constructor].
  - destruct (eqb k' k) eqn:E.
    + apply eqb_eq in E. subst k'. constructor; [now split | assumption].
    + constructor; assumption.
Qed.

Lemma dict_get_In {V} (d : dict V) (k : str) (v : V) :
  dict_get d k = Some v -> In (k, v) d.
Proof.
  induction d as [|[k' v'] d IH]; simpl; [discriminate|].
  destruct (eqb k' k) eqn:E.
  - apply eqb_eq in E. intros [= ->]. left. now subst.
  - intros H. right. now apply IH.
Qed.

Lemma dict_get_not_key {V} (d : dict V) (k : str) :
  ~ In k (map fst d) -> dict_get d k = None.
Proof.
  intros H. destruct (dict_get d k) as [v|] eqn:G; [|reflexivity].
  exfalso. apply H. apply dict_get_In in G.
  now apply (in_map fst) in G.
Qed.

Lemma first_some_Some {A B} (f : A -> option B) (l : list A) (b : B) :
  first_some f l = Some b -> exists a, In a l /\ f a = Some b.
Proof.
  induction l as [|a l IH]; simpl; [discriminate|].
  destruct (f a) as [b'|] eqn:E.
  - intros [= <-]. exists a. split; [now left | assumption].
  - intros H. destruct (IH H) as [a' [Hin Ha']]. exists a'. split; [now right | assumption].
Qed.

(** ** The table path *)

Lemma scan_columns_clean columns data_row pattern cols v :
  scan_columns columns data_row pattern cols = Ret (Some v) ->
  exists raw, v = clean_value raw.
Proof.
  induction cols as [|col cols IH]; simpl; [discriminate|].
  destruct (pattern_in pattern (squeeze col)); [|assumption].
  destruct (getitem columns data_row col) as [value|]; [|discriminate].
  destruct (value_present value); [|assumption].
  intros [= <-]. eauto.
Qed.

Lemma lookup_field_clean columns data_row patterns v :
  lookup_field columns data_row patterns = Ret (Some v) ->
  exists raw, v = clean_value raw.
Proof.
  induction patterns as [|pattern patterns IH]; simpl; [discriminate|].
  destruct (scan_columns columns data_row pattern columns) as [[v'|]|] eqn:E; simpl.
  - intros [= <-]. now apply scan_columns_clean in E.
  - assumption.
  - discriminate.
Qed.

Lemma extract_row_good (K : str -> Prop) columns data_row todo result r :
  (forall kv, In kv todo -> K (fst kv)) ->
  good_record K result ->
  extract_row columns data_row todo result = Ret r ->
  good_record K r.
Proof.
  revert result. induction todo as [|[field_name patterns] todo IH];
    intros result HK Hres; simpl.
  - now intros [= <-].
  - destruct (lookup_field columns data_row patterns) as [[v|]|] eqn:E; simpl.
    + apply IH; [intros kv Hkv; apply HK; now right|].
      apply dict_set_good; [assumption | apply (HK (field_name, patterns)); now left|].
      now apply lookup_field_clean in E.
    + apply IH; [intros kv Hkv; apply HK; now right | assumption].
    + discriminate.
Qed.

Lemma extract_rows_good (K : str -> Prop) columns kws rows results rs :
  (forall kv, In kv kws -> K (fst kv)) ->
  Forall (good_record K) results ->
  extract_rows columns kws rows results = Ret rs ->
  Forall (good_record K) rs.
Proof.
  intros HK. revert results. induction rows as [|data_row rows IH]; intros results Hres; simpl.
  - now intros [= <-].
  - destruct (forallb blank_cell data_row); [now apply IH|].
    destruct (extract_row columns data_row kws []) as [result|] eqn:E; simpl; [|discriminate].
    apply IH.
    match goal with |- context [if ?b then _ else _] => destruct b end; [|assumption].
    apply Forall_app. split; [assumption|]. constructor; [|constructor].
    eapply extract_row_good; [exact HK | constructor | exact E].
Qed.

Lemma extract_table_format_good (df : DataFrame) (kws : catalog) :
  Forall (good_record (fun k => In k (map fst kws)))
         (match extract_table_format df kws with Some rs => rs | None => [] end).
Proof.
  unfold extract_table_format.
  destruct (header_row_idx df kws) as [h|]; [|constructor].
  destruct (len df <=? h + 1); [constructor|].
  destruct (extract_rows _ kws _ []) as [[|r rs]|] eqn:E; try constructor.
  - apply (extract_rows_good (fun k => In k (map fst kws))) in E.
    + now inversion E.
    + intros kv Hkv. now apply in_map.
    + constructor.
  - apply (extract_rows_good (fun k => In k (map fst kws))) in E.
    + now inversion E.
    + intros kv Hkv. now apply in_map.
    + constructor.
Qed.

(** ** The key/value path *)

Lemma locate_value_clean df all i j cell_value v :
  locate_value df all i j cell_value = Some v -> exists raw, v = clean_value raw.
Proof.
  unfold locate_value, same_cell_value.
  destruct (has_char FWCOLON cell_value).
  - destruct (after FWCOLON cell_value) as [rest|].
    + cbv zeta.
      match goal with |- context [if ?b then Some ?x else None] => destruct b end.
      * intros [= <-]. eauto.
      * intros H. apply first_some_Some in H as [offset [_ H]].
        destruct (j + offset <? ncols df); [|discriminate]. cbv zeta in H.
        match type of H with context [if ?b then Some ?x else None] => destruct b end;
          [|discriminate].
        injection H as <-. eauto.
    + intros H. apply first_some_Some in H as [offset [_ H]].
      destruct (j + offset <? ncols df); [|discriminate]. cbv zeta in H.
      match type of H with context [if ?b then Some ?x else None] => destruct b end;
        [|discriminate].
      injection H as <-. eauto.
  - intros H. apply first_some_Some in H as [offset [_ H]].
    destruct (j + offset <? ncols df); [|discriminate]. cbv zeta in H.
    match type of H with context [if ?b then Some ?x else None] => destruct b end;
      [|discriminate].
    injection H as <-. eauto.
Qed.

Lemma scan_patterns_clean env df kws all field_name i j cell_value patterns v :
  scan_patterns env df kws all field_name i j cell_value patterns = Some v ->
  exists raw, v = clean_value raw.
Proof.
  induction patterns as [|pattern patterns IH]; simpl; [discriminate|].
  destruct (is_match env cell_value pattern); [|assumption].
  destruct (better_field_match kws field_name (cleaned cell_value) (cleaned pattern));
    [assumption|].
  apply locate_value_clean.
Qed.

Lemma scan_field_clean env df kws all field_name patterns v :
  scan_field env df kws all field_name patterns = Some v ->
  exists raw, v = clean_value raw.
Proof.
  unfold scan_field. intros H.
  apply first_some_Some in H as [i [_ H]].
  apply first_some_Some in H as [j [_ H]].
  unfold scan_cell in H. now apply scan_patterns_clean in H.
Qed.

Lemma scan_fields_good (K : str -> Prop) env df kws all todo result :
  (forall kv, In kv todo -> K (fst kv)) ->
  good_record K result ->
  good_record K (scan_fields env df kws all todo result).
Proof.
  revert result. induction todo as [|[field_name patterns] todo IH];
    intros result HK Hres; simpl; [assumption|].
  destruct (scan_field env df kws all field_name patterns) as [v|] eqn:E.
  - apply IH; [intros kv Hkv; apply HK; now right|].
    apply dict_set_good; [assumption | apply (HK (field_name, patterns)); now left|].
    now apply scan_field_clean in E.
  - apply IH; [intros kv Hkv; apply HK; now right | assumption].
Qed.

Lemma keyvalue_scan_good env (df : DataFrame) (kws : catalog) :
  good_record (fun k => In k (map fst kws)) (keyvalue_scan env df kws).
Proof.
  unfold keyvalue_scan. apply scan_fields_good; [|constructor].
  intros kv Hkv. now apply in_map.
Qed.

(** ** The orchestrator *)

(** the records an outcome carries; [None], the failure marker, carries none *)
Definition records_of (outcome : option (list record)) : list record :=
  match outcome with
  | Some results => results
  | None => []
  end.

(** the normalised records an outcome carries *)
Definition normalized_of (outcome : option (list (dict pyval))) : list (dict pyval) :=
  match outcome with
  | Some l => l
  | None => []
  end.

(** the key/value path's record, as the orchestrator returns it *)
Definition fallback_outcome (keyvalue : option record) : option (list record) :=
  match keyvalue with
  | Some result => if is_valid_result result then Some [result] else None
  | None => None
  end.

Lemma choose_path_eq (table : option (list record)) (keyvalue : unit -> option record) :
  choose_path table keyvalue =
  match filter is_valid_result (records_of table) with
  | [] => fallback_outcome (keyvalue tt)
  | valid_results => Some valid_results
  end.
Proof.
  unfold choose_path, fallback_outcome.
  destruct table as [[|r rs]|]; reflexivity.
Qed.

(** what the engine returns passed the validator and came from a path *)
Lemma extract_fund_data_smart_good env (df : DataFrame) :
  Forall (fun r => is_valid_result r = true
                   /\ good_record (fun k => In k (map fst keywords)) r)
         (records_of (extract_fund_data_smart env df)).
Proof.
  unfold extract_fund_data_smart. rewrite choose_path_eq.
  pose proof (extract_table_format_good df keywords) as Htab.
  fold (records_of (extract_table_format df keywords)) in Htab.
  destruct (filter is_valid_result (records_of (extract_table_format df keywords)))
    as [|r rs] eqn:F.
  - unfold fallback_outcome, extract_keyvalue_format.
    destruct (3 <=? length (keyvalue_scan env df keywords)); [|constructor].
    destruct (is_valid_result (keyvalue_scan env df keywords)) eqn:V; [|constructor].
    cbn [records_of]. constructor; [|constructor]. split; [assumption|].
    apply keyvalue_scan_good.
  - cbn [records_of]. rewrite <- F. apply Forall_forall. intros x Hx.
    apply filter_In in Hx as [Hin Hv]. split; [assumption|].
    rewrite Forall_forall in Htab. now apply Htab.
Qed.

(* ================================================================== *)
(** * The validator and the orchestrator *)
(* ================================================================== *)

(** the record carries a value for the field, and the value is not blank *)
Definition carries_nonblank (r : record) (field : str) : Prop :=
  exists v, dict_get r field = Some v /\ strip v <> [].

(** the field is missing from the record, or empty in it *)
Definition lacks (r : record) (field : str) : Prop :=
  dict_get r field = None \/ dict_get r field = Some [].

Lemma is_valid_result_fields (r : record) (field : str) :
  is_valid_result r = true -> In field required_fields ->
  exists v, dict_get r field = Some v /\ truthy v = true.
Proof.
  unfold is_valid_result. destruct r as [|kv r]; [discriminate|].
  rewrite forallb_forall. intros H Hin. specialize (H field Hin).
  destruct (dict_get (kv :: r) field) as [v|]; [|discriminate]. now exists v.
Qed.

Lemma valid_good_carries (K : str -> Prop) (r : record) (field : str) :
  is_valid_result r = true -> good_record K r -> In field required_fields ->
  carries_nonblank r field.
Proof.
  intros V G Hin. destruct (is_valid_result_fields r field V Hin) as [v [Hget Ht]].
  exists v. split; [assumption|].
  apply dict_get_In in Hget. unfold good_record in G. rewrite Forall_forall in G.
  destruct (G _ Hget) as [_ [raw Hraw]]. simpl in Hraw. subst v.
  apply clean_head_not_blank; [apply clean_value_clean_head | assumption].
Qed.

Lemma lacks_not_valid (r : record) (field : str) :
  In field required_fields -> lacks r field -> is_valid_result r = false.
Proof.
  intros Hin L. destruct (is_valid_result r) eqn:V; [|reflexivity].
  destruct (is_valid_result_fields r field V Hin) as [v [Hget Ht]].
  destruct L as [L|L]; rewrite L in Hget; [discriminate|].
  injection Hget as <-. discriminate.
Qed.

(** C2. Whatever the grid and whichever path produced it, every record the
    engine returns has a non-blank 产品代码 and a non-blank 单位净值 (after
    normalisation: the code as a non-blank string, the unit value as a number
    or a non-blank string); a candidate record in which either is missing or
    empty is not in the output, however many other fields it holds. *)
Theorem output_has_code_and_unit_value (env : PyEnv) (df : DataFrame) :
  Forall (fun r => carries_nonblank r (py "产品代码")
                   /\ carries_nonblank r (py "单位净值"))
         (records_of (extract_fund_data_smart env df))
  /\ Forall (fun n =>
               (exists v, dict_get n (py "产品代码") = Some (PStr v) /\ strip v <> [])
               /\ ((exists f, dict_get n (py "单位净值") = Some (PFloat f))
                   \/ (exists v, dict_get n (py "单位净值") = Some (PStr v)
                                 /\ strip v <> [])))
            (normalized_of (extract_and_normalize env df))
  /\ (forall r, lacks r (py "产品代码") \/ lacks r (py "单位净值") ->
                ~ In r (records_of (extract_fund_data_smart env df)))
  /\ (forall r, In r (records_of (extract_table_format df keywords)) ->
                is_valid_result r = false ->
                ~ In r (records_of (extract_fund_data_smart env df)))
  /\ (forall r, extract_keyvalue_format env df keywords = Some r ->
                is_valid_result r = false ->
                ~ In r (records_of (extract_fund_data_smart env df))).
Proof.
  pose proof (extract_fund_data_smart_good env df) as G.
  rewrite Forall_forall in G.
  assert (Hvalid : forall r, is_valid_result r = false ->
                             ~ In r (records_of (extract_fund_data_smart env df))).
  { intros r V Hin. destruct (G r Hin) as [V' _]. congruence. }
  assert (Hcarry : forall r, In r (records_of (extract_fund_data_smart env df)) ->
                             carries_nonblank r (py "产品代码")
                             /\ carries_nonblank r (py "单位净值")).
  { intros r Hin. destruct (G r Hin) as [V Hg].
    split; eapply valid_good_carries; try eassumption.
    + now left.
    + right. now left. }
  split; [|split; [|split; [|split]]].
  - apply Forall_forall. exact Hcarry.
  - assert (Hn : normalized_of (extract_and_normalize env df)
                 = map (normalized env) (records_of (extract_fund_data_smart env df))).
    { unfold extract_and_normalize.
      now destruct (extract_fund_data_smart env df) as [[|r rs]|]. }
    rewrite Hn. apply Forall_map, Forall_forall. intros r Hin.
    destruct (Hcarry r Hin) as [[v [Hv Hnb]] [u [Hu Hub]]]. split.
    + exists v. split; [|assumption].
      change (dict_get (normalized env r) (py "产品代码"))
        with (Some (of_option (dict_get r (py "产品代码")))).
      now rewrite Hv.
    + change (dict_get (normalized env r) (py "单位净值"))
        with (Some (convert_to_float env (dict_get r (py "单位净值")))).
      rewrite Hu. unfold convert_to_float.
      destruct (py_float env u) as [f|]; [left; now exists f | right; now exists u].
  - intros r [L|L]; apply Hvalid; eapply lacks_not_valid; try eassumption.
    + now left.
    + right. now left.
  - intros r _. apply Hvalid.
  - intros r _. apply Hvalid.
Qed.

(** C3. [extract] runs the table path first: when it yields at least one
    record that passes the validator, exactly those records are returned, in
    order, whatever the key/value path would give (it is not run); otherwise
    the key/value path gives at most one record, returned if it is valid;
    when neither path gives a valid record the outcome carries no record (the
    failure marker [None]). The function is total: what a path raises is
    caught inside the path and makes that path fail. *)
Theorem table_path_first (env : PyEnv) (df : DataFrame) :
  let table_valid :=
    filter is_valid_result (records_of (extract_table_format df keywords)) in
  let fallback := fallback_outcome (extract_keyvalue_format env df keywords) in
  extract_fund_data_smart env df
  = match table_valid with
    | [] => fallback
    | _ :: _ => Some table_valid
    end
  /\ (forall keyvalue : unit -> option record,
         table_valid <> [] ->
         choose_path (extract_table_format df keywords) keyvalue = Some table_valid)
  /\ length (records_of fallback) <= 1
  /\ (forall r, In r (records_of fallback) ->
                extract_keyvalue_format env df keywords = Some r
                /\ is_valid_result r = true)
  /\ (table_valid = [] -> fallback = None ->
      extract_fund_data_smart env df = None
      /\ records_of (extract_fund_data_smart env df) = [])
  /\ (extract_fund_data_smart env df = None
      \/ exists r rs, extract_fund_data_smart env df = Some (r :: rs)).
Proof.
  cbv zeta.
  assert (E : extract_fund_data_smart env df
              = match filter is_valid_result (records_of (extract_table_format df keywords)) with
                | [] => fallback_outcome (extract_keyvalue_format env df keywords)
                | _ :: _ =>
                    Some (filter is_valid_result (records_of (extract_table_format df keywords)))
                end).
  { unfold extract_fund_data_smart. rewrite choose_path_eq.
    now destruct (filter is_valid_result (records_of (extract_table_format df keywords))). }
  split; [exact E|]. split; [|split; [|split; [|split]]].
  - intros keyvalue Hne. rewrite choose_path_eq.
    destruct (filter is_valid_result (records_of (extract_table_format df keywords)));
      [contradiction | reflexivity].
  - unfold fallback_outcome.
    destruct (extract_keyvalue_format env df keywords) as [r|]; [|simpl; lia].
    destruct (is_valid_result r); simpl; lia.
  - intros r. unfold fallback_outcome.
    destruct (extract_keyvalue_format env df keywords) as [r'|]; [|intros []].
    destruct (is_valid_result r') eqn:V; [|intros []].
    intros [<-|[]]. now split.
  - intros Ht Hf. rewrite E, Ht, Hf. now split.
  - rewrite E.
    destruct (filter is_valid_result (records_of (extract_table_format df keywords)))
      as [|r rs].
    + unfold fallback_outcome.
      destruct (extract_keyvalue_format env df keywords) as [r|]; [|now left].
      destruct (is_valid_result r); [right; eauto | now left].
    + right. eauto.
Qed.

(* ================================================================== *)
(** * [extract_and_normalize]: the ancillary fields *)
(* ================================================================== *)

Definition ancillary_fields : list str :=
  [ py "客户名称"; py "参与计提份额"; py "计提频率"; py "虚拟计提业绩报酬金额";
    py "提取净值"; py "计提后虚拟净值" ].

Lemma not_catalog_key (field : str) :
  existsb (eqb field) (map fst keywords) = false -> ~ In field (map fst keywords).
Proof.
  intros H Hin. assert (existsb (eqb field) (map fst keywords) = true); [|congruence].
  apply existsb_exists. exists field. split; [assumption | apply eqb_refl].
Qed.

Lemma good_record_get_None (r : record) (field : str) :
  good_record (fun k => In k (map fst keywords)) r ->
  existsb (eqb field) (map fst keywords) = false ->
  dict_get r field = None.
Proof.
  intros G H. apply dict_get_not_key. intros Hin.
  apply in_map_iff in Hin as [kv [Hk Hkv]].
  unfold good_record in G. rewrite Forall_forall in G.
  destruct (G kv Hkv) as [HK _]. rewrite Hk in HK.
  now apply (not_catalog_key field H).
Qed.

Lemma normalized_ancillary (env : PyEnv) (data : record) :
  good_record (fun k => In k (map fst keywords)) data ->
  Forall (fun field => dict_get (normalized env data) field = Some PNone) ancillary_fields.
Proof.
  intros G.
  assert (H1 := good_record_get_None data (py "客户名称") G eq_refl).
  assert (H2 := good_record_get_None data (py "参与计提份额") G eq_refl).
  assert (H3 := good_record_get_None data (py "计提频率") G eq_refl).
  assert (H4 := good_record_get_None data (py "虚拟计提业绩报酬金额") G eq_refl).
  assert (H5 := good_record_get_None data (py "提取净值") G eq_refl).
  assert (H6 := good_record_get_None data (py "计提后虚拟净值") G eq_refl).
  unfold normalized, float_if_present. rewrite H1, H2, H3, H4, H5, H6.
  repeat constructor.
Qed.

(** C10. The engine only ever fills the 5 core fields: the keys of every
    extracted record are fields of the keyword catalog, which has no entry
    for 客户名称, 参与计提份额, 计提频率, 虚拟计提业绩报酬金额, 提取净值 and
    计提后虚拟净值; so in every record [extract_and_normalize] returns these
    six are None. *)
Theorem ancillary_fields_none (env : PyEnv) (df : DataFrame) :
  Forall (fun n => Forall (fun field => dict_get n field = Some PNone) ancillary_fields)
         (normalized_of (extract_and_normalize env df))
  /\ Forall (fun r => forall k, In k (map fst r) -> In k (map fst keywords))
            (records_of (extract_fund_data_smart env df))
  /\ map fst keywords
     = [py "产品名称"; py "产品代码"; py "单位净值"; py "累计单位净值"; py "净值日期"]
  /\ Forall (fun field => dict_get keywords field = None) ancillary_fields.
Proof.
  pose proof (extract_fund_data_smart_good env df) as G.
  split; [|split; [|split]].
  - unfold extract_and_normalize.
    destruct (extract_fund_data_smart env df) as [[|r rs]|]; try constructor.
    + apply normalized_ancillary. cbn [records_of] in G. inversion G as [|? ? [_ Hg] _]. exact Hg.
    + cbn [records_of] in G. inversion G as [|? ? _ G']. subst.
      apply Forall_map. eapply Forall_impl; [|exact G'].
      intros r' [_ Hg]. now apply normalized_ancillary.
  - eapply Forall_impl; [|exact G]. intros r [_ Hg] k Hk.
    apply in_map_iff in Hk as [kv [<- Hkv]].
    unfold good_record in Hg. rewrite Forall_forall in Hg. now destruct (Hg kv Hkv).
  - reflexivity.
  - repeat constructor.
Qed.

(* ================================================================== *)
(** * The table path: header detection *)
(* ================================================================== *)

(** a loop over [range(n)] left at the first index that passes the test *)
Lemma find_seq_Some (f : nat -> bool) (a n h : nat) :
  List.find f (seq a n) = Some h <->
  a <= h < a + n /\ f h = true /\ forall k, a <= k < h -> f k = false.
Proof.
  revert a; induction n as [|n IH]; intros a; simpl.
  - split; [discriminate | intros [H _]; lia].
  - destruct (f a) eqn:E.
    + split.
      * intros [= <-]. split; [lia|]. split; [assumption | intros k Hk; lia].
      * intros [Hr [Hf Hmin]]. f_equal.
        destruct (Nat.eq_dec a h) as [|Hne]; [assumption|].
        rewrite (Hmin a) in E; [discriminate | lia].
    + rewrite IH. split.
      * intros [Hr [Hf Hmin]]. split; [lia|]. split; [assumption|].
        intros k Hk. destruct (Nat.eq_dec k a) as [->|Hne]; [assumption|].
        apply Hmin. lia.
      * intros [Hr [Hf Hmin]].
        assert (a <> h) by (intros ->; congruence).
        split; [lia|]. split; [assumption|]. intros k Hk. apply Hmin. lia.
Qed.

Lemma find_seq_None (f : nat -> bool) (a n : nat) :
  List.find f (seq a n) = None <-> forall k, a <= k < a + n -> f k = false.
Proof.
  split.
  - intros H k Hk. apply (find_none _ _ H). apply in_seq. lia.
  - intros H. destruct (List.find f (seq a n)) as [h|] eqn:F; [|reflexivity].
    apply find_seq_Some in F as [Hr [Hf _]]. rewrite (H h Hr) in Hf. discriminate.
Qed.

Lemma find_ext_in {A} (f g : A -> bool) (l : list A) :
  (forall a, In a l -> f a = g a) -> List.find f l = List.find g l.
Proof.
  induction l as [|a l IH]; intros H; simpl; [reflexivity|].
  rewrite (H a (or_introl eq_refl)). rewrite IH; [reflexivity|].
  intros b Hb. apply H. now right.
Qed.

(** [squeeze] removes exactly the line breaks and the spaces *)
Lemma squeeze_filter (s : str) :
  squeeze s = filter (fun c => negb (c =? LF)%N && negb (c =? SPACE)%N) s.
Proof.
  unfold squeeze, replace. induction s as [|c s IH]; [reflexivity|].
  cbn [flat_map filter app]. destruct (c =? LF)%N eqn:E1.
  - cbn [app flat_map negb andb]. exact IH.
  - cbn [app flat_map negb andb]. destruct (c =? SPACE)%N eqn:E2.
    + cbn [app negb]. exact IH.
    + cbn [app negb]. f_equal. exact IH.
Qed.

(** [a] is an alias of [field] in the catalog *)
Definition alias_of (kws : catalog) (field alias : str) : Prop :=
  exists patterns, In (field, patterns) kws /\ In alias patterns.

Lemma NoDup_map_filter {A B} (g : A -> B) (f : A -> bool) (l : list A) :
  NoDup (map g l) -> NoDup (map g (filter f l)).
Proof.
  induction l as [|a l IH]; simpl; intros H; [constructor|].
  inversion H as [|? ? Hnin Hnd]; subst.
  destruct (f a); [|now apply IH]. simpl. constructor; [|now apply IH].
  intros Hin. apply Hnin. apply in_map_iff in Hin as [x [Hx Hin]].
  apply filter_In in Hin as [Hin _]. apply in_map_iff. now exists x.
Qed.

(** at least two entries of a catalog pass a test exactly when two entries
    with different field names do *)
Lemma two_fields (kws : catalog) (f : str * list str -> bool) :
  NoDup (map fst kws) ->
  2 <= length (filter f kws) <->
  exists kv1 kv2, In kv1 kws /\ In kv2 kws /\ fst kv1 <> fst kv2
                  /\ f kv1 = true /\ f kv2 = true.
Proof.
  intros Hnd. split.
  - intros Hlen. pose proof (NoDup_map_filter fst f kws Hnd) as Hnd'.
    destruct (filter f kws) as [|kv1 [|kv2 l]] eqn:F; simpl in Hlen; try lia.
    assert (H1 : In kv1 (filter f kws)) by (rewrite F; now left).
    assert (H2 : In kv2 (filter f kws)) by (rewrite F; right; now left).
    apply filter_In in H1 as [H1 Hf1]. apply filter_In in H2 as [H2 Hf2].
    exists kv1, kv2. repeat split; try assumption.
    simpl in Hnd'. inversion Hnd' as [|? ? Hnin _]; subst.
    intros E. apply Hnin. left. now symmetry.
  - intros [kv1 [kv2 [H1 [H2 [Hne [Hf1 Hf2]]]]]].
    assert (I1 : In kv1 (filter f kws)) by (apply filter_In; now split).
    assert (I2 : In kv2 (filter f kws)) by (apply filter_In; now split).
    destruct (filter f kws) as [|x [|y l]]; simpl; try lia.
    + destruct I1.
    + destruct I1 as [<-|[]]. destruct I2 as [<-|[]]. now contradiction Hne.
Qed.

Lemma field_in_row_spec (patterns cells : list str) :
  field_in_row patterns cells = true <->
  exists pattern cell, In pattern patterns /\ In cell cells
                       /\ pattern_in pattern cell = true.
Proof.
  unfold field_in_row. rewrite existsb_exists. split.
  - intros [pattern [Hp H]]. apply existsb_exists in H as [cell [Hc H]].
    now exists pattern, cell.
  - intros [pattern [cell [Hp [Hc H]]]]. exists pattern. split; [assumption|].
    apply existsb_exists. now exists cell.
Qed.

(** no alias of the catalog holds a space, so the second test of
    [pattern_in] repeats the first *)
Lemma keywords_pattern_in (field pattern cell : str) :
  alias_of keywords field pattern ->
  pattern_in pattern cell = true <-> substring pattern cell.
Proof.
  intros [patterns [Hf Hp]].
  assert (Hall : forallb (fun p => eqb (replace SPACE [] p) p) (all_keywords_of keywords) = true)
    by now vm_compute.
  rewrite forallb_forall in Hall.
  assert (E : replace SPACE [] pattern = pattern).
  { apply eqb_eq, Hall. unfold all_keywords_of. apply in_flat_map.
    now exists (field, patterns). }
  unfold pattern_in. rewrite E, orb_diag. apply contains_spec.
Qed.

Lemma keywords_NoDup : NoDup (map fst keywords).
Proof.
  assert (forall l : list str,
             (fix nodup (l : list str) : bool :=
                match l with
                | [] => true
                | x :: l' => negb (existsb (eqb x) l') && nodup l'
                end) l = true -> NoDup l) as H.
  { induction l as [|x l IH]; intros Hl; [constructor|].
    apply andb_true_iff in Hl as [Hx Hl]. constructor; [|now apply IH].
    intros Hin. apply negb_true_iff in Hx.
    assert (existsb (eqb x) l = true); [|congruence].
    apply existsb_exists. exists x. split; [assumption | apply eqb_refl]. }
  apply H. now vm_compute.
Qed.

(** the grid cut down to its first [n] rows *)
Definition head_rows (df : DataFrame) (n : nat) : DataFrame :=
  {| df_rows := firstn n (df_rows df); ncols := ncols df |}.

Lemma row_head_rows (df : DataFrame) (n i : nat) :
  i < n -> row (head_rows df n) i = row df i.
Proof.
  intros Hi. unfold row, iloc, head_rows. cbn [df_rows ncols].
  apply map_ext. intros j. rewrite nth_firstn.
  apply Nat.ltb_lt in Hi. now rewrite Hi.
Qed.

Lemma header_row_idx_head_rows (df : DataFrame) (kws : catalog) :
  header_row_idx (head_rows df 5) kws = header_row_idx df kws.
Proof.
  unfold header_row_idx.
  assert (L : Nat.min 5 (len (head_rows df 5)) = Nat.min 5 (len df)).
  { unfold len, head_rows. cbn [df_rows]. rewrite length_firstn. lia. }
  rewrite L. apply find_ext_in. intros i Hi. apply in_seq in Hi.
  unfold is_header_row, row_cleaned. rewrite row_head_rows; [reflexivity | lia].
Qed.

(** C5. Header detection looks at the first 5 rows only (at all of them if
    the grid has fewer) and takes the first row that qualifies; a row
    qualifies exactly when at least 2 distinct fields of the catalog have an
    alias that is a substring of some cell of the row, the cells taken with
    their line breaks and spaces removed. The one-cell grid "资产净值报告"
    matches one field only: it has no header row, the table path fails and
    the outcome is that of the key/value scan. *)
Theorem header_detection (env : PyEnv) :
  (forall df kws h,
      header_row_idx df kws = Some h <->
      h < 5 /\ h < len df /\ is_header_row kws df h = true
      /\ forall k, k < h -> is_header_row kws df k = false)
  /\ (forall df kws,
         header_row_idx df kws = None <->
         forall k, k < 5 -> k < len df -> is_header_row kws df k = false)
  /\ (forall df kws, header_row_idx (head_rows df 5) kws = header_row_idx df kws)
  /\ (forall df i,
         row_cleaned df i
         = map (fun v => filter (fun c => negb (c =? LF)%N && negb (c =? SPACE)%N)
                                (str_of v))
               (row df i))
  /\ (forall df i,
         is_header_row keywords df i = true <->
         exists field1 field2 alias1 alias2 cell1 cell2,
           field1 <> field2
           /\ alias_of keywords field1 alias1 /\ alias_of keywords field2 alias2
           /\ In cell1 (row_cleaned df i) /\ In cell2 (row_cleaned df i)
           /\ substring alias1 cell1 /\ substring alias2 cell2)
  /\ (let df := grid [["资产净值报告"%string]] in
      matched_field_count keywords (row_cleaned df 0) = 1
      /\ header_row_idx df keywords = None
      /\ extract_table_format df keywords = None
      /\ extract_fund_data_smart env df
         = fallback_outcome (extract_keyvalue_format env df keywords)).
Proof.
  split; [|split; [|split; [|split; [|split]]]].
  - intros df kws h. unfold header_row_idx. rewrite find_seq_Some. split.
    + intros [Hr [Hf Hmin]]. repeat split; try lia; try assumption.
      intros k Hk. apply Hmin. lia.
    + intros [H5 [Hl [Hf Hmin]]]. repeat split; try lia; try assumption.
      intros k Hk. apply Hmin. lia.
  - intros df kws. unfold header_row_idx. rewrite find_seq_None. split.
    + intros H k H5 Hl. apply H. lia.
    + intros H k Hk. apply H; lia.
  - intros. apply header_row_idx_head_rows.
  - intros df i. unfold row_cleaned. apply map_ext. intros v. apply squeeze_filter.
  - intros df i. unfold is_header_row, matched_field_count.
    rewrite Nat.leb_le, (two_fields _ _ keywords_NoDup). split.
    + intros [[field1 ps1] [[field2 ps2] [H1 [H2 [Hne [Hf1 Hf2]]]]]]. simpl in *.
      apply field_in_row_spec in Hf1 as [alias1 [cell1 [Ha1 [Hc1 Hp1]]]].
      apply field_in_row_spec in Hf2 as [alias2 [cell2 [Ha2 [Hc2 Hp2]]]].
      assert (A1 : alias_of keywords field1 alias1) by now exists ps1.
      assert (A2 : alias_of keywords field2 alias2) by now exists ps2.
      exists field1, field2, alias1, alias2, cell1, cell2.
      repeat split; try assumption.
      * now apply (keywords_pattern_in field1).
      * now apply (keywords_pattern_in field2).
    + intros [field1 [field2 [alias1 [alias2 [cell1 [cell2
             [Hne [A1 [A2 [Hc1 [Hc2 [S1 S2]]]]]]]]]]]].
      pose proof A1 as [ps1 [H1 Ha1]]. pose proof A2 as [ps2 [H2 Ha2]].
      exists (field1, ps1), (field2, ps2). simpl.
      repeat split; try assumption.
      * apply field_in_row_spec. exists alias1, cell1. repeat split; try assumption.
        now apply (keywords_pattern_in field1).
      * apply field_in_row_spec. exists alias2, cell2. repeat split; try assumption.
        now apply (keywords_pattern_in field2).
  - cbv zeta. split; [now vm_compute|]. split; [now vm_compute|].
    split; [now vm_compute|].
    unfold extract_fund_data_smart. rewrite choose_path_eq.
    assert (E : extract_table_format (grid [["资产净值报告"%string]]) keywords = None)
      by now vm_compute.
    now rewrite E.
Qed.

(* ================================================================== *)
(** * The table path: one record per qualifying row, in row order *)
(* ================================================================== *)

(** what one field adds to the record of a data row *)
Definition field_entry (columns : list str) (data_row : list cell)
    (kv : str * list str) : list (str * str) :=
  match lookup_field columns data_row (snd kv) with
  | Ret (Some v) => [(fst kv, v)]
  | _ => []
  end.

Definition field_raises (columns : list str) (data_row : list cell)
    (kv : str * list str) : bool :=
  match lookup_field columns data_row (snd kv) with
  | Raise => true
  | Ret _ => false
  end.

(** the record a data row contributes to [results], if any *)
Definition emitted_of (columns : list str) (kws : catalog) (data_row : list cell)
    : list record :=
  if forallb blank_cell data_row then []
  else match extract_row columns data_row kws [] with
       | Ret result => if 3 <=? length result then [result] else []
       | Raise => []
       end.

Definition row_raises (columns : list str) (kws : catalog) (data_row : list cell) : bool :=
  negb (forallb blank_cell data_row)
  && match extract_row columns data_row kws [] with
     | Raise => true
     | Ret _ => false
     end.

Lemma dict_set_fresh {V} (d : dict V) (k : str) (v : V) :
  ~ In k (map fst d) -> dict_set d k v = d ++ [(k, v)].
Proof.
  induction d as [|[k' v'] d IH]; simpl; intros H; [reflexivity|].
  destruct (eqb k' k) eqn:E.
  - apply eqb_eq in E. exfalso. apply H. now left.
  - rewrite IH; [reflexivity|]. intros Hin. apply H. now right.
Qed.

Lemma extract_row_spec columns data_row (todo : catalog) (result : record) :
  NoDup (map fst todo) ->
  (forall k, In k (map fst todo) -> ~ In k (map fst result)) ->
  extract_row columns data_row todo result =
  if existsb (field_raises columns data_row) todo then Raise
  else Ret (result ++ flat_map (field_entry columns data_row) todo).
Proof.
  revert result. induction todo as [|[field_name patterns] todo IH];
    intros result Hnd Hdis; simpl.
  - now rewrite app_nil_r.
  - inversion Hnd as [|? ? Hnin Hnd']; subst.
    unfold field_raises at 1, field_entry at 1. simpl.
    destruct (lookup_field columns data_row patterns) as [[v|]|]; simpl.
    + rewrite dict_set_fresh by (apply Hdis; now left).
      rewrite IH; [now rewrite <- app_assoc | assumption|].
      intros k Hk Hin. rewrite map_app in Hin. apply in_app_or in Hin as [Hin|Hin].
      * apply (Hdis k); [now right | assumption].
      * simpl in Hin. destruct Hin as [<-|[]]. contradiction.
    + apply IH; [assumption|]. intros k Hk. apply Hdis. now right.
    + reflexivity.
Qed.

Lemma extract_rows_spec columns kws rows (results : list record) :
  extract_rows columns kws rows results =
  if existsb (row_raises columns kws) rows then Raise
  else Ret (results ++ flat_map (emitted_of columns kws) rows).
Proof.
  revert results. induction rows as [|data_row rows IH]; intros results; simpl.
  - now rewrite app_nil_r.
  - unfold row_raises at 1, emitted_of at 1.
    destruct (forallb blank_cell data_row); simpl; [apply IH|].
    destruct (extract_row columns data_row kws []) as [result|]; simpl; [|reflexivity].
    rewrite IH. destruct (existsb (row_raises columns kws) rows); [reflexivity|].
    match goal with |- context [if ?b then _ else _] => destruct b end; simpl.
    + now rewrite <- app_assoc.
    + reflexivity.
Qed.

(** one data row whose lookup raises is enough for the path to return
    nothing *)
Lemma raising_row_fails_table (df : DataFrame) (kws : catalog) (h i : nat) :
  header_row_idx df kws = Some h -> h < i < len df ->
  row_raises (cleaned_headers df h) kws (row df i) = true ->
  extract_table_format df kws = None.
Proof.
  intros Hh Hi Hr. unfold extract_table_format. rewrite Hh.
  assert (L : (len df <=? h + 1) = false) by (apply Nat.leb_gt; lia). rewrite L.
  rewrite extract_rows_spec.
  assert (E : existsb (row_raises (cleaned_headers df h) kws) (data_rows df (h + 1))
              = true).
  { apply existsb_exists. exists (row df i). split; [|exact Hr].
    unfold data_rows. apply in_map. apply in_seq. lia. }
  now rewrite E.
Qed.

(** the grid of the multi-row example *)
Definition two_row_table : DataFrame :=
  grid [ ["基金代码"; "基金名称"; "净值日期"; "单位净值"; "累计单位净值"];
         ["ABC123"; "Test Fund"; "20250121"; "1.5000"; "1.5000"];
         ["ABC124"; "Test Fund 2"; "20250122"; "2.0000"; "2.0000"] ]%string.

Definition record_ABC123 : record :=
  [ (py "产品名称", py "Test Fund"); (py "产品代码", py "ABC123");
    (py "单位净值", py "1.5000"); (py "累计单位净值", py "1.5000");
    (py "净值日期", py "20250121") ].

Definition record_ABC124 : record :=
  [ (py "产品名称", py "Test Fund 2"); (py "产品代码", py "ABC124");
    (py "单位净值", py "2.0000"); (py "累计单位净值", py "2.0000");
    (py "净值日期", py "20250122") ].



(* ================================================================== *)
(** * [convert_to_float] *)
(* ================================================================== *)

Lemma to_ascii_keeps (env : PyEnv) (c : char) (s a : str) :
  (c <? 128)%N = true -> to_ascii env s = Some a -> In c s -> In c a.
Proof.
  intros Hc. revert a. induction s as [|x s IH]; intros a; simpl; [intros _ []|].
  destruct (ascii_char env x) as [y|] eqn:Ex; [|discriminate].
  destruct (to_ascii env s) as [r|]; [|discriminate].
  intros [= <-] [->|Hin]; [|right; now apply IH].
  unfold ascii_char in Ex. rewrite Hc in Ex. injection Ex as <-. now left.
Qed.

Lemma drop_underscores_keeps (c prev : char) (s b : str) :
  c <> UNDERSCORE -> drop_underscores prev s = Some b -> In c s -> In c b.
Proof.
  intros Hc. revert prev b. induction s as [|x s IH]; intros prev b; simpl.
  - intros _ [].
  - destruct (x =? UNDERSCORE)%N eqn:Ex.
    + apply N.eqb_eq in Ex. destruct (is_digit prev); [|discriminate].
      intros H [->|Hin]; [contradiction | now apply (IH x)].
    + destruct ((prev =? UNDERSCORE)%N && negb (is_digit x)); [discriminate|].
      destruct (drop_underscores x s) as [r|] eqn:D; [|discriminate].
      intros [= <-] [->|Hin]; [now left | right; now apply (IH x)].
Qed.

Lemma c_lstrip_keeps (c : char) (s : str) :
  c_isspace c = false -> In c s -> In c (c_lstrip s).
Proof.
  intros Hc. induction s as [|x s IH]; simpl; [intros []|].
  destruct (c_isspace x) eqn:Ex; [|trivial].
  intros [->|Hin]; [congruence | now apply IH].
Qed.

Lemma c_strip_keeps (c : char) (s : str) :
  c_isspace c = false -> In c s -> In c (c_strip s).
Proof.
  intros Hc Hin. unfold c_strip. apply in_rev. rewrite rev_involutive.
  apply c_lstrip_keeps; [assumption|]. apply -> in_rev.
  now apply c_lstrip_keeps.
Qed.

Lemma fstep_comma (st : fstate) : fstep st COMMA = None.
Proof. destruct st; reflexivity. Qed.

Lemma frun_comma (st : fstate) (s : str) : In COMMA s -> frun st s = None.
Proof.
  revert st. induction s as [|x s IH]; intros st; simpl; [intros []|].
  intros [->|Hin]; [now rewrite fstep_comma|].
  destruct (fstep st x); [now apply IH | reflexivity].
Qed.

Lemma float_body_comma (neg : bool) (s : str) : In COMMA s -> float_body neg s = None.
Proof.
  intros Hin. unfold float_body.
  assert (Hl : In COMMA (map ascii_lower s)).
  { apply in_map_iff. exists COMMA. now split. }
  assert (Hno : forall w, In w [py "inf"; py "infinity"; py "nan"] ->
                          eqb (map ascii_lower s) w = false).
  { intros w Hw. apply eqb_neq. intros E. rewrite E in Hl.
    assert (Hf : has_char COMMA w = false)
      by (destruct Hw as [<-|[<-|[<-|[]]]]; now vm_compute).
    apply has_char_In in Hl. congruence. }
  rewrite (Hno (py "inf")) by (now left).
  rewrite (Hno (py "infinity")) by (right; now left).
  rewrite (Hno (py "nan")) by (right; right; now left).
  cbn [orb]. now rewrite frun_comma.
Qed.

(** [float] refuses every string that holds a comma *)
Lemma py_float_comma (env : PyEnv) (s : str) :
  has_char COMMA s = true -> py_float env s = None.
Proof.
  intros H. apply has_char_In in H. unfold py_float.
  destruct (to_ascii env s) as [a|] eqn:A; [|reflexivity].
  assert (Ha : In COMMA a) by (eapply to_ascii_keeps; [reflexivity | exact A | exact H]).
  assert (Hb : forall b, (if has_char UNDERSCORE a then drop_underscores 0%N a else Some a)
                         = Some b -> In COMMA b).
  { intros b. destruct (has_char UNDERSCORE a).
    - intros D. eapply drop_underscores_keeps; [discriminate | exact D | exact Ha].
    - now intros [= <-]. }
  destruct (if has_char UNDERSCORE a then drop_underscores 0%N a else Some a) as [b|];
    [|reflexivity].
  specialize (Hb b eq_refl).
  assert (Hs : In COMMA (c_strip b)) by (apply c_strip_keeps; [reflexivity | assumption]).
  destruct (c_strip b) as [|c r]; [reflexivity|].
  destruct (is_minus c) eqn:Em.
  - apply float_body_comma. destruct Hs as [->|Hs]; [discriminate | assumption].
  - destruct (is_plus c) eqn:Ep.
    + apply float_body_comma. destruct Hs as [->|Hs]; [discriminate | assumption].
    + now apply float_body_comma.
Qed.

(** the thousands separator makes the coercion fail *)
Lemma thousands_separator_not_coerced :
  convert_to_float ascii_env (Some (py "1,234.56")) = PStr (py "1,234.56")
  /\ convert_to_float ascii_env (Some (py "1,234.56"))
     <> PFloat (nearest_double false 123456 (-2)).
Proof.
  split; [now vm_compute | vm_compute; discriminate].
Qed.

(** C8, as the code has it. [convert_to_float] hands its input to [float]:
    a string [float] reads becomes that number ("1234.56" becomes 1234.56);
    a string [float] refuses is returned unchanged, and so is every string
    with a thousands separator, as "1,234.56", because [float] refuses a
    comma; None is returned as None. Nothing is raised. *)
Theorem convert_to_float_amended (env : PyEnv) :
  (forall s, has_char COMMA s = true -> convert_to_float env (Some s) = PStr s)
  /\ (forall s, py_float env s = None -> convert_to_float env (Some s) = PStr s)
  /\ (forall s f, py_float env s = Some f -> convert_to_float env (Some s) = PFloat f)
  /\ convert_to_float env None = PNone
  /\ convert_to_float env (Some (py "1234.56")) = PFloat (nearest_double false 123456 (-2))
  /\ convert_to_float env (Some (py "1,234.56")) = PStr (py "1,234.56").
Proof.
  repeat match goal with |- _ /\ _ => split end.
  - intros s H. unfold convert_to_float. now rewrite (py_float_comma env s H).
  - intros s H. unfold convert_to_float. now rewrite H.
  - intros s f H. unfold convert_to_float. now rewrite H.
  - reflexivity.
  - destruct env. now vm_compute.
  - unfold convert_to_float. now rewrite py_float_comma.
Qed.

(* ================================================================== *)
(** * [normalize_date] *)
(* ================================================================== *)

(** a loop left at the first success: the first element, in the order of
    the list, on which [f] succeeds *)
Lemma first_some_first {A B} (f : A -> option B) (l : list A) (k : nat) (a : A) (b : B) :
  nth_error l k = Some a ->
  f a = Some b ->
  (forall k' a', k' < k -> nth_error l k' = Some a' -> f a' = None) ->
  first_some f l = Some b.
Proof.
  revert k. induction l as [|x l IH]; intros k Hk Hf Hmin.
  - destruct k; discriminate.
  - destruct k as [|k]; simpl in *.
    + injection Hk as ->. now rewrite Hf.
    + rewrite (Hmin 0 x) by (reflexivity || lia).
      apply (IH k); [assumption | assumption|].
      intros k' a' Hlt Hn. apply (Hmin (S k') a'); [lia | assumption].
Qed.

Lemma first_some_None {A B} (f : A -> option B) (l : list A) :
  first_some f l = None <-> forall a, In a l -> f a = None.
Proof.
  induction l as [|x l IH]; simpl.
  - split; [intros _ a [] | reflexivity].
  - destruct (f x) eqn:E.
    + split; [discriminate|]. intros H. rewrite (H x) in E; [discriminate | now left].
    + rewrite IH. split.
      * intros H a [<-|Hin]; [assumption | now apply H].
      * intros H a Hin. apply H. now right.
Qed.

Lemma lstrip_id (s : str) : clean_head s = true -> lstrip s = s.
Proof.
  destruct s as [|c s]; [reflexivity|]. simpl. intros H.
  apply negb_true_iff in H. now rewrite H.
Qed.

(** a string with no white space at either end is its own [strip()] *)
Lemma strip_id (s : str) :
  clean_head s = true -> clean_head (rev s) = true -> strip s = s.
Proof.
  intros H1 H2. unfold strip, rstrip.
  now rewrite (lstrip_id s H1), (lstrip_id (rev s) H2), rev_involutive.
Qed.

(** what [strptime] accepts is a date of the calendar *)
Lemma strptime_valid (env : PyEnv) (s : str) (fmt : list directive) (dt : date) :
  strptime env s fmt = Some dt ->
  (1 <= year dt <= 9999 /\ 1 <= month dt <= 12
   /\ 1 <= day dt <= days_in_month (year dt) (month dt))%N.
Proof.
  unfold strptime.
  destruct (regex_match env fmt s) as [[groups [|c r]]|]; try discriminate.
  destruct (valid_datetime _ _ _ _ _ _) eqn:V; [|discriminate].
  intros [= <-]. simpl. unfold valid_datetime in V.
  repeat (apply andb_true_iff in V as [V ?]).
  repeat match goal with H : (_ <=? _)%N = true |- _ => apply N.leb_le in H end.
  lia.
Qed.

(* ================================================================== *)
(** * [normalize_date] on the dates written in its four formats *)
(* ================================================================== *)

Ltac Zify.zify_post_hook ::= Z.to_euclidean_division_equations.

(** case analysis on a number with a literal bound in the context *)
Ltac cases_N m :=
  destruct m as [|m]; [try lia | repeat (destruct m as [m|m|]; try lia)].

Lemma digit_char_cases (n : N) :
  In (digit_char n) [48; 49; 50; 51; 52; 53; 54; 55; 56; 57]%N.
Proof.
  unfold digit_char. assert (H : (n mod 10 < 10)%N) by (apply N.mod_lt; lia).
  remember (n mod 10)%N as k eqn:E. clear E.
  cases_N k; simpl; tauto.
Qed.

Lemma digit_char_not_space (n : N) : isspace (digit_char n) = false.
Proof.
  pose proof (digit_char_cases n) as H. simpl in H.
  repeat (destruct H as [<-|H]; [reflexivity|]). destruct H.
Qed.

Lemma decimal_of_digit_char (env : PyEnv) (n : N) :
  decimal_of env (digit_char n) = Some (n mod 10)%N.
Proof.
  unfold decimal_of, digit_char, is_digit.
  assert (H : (n mod 10 < 10)%N) by (apply N.mod_lt; lia).
  assert (H1 : (48 + n mod 10 <? 128)%N = true) by (apply N.ltb_lt; lia).
  assert (H2 : (48 <=? 48 + n mod 10)%N = true) by (apply N.leb_le; lia).
  assert (H3 : (48 + n mod 10 <=? 57)%N = true) by (apply N.leb_le; lia).
  rewrite H1, H2, H3. cbn [andb]. f_equal. lia.
Qed.

Lemma cls_match_digit_char (env : PyEnv) (n : N) :
  cls_match env Dig (digit_char n) = true.
Proof. unfold cls_match. now rewrite decimal_of_digit_char. Qed.

Lemma int_of_four_digits (env : PyEnv) (y : N) :
  (y <= 9999)%N -> int_of env (four_digits y) = y.
Proof.
  intros H. unfold int_of, four_digits. cbn [fold_left].
  rewrite !decimal_of_digit_char. lia.
Qed.

Lemma int_of_two_digits (env : PyEnv) (n : N) :
  (n <= 99)%N -> int_of env (two_digits n) = n.
Proof.
  intros H. unfold int_of, two_digits. cbn [fold_left].
  rewrite !decimal_of_digit_char. lia.
Qed.

(** one step of the matcher, when the first way a directive can match is
    followed by a match of the rest of the format *)
Lemma regex_match_step (env : PyEnv) d fmt s t r groups rest :
  hd_error (candidates env d s) = Some (t, r) ->
  regex_match env fmt r = Some (groups, rest) ->
  regex_match env (d :: fmt) s = Some ((d, t) :: groups, rest).
Proof.
  intros Hc Hm. cbn [regex_match].
  destruct (candidates env d s) as [|tr more]; [discriminate|].
  injection Hc as ->. cbn [first_some fst snd]. now rewrite Hm.
Qed.

Lemma regex_match_single (env : PyEnv) d fmt s t r :
  candidates env d s = [(t, r)] ->
  regex_match env (d :: fmt) s
  = match regex_match env fmt r with
    | Some (groups, rest) => Some ((d, t) :: groups, rest)
    | None => None
    end.
Proof.
  intros Hc. cbn [regex_match]. rewrite Hc. cbn [first_some fst snd].
  now destruct (regex_match env fmt r) as [[groups rest]|].
Qed.

Lemma regex_match_stuck (env : PyEnv) d fmt s :
  candidates env d s = [] -> regex_match env (d :: fmt) s = None.
Proof. intros Hc. cbn [regex_match]. now rewrite Hc. Qed.

Lemma candidates_year (env : PyEnv) (y : N) (rest : str) :
  candidates env DY (four_digits y ++ rest) = [(four_digits y, rest)].
Proof.
  unfold candidates, alternatives, four_digits.
  cbn [flat_map app take_alt]. now rewrite !cls_match_digit_char.
Qed.

Lemma candidates_month (env : PyEnv) (m : N) (rest : str) :
  (1 <= m <= 12)%N ->
  hd_error (candidates env Dm (two_digits m ++ rest)) = Some (two_digits m, rest).
Proof. intros H. cases_N m; reflexivity. Qed.

Lemma candidates_day (env : PyEnv) (d : N) (rest : str) :
  (1 <= d <= 31)%N ->
  hd_error (candidates env Dd (two_digits d ++ rest)) = Some (two_digits d, rest).
Proof. intros H. cases_N d; reflexivity. Qed.

Lemma candidates_hour (env : PyEnv) (h : N) (rest : str) :
  (h <= 23)%N ->
  hd_error (candidates env DH (two_digits h ++ rest)) = Some (two_digits h, rest).
Proof. intros H. cases_N h; reflexivity. Qed.

Lemma candidates_minute (env : PyEnv) (m : N) (rest : str) :
  (m <= 59)%N ->
  hd_error (candidates env DM (two_digits m ++ rest)) = Some (two_digits m, rest).
Proof. intros H. cases_N m; reflexivity. Qed.

Lemma candidates_second (env : PyEnv) (s : N) (rest : str) :
  (s <= 59)%N ->
  hd_error (candidates env DS (two_digits s ++ rest)) = Some (two_digits s, rest).
Proof. intros H. cases_N s; reflexivity. Qed.

Lemma candidates_lit (env : PyEnv) (c : char) (rest : str) :
  candidates env (DLit c) (c :: rest) = [([c], rest)].
Proof.
  unfold candidates, alternatives. cbn [flat_map take_alt cls_match app].
  now rewrite N.eqb_refl.
Qed.

Lemma candidates_lit_other (env : PyEnv) (c c' : char) (rest : str) :
  c' <> c -> candidates env (DLit c) (c' :: rest) = [].
Proof.
  intros H. unfold candidates, alternatives. cbn [flat_map take_alt cls_match app].
  apply N.eqb_neq in H. now rewrite H.
Qed.

Lemma candidates_space (env : PyEnv) (n : N) (rest : str) :
  hd_error (candidates env DSpace (SPACE :: digit_char n :: rest))
  = Some ([SPACE], digit_char n :: rest).
Proof.
  unfold candidates. cbn [spaces]. rewrite digit_char_not_space.
  reflexivity.
Qed.

(** the date [y]-[m]-[d] in digits: YYYYMMDD, and YYYY-MM-DD or YYYY/MM/DD *)
Definition ymd (y m d : N) : str :=
  four_digits y ++ two_digits m ++ two_digits d.

Definition date_text (sep : char) (y m d : N) : str :=
  four_digits y ++ sep :: two_digits m ++ sep :: two_digits d.

(** the date and the time of day: YYYY-MM-DD HH:MM:SS *)
Definition datetime_text (y m d hh mi ss : N) : str :=
  four_digits y ++ DASH :: two_digits m ++ DASH :: two_digits d
  ++ SPACE :: two_digits hh ++ COLON :: two_digits mi ++ COLON :: two_digits ss.

(** a date of the calendar with a four-digit year *)
Definition calendar_date (y m d : N) : Prop :=
  (1000 <= y <= 9999 /\ 1 <= m <= 12 /\ 1 <= d <= days_in_month y m)%N.

Lemma days_in_month_le (y m : N) : (days_in_month y m <= 31)%N.
Proof.
  unfold days_in_month.
  destruct (m =? 2)%N; [destruct (is_leap y); lia|].
  destruct ((m =? 4) || (m =? 6) || (m =? 9) || (m =? 11))%N; lia.
Qed.

Lemma valid_datetime_true (y m d hh mi ss : N) :
  calendar_date y m d -> (hh <= 23)%N -> (mi <= 59)%N -> (ss <= 59)%N ->
  valid_datetime y m d hh mi ss = true.
Proof.
  intros [Hy [Hm Hd]] Hh Hi Hs. unfold valid_datetime.
  repeat (apply andb_true_iff; split); apply N.leb_le; lia.
Qed.

Lemma regex_compact (env : PyEnv) (y m d : N) (rest : str) :
  (1 <= m <= 12)%N -> (1 <= d <= 31)%N ->
  regex_match env [DY; Dm; Dd] (four_digits y ++ two_digits m ++ two_digits d ++ rest)
  = Some ([(DY, four_digits y); (Dm, two_digits m); (Dd, two_digits d)], rest).
Proof.
  intros Hm Hd.
  eapply regex_match_step; [now rewrite candidates_year|].
  eapply regex_match_step; [now apply candidates_month|].
  eapply regex_match_step; [now apply candidates_day | reflexivity].
Qed.

Lemma regex_separated (env : PyEnv) (sep : char) (y m d : N) (rest : str) :
  (1 <= m <= 12)%N -> (1 <= d <= 31)%N ->
  regex_match env [DY; DLit sep; Dm; DLit sep; Dd]
    (four_digits y ++ sep :: two_digits m ++ sep :: two_digits d ++ rest)
  = Some ([(DY, four_digits y); (DLit sep, [sep]); (Dm, two_digits m);
           (DLit sep, [sep]); (Dd, two_digits d)], rest).
Proof.
  intros Hm Hd.
  eapply regex_match_step; [now rewrite candidates_year|].
  eapply regex_match_step; [now rewrite candidates_lit|].
  eapply regex_match_step; [now apply candidates_month|].
  eapply regex_match_step; [now rewrite candidates_lit|].
  eapply regex_match_step; [now apply candidates_day | reflexivity].
Qed.

Lemma regex_datetime (env : PyEnv) (y m d hh mi ss : N) (rest : str) :
  (1 <= m <= 12)%N -> (1 <= d <= 31)%N ->
  (hh <= 23)%N -> (mi <= 59)%N -> (ss <= 59)%N ->
  regex_match env
    [DY; DLit DASH; Dm; DLit DASH; Dd; DSpace; DH; DLit COLON; DM; DLit COLON; DS]
    (four_digits y ++ DASH :: two_digits m ++ DASH :: two_digits d
     ++ SPACE :: two_digits hh ++ COLON :: two_digits mi ++ COLON :: two_digits ss ++ rest)
  = Some ([(DY, four_digits y); (DLit DASH, [DASH]); (Dm, two_digits m);
           (DLit DASH, [DASH]); (Dd, two_digits d); (DSpace, [SPACE]);
           (DH, two_digits hh); (DLit COLON, [COLON]); (DM, two_digits mi);
           (DLit COLON, [COLON]); (DS, two_digits ss)], rest).
Proof.
  intros Hm Hd Hh Hi Hs.
  eapply regex_match_step; [now rewrite candidates_year|].
  eapply regex_match_step; [now rewrite candidates_lit|].
  eapply regex_match_step; [now apply candidates_month|].
  eapply regex_match_step; [now rewrite candidates_lit|].
  eapply regex_match_step; [now apply candidates_day|].
  eapply regex_match_step; [apply candidates_space|].
  eapply regex_match_step; [now apply candidates_hour|].
  eapply regex_match_step; [now rewrite candidates_lit|].
  eapply regex_match_step; [now apply candidates_minute|].
  eapply regex_match_step; [now rewrite candidates_lit|].
  eapply regex_match_step; [now apply candidates_second | reflexivity].
Qed.

(** the compact format stops at a separator after the year *)
Lemma strptime_compact_stuck (env : PyEnv) (sep : char) (y : N) (rest : str) :
  sep = DASH \/ sep = SLASH ->
  strptime env (four_digits y ++ sep :: rest) [DY; Dm; Dd] = None.
Proof.
  intros Hsep. unfold strptime.
  rewrite (regex_match_single env DY [Dm; Dd] _ (four_digits y) (sep :: rest)
             (candidates_year env y (sep :: rest))).
  rewrite regex_match_stuck; [reflexivity|].
  destruct Hsep as [->| ->]; reflexivity.
Qed.

(** a format with the other separator stops after the year as well *)
Lemma strptime_other_separator (env : PyEnv) (sep sep' : char) (y : N) (rest : str) fmt :
  sep' <> sep ->
  strptime env (four_digits y ++ sep' :: rest) (DY :: DLit sep :: fmt) = None.
Proof.
  intros Hne. unfold strptime.
  rewrite (regex_match_single env DY (DLit sep :: fmt) _ (four_digits y) (sep' :: rest)
             (candidates_year env y (sep' :: rest))).
  rewrite regex_match_stuck; [reflexivity|].
  now apply candidates_lit_other.
Qed.

Lemma normalize_date_nonempty (env : PyEnv) (raw : str) :
  raw <> [] ->
  normalize_date env (Some raw)
  = match first_some (strptime env (strip raw)) formats with
    | Some dt => PStr (strftime_Ymd env dt)
    | None => PStr (strip raw)
    end.
Proof. destruct raw; [contradiction | reflexivity]. Qed.

(** a string that starts and ends with a digit is its own [strip()] *)
Lemma strip_digits (n n' : N) (s : str) :
  strip (digit_char n :: s ++ [digit_char n']) = digit_char n :: s ++ [digit_char n'].
Proof.
  apply strip_id.
  - cbn [clean_head]. now rewrite digit_char_not_space.
  - change (digit_char n :: s ++ [digit_char n'])
      with ((digit_char n :: s) ++ [digit_char n']).
    rewrite rev_app_distr. cbn [rev app clean_head].
    now rewrite digit_char_not_space.
Qed.

Lemma strftime_Ymd_ymd (env : PyEnv) (y m d : N) :
  (1000 <= y)%N ->
  strftime_Ymd env {| year := y; month := m; day := d |} = ymd y m d.
Proof.
  intros H. unfold strftime_Ymd, ymd. cbn [year month day].
  apply N.leb_le in H. now rewrite H.
Qed.

Lemma strptime_ymd (env : PyEnv) (y m d : N) :
  calendar_date y m d ->
  strptime env (ymd y m d) [DY; Dm; Dd] = Some {| year := y; month := m; day := d |}.
Proof.
  intros C. pose proof C as [Hy [Hm Hd]]. pose proof (days_in_month_le y m).
  unfold strptime, ymd. rewrite <- (app_nil_r (two_digits d)).
  rewrite regex_compact by lia. cbn [group same_directive].
  rewrite int_of_four_digits, !int_of_two_digits by lia.
  now rewrite valid_datetime_true by (assumption || lia).
Qed.

Lemma strptime_date_text (env : PyEnv) (sep : char) (y m d : N) :
  calendar_date y m d ->
  strptime env (date_text sep y m d) [DY; DLit sep; Dm; DLit sep; Dd]
  = Some {| year := y; month := m; day := d |}.
Proof.
  intros C. pose proof C as [Hy [Hm Hd]]. pose proof (days_in_month_le y m).
  unfold strptime, date_text. rewrite <- (app_nil_r (two_digits d)).
  rewrite regex_separated by lia. cbn [group same_directive].
  rewrite int_of_four_digits, !int_of_two_digits by lia.
  now rewrite valid_datetime_true by (assumption || lia).
Qed.

Lemma strptime_datetime_text (env : PyEnv) (y m d hh mi ss : N) :
  calendar_date y m d -> (hh <= 23)%N -> (mi <= 59)%N -> (ss <= 59)%N ->
  strptime env (datetime_text y m d hh mi ss)
    [DY; DLit DASH; Dm; DLit DASH; Dd; DSpace; DH; DLit COLON; DM; DLit COLON; DS]
  = Some {| year := y; month := m; day := d |}.
Proof.
  intros C Hh Hi Hs. pose proof C as [Hy [Hm Hd]]. pose proof (days_in_month_le y m).
  unfold strptime, datetime_text. rewrite <- (app_nil_r (two_digits ss)).
  rewrite regex_datetime by lia. cbn [group same_directive].
  rewrite int_of_four_digits, !int_of_two_digits by lia.
  now rewrite valid_datetime_true by (assumption || lia).
Qed.

(** the date-only format leaves the time of day unread *)
Lemma strptime_date_of_datetime (env : PyEnv) (y m d hh mi ss : N) :
  (1 <= m <= 12)%N -> (1 <= d <= 31)%N ->
  strptime env (datetime_text y m d hh mi ss) [DY; DLit DASH; Dm; DLit DASH; Dd] = None.
Proof.
  intros Hm Hd. unfold strptime, datetime_text.
  now rewrite regex_separated by lia.
Qed.

(** every date of the calendar with a four-digit year, written in any of
    the four formats, is normalised to its YYYYMMDD form *)
Lemma normalize_date_written (env : PyEnv) (y m d hh mi ss : N) :
  calendar_date y m d -> (hh <= 23)%N -> (mi <= 59)%N -> (ss <= 59)%N ->
  normalize_date env (Some (ymd y m d)) = PStr (ymd y m d)
  /\ normalize_date env (Some (date_text DASH y m d)) = PStr (ymd y m d)
  /\ normalize_date env (Some (date_text SLASH y m d)) = PStr (ymd y m d)
  /\ normalize_date env (Some (datetime_text y m d hh mi ss)) = PStr (ymd y m d).
Proof.
  intros C Hh Hi Hs. pose proof C as [Hy [Hm Hd]]. pose proof (days_in_month_le y m).
  assert (S1 : strip (ymd y m d) = ymd y m d)
    by exact (strip_digits (y / 1000) d
                [digit_char (y / 100); digit_char (y / 10); digit_char y;
                 digit_char (m / 10); digit_char m; digit_char (d / 10)]).
  assert (S2 : forall sep, strip (date_text sep y m d) = date_text sep y m d)
    by (intros sep;
        exact (strip_digits (y / 1000) d
                 [digit_char (y / 100); digit_char (y / 10); digit_char y; sep;
                  digit_char (m / 10); digit_char m; sep; digit_char (d / 10)])).
  assert (S3 : strip (datetime_text y m d hh mi ss) = datetime_text y m d hh mi ss)
    by exact (strip_digits (y / 1000) ss
                [digit_char (y / 100); digit_char (y / 10); digit_char y; DASH;
                 digit_char (m / 10); digit_char m; DASH;
                 digit_char (d / 10); digit_char d; SPACE;
                 digit_char (hh / 10); digit_char hh; COLON;
                 digit_char (mi / 10); digit_char mi; COLON; digit_char (ss / 10)]).
  repeat split.
  - rewrite normalize_date_nonempty by discriminate. rewrite S1.
    unfold formats. cbn [first_some]. rewrite strptime_ymd by assumption.
    now rewrite strftime_Ymd_ymd by lia.
  - rewrite normalize_date_nonempty by discriminate. rewrite S2.
    unfold formats. cbn [first_some].
    unfold date_text at 1. rewrite strptime_compact_stuck by (now left).
    rewrite strptime_date_text by assumption.
    now rewrite strftime_Ymd_ymd by lia.
  - rewrite normalize_date_nonempty by discriminate. rewrite S2.
    unfold formats. cbn [first_some].
    unfold date_text at 1. rewrite strptime_compact_stuck by (now right).
    unfold date_text at 1. rewrite strptime_other_separator by discriminate.
    rewrite strptime_date_text by assumption.
    now rewrite strftime_Ymd_ymd by lia.
  - rewrite normalize_date_nonempty by discriminate. rewrite S3.
    unfold formats. cbn [first_some].
    unfold datetime_text at 1. rewrite strptime_compact_stuck by (now left).
    rewrite strptime_date_of_datetime by lia.
    unfold datetime_text at 1. rewrite strptime_other_separator by discriminate.
    rewrite strptime_datetime_text by assumption.
    now rewrite strftime_Ymd_ymd by lia.
Qed.

(* ================================================================== *)
(** * [normalize_date]: the claim *)
(* ================================================================== *)

(** an unparsed date comes back stripped, not as it was given *)
Lemma normalize_date_strips_unparsed :
  first_some (strptime ascii_env (py " x")) formats = None
  /\ first_some (strptime ascii_env (strip (py " x"))) formats = None
  /\ normalize_date ascii_env (Some (py " x")) = PStr (py "x")
  /\ normalize_date ascii_env (Some (py " x")) <> PStr (py " x")
  /\ normalize_date ascii_env (Some []) <> PStr [].
Proof.
  repeat split; try (now vm_compute); vm_compute; discriminate.
Qed.

(** C7, as the code has it. [normalize_date] strips the string and tries
    the formats YYYYMMDD, YYYY-MM-DD, YYYY/MM/DD and YYYY-MM-DD HH:MM:SS in
    this order; the first that parses gives the result, written with
    [strftime('%Y%m%d')] (8 digits for a year from 1000 on), so "2024/01/30",
    "20240130" and "2024-01-30 00:00:00" all give "20240130", and so does
    every calendar date with a four-digit year written in these forms. When every
    format fails on a non-empty input the result is the input stripped of
    the white space around it (the input itself when it has none); the
    empty string and None give None. Nothing is raised. *)
Theorem normalize_date_amended (env : PyEnv) :
  formats
  = [ [DY; Dm; Dd];
      [DY; DLit DASH; Dm; DLit DASH; Dd];
      [DY; DLit SLASH; Dm; DLit SLASH; Dd];
      [DY; DLit DASH; Dm; DLit DASH; Dd; DSpace; DH; DLit COLON; DM; DLit COLON; DS] ]
  /\ (normalize_date env (Some (py "2024/01/30")) = PStr (py "20240130")
      /\ normalize_date env (Some (py "20240130")) = PStr (py "20240130")
      /\ normalize_date env (Some (py "2024-01-30 00:00:00")) = PStr (py "20240130"))
  /\ (forall y m d hh mi ss,
         calendar_date y m d -> (hh <= 23)%N -> (mi <= 59)%N -> (ss <= 59)%N ->
         normalize_date env (Some (ymd y m d)) = PStr (ymd y m d)
         /\ normalize_date env (Some (date_text DASH y m d)) = PStr (ymd y m d)
         /\ normalize_date env (Some (date_text SLASH y m d)) = PStr (ymd y m d)
         /\ normalize_date env (Some (datetime_text y m d hh mi ss)) = PStr (ymd y m d))
  /\ (forall raw k fmt dt,
         raw <> [] ->
         nth_error formats k = Some fmt ->
         strptime env (strip raw) fmt = Some dt ->
         (forall k' fmt', k' < k -> nth_error formats k' = Some fmt' ->
                          strptime env (strip raw) fmt' = None) ->
         normalize_date env (Some raw) = PStr (strftime_Ymd env dt))
  /\ (forall s fmt dt,
         strptime env s fmt = Some dt ->
         (1000 <= year dt)%N ->
         strftime_Ymd env dt
         = four_digits (year dt) ++ two_digits (month dt) ++ two_digits (day dt)
         /\ length (strftime_Ymd env dt) = 8
         /\ (year dt <= 9999 /\ 1 <= month dt <= 12 /\ 1 <= day dt <= 31)%N)
  /\ (forall raw,
         raw <> [] ->
         (forall fmt, In fmt formats -> strptime env (strip raw) fmt = None) ->
         normalize_date env (Some raw) = PStr (strip raw)
         /\ (clean_head raw = true -> clean_head (rev raw) = true ->
             normalize_date env (Some raw) = PStr raw))
  /\ normalize_date env (Some []) = PNone
  /\ normalize_date env None = PNone.
Proof.
  split; [reflexivity|]. split; [|split; [|split; [|split; [|split; [|split]]]]].
  - destruct env. repeat split; now vm_compute.
  - intros y m d hh mi ss. apply normalize_date_written.
  - intros raw k fmt dt Hne Hk Hp Hmin.
    destruct raw as [|c raw]; [contradiction|]. unfold normalize_date.
    now rewrite (first_some_first (strptime env (strip (c :: raw))) formats k fmt dt Hk Hp Hmin).
  - intros s fmt dt Hp Hy. pose proof (strptime_valid env s fmt dt Hp) as [Hyr [Hm Hd]].
    assert (E : strftime_Ymd env dt
                = four_digits (year dt) ++ two_digits (month dt) ++ two_digits (day dt)).
    { unfold strftime_Ymd. apply N.leb_le in Hy. now rewrite Hy. }
    split; [exact E|]. split; [now rewrite E|].
    assert (days_in_month (year dt) (month dt) <= 31)%N.
    { unfold days_in_month.
      destruct (month dt =? 2)%N; [destruct (is_leap (year dt)); lia|].
      destruct ((month dt =? 4) || (month dt =? 6) || (month dt =? 9)
                || (month dt =? 11))%N; lia. }
    lia.
  - intros raw Hne Hall. destruct raw as [|c raw]; [contradiction|].
    assert (E : normalize_date env (Some (c :: raw)) = PStr (strip (c :: raw))).
    { unfold normalize_date.
      now rewrite (proj2 (first_some_None (strptime env (strip (c :: raw))) formats) Hall). }
    split; [exact E|]. intros H1 H2. now rewrite E, (strip_id (c :: raw) H1 H2).
  - reflexivity.
  - reflexivity.
Qed.

(* ================================================================== *)
(** * A header label that occurs twice *)
(* ================================================================== *)

(** the scan of the columns for [pattern] comes to a doubled label: a label
    that holds the pattern and heads several columns, while no column
    before it gives a value under the pattern *)
Definition reaches_doubled (columns : list str) (data_row : list cell)
    (pattern : str) : Prop :=
  exists pre col post,
    columns = pre ++ col :: post
    /\ pattern_in pattern (squeeze col) = true
    /\ length (filter (eqb col) columns) <> 1
    /\ forall c v, In c pre -> pattern_in pattern (squeeze c) = true ->
                   getitem columns data_row c = Scalar v -> value_present v = false.

Lemma scan_columns_raises (columns : list str) (data_row : list cell)
    (pattern : str) (cols : list str) :
  scan_columns columns data_row pattern cols = Raise <->
  exists pre col post,
    cols = pre ++ col :: post
    /\ pattern_in pattern (squeeze col) = true
    /\ length (filter (eqb col) columns) <> 1
    /\ forall c v, In c pre -> pattern_in pattern (squeeze c) = true ->
                   getitem columns data_row c = Scalar v -> value_present v = false.
Proof.
  split.
  - induction cols as [|c cols IH]; simpl; [discriminate|].
    destruct (pattern_in pattern (squeeze c)) eqn:P.
    + destruct (getitem columns data_row c) as [v|] eqn:G.
      * destruct (value_present v) eqn:V; [discriminate|]. intros H.
        destruct (IH H) as [pre [col [post [E [Hp [Hn Hpre]]]]]].
        exists (c :: pre), col, post. rewrite E. repeat split; try assumption.
        intros c' v' [<-|Hin] Hc' Hg; [|now apply (Hpre c')].
        rewrite G in Hg. now injection Hg as <-.
      * intros _. exists [], c, cols. repeat split; try assumption.
        -- unfold getitem in G. intros Hn. rewrite Hn in G. discriminate.
        -- intros c' v' [].
    + intros H. destruct (IH H) as [pre [col [post [E [Hp [Hn Hpre]]]]]].
      exists (c :: pre), col, post. rewrite E. repeat split; try assumption.
      intros c' v' [<-|Hin] Hc' Hg; [congruence | now apply (Hpre c')].
  - intros [pre [col [post [E [Hp [Hn Hpre]]]]]]. subst cols.
    induction pre as [|c pre IH]; simpl.
    + rewrite Hp. unfold getitem. apply Nat.eqb_neq in Hn. now rewrite Hn.
    + destruct (pattern_in pattern (squeeze c)) eqn:P.
      * destruct (getitem columns data_row c) as [v|] eqn:G; [|reflexivity].
        rewrite (Hpre c v (or_introl eq_refl) P G).
        apply IH. intros c' v' Hin. apply Hpre. now right.
      * apply IH. intros c' v' Hin. apply Hpre. now right.
Qed.

Lemma lookup_field_raises (columns : list str) (data_row : list cell)
    (earlier : list str) (pattern : str) (later : list str) :
  (forall p v, In p earlier ->
               scan_columns columns data_row p columns <> Ret (Some v)) ->
  scan_columns columns data_row pattern columns = Raise ->
  lookup_field columns data_row (earlier ++ pattern :: later) = Raise.
Proof.
  intros Hearlier Hr. induction earlier as [|p earlier IH]; simpl.
  - now rewrite Hr.
  - destruct (scan_columns columns data_row p columns) as [[v|]|] eqn:S; simpl.
    + exfalso. apply (Hearlier p v); [now left | exact S].
    + apply IH. intros p' v' Hin. apply Hearlier. now right.
    + reflexivity.
Qed.

(** X1. [data_row[col]] is a Series when the label [col] heads several
    columns, and its truth value raises. So when, in a data row that is not
    blank, the lookup of a field comes to such a label (the label holds the
    alias being tried, no alias tried before it gave the field a value, and
    no column before it gives a value under this alias), the lookup raises;
    the table path catches it and returns nothing, whatever the other rows
    hold, and the key/value scan answers instead. *)
Theorem doubled_label_fails_table_path (env : PyEnv) (df : DataFrame) (h i : nat)
    (field : str) (earlier : list str) (pattern : str) (later : list str) :
  header_row_idx df keywords = Some h ->
  h < i < len df ->
  forallb blank_cell (row df i) = false ->
  In (field, earlier ++ pattern :: later) keywords ->
  (forall p v, In p earlier ->
               scan_columns (cleaned_headers df h) (row df i) p (cleaned_headers df h)
               <> Ret (Some v)) ->
  reaches_doubled (cleaned_headers df h) (row df i) pattern ->
  lookup_field (cleaned_headers df h) (row df i) (earlier ++ pattern :: later) = Raise
  /\ extract_row (cleaned_headers df h) (row df i) keywords [] = Raise
  /\ extract_table_format df keywords = None
  /\ extract_fund_data_smart env df
     = fallback_outcome (extract_keyvalue_format env df keywords).
Proof.
  intros Hh Hi Hb Hin Hearlier Hd.
  assert (L : lookup_field (cleaned_headers df h) (row df i)
                (earlier ++ pattern :: later) = Raise).
  { apply lookup_field_raises; [exact Hearlier|].
    apply scan_columns_raises. exact Hd. }
  assert (R : extract_row (cleaned_headers df h) (row df i) keywords [] = Raise).
  { rewrite extract_row_spec; [|apply keywords_NoDup | intros k _ []].
    assert (E : existsb (field_raises (cleaned_headers df h) (row df i)) keywords
                = true).
    { apply existsb_exists. exists (field, earlier ++ pattern :: later).
      split; [exact Hin|]. unfold field_raises. cbn [snd]. now rewrite L. }
    now rewrite E. }
  assert (T : extract_table_format df keywords = None).
  { apply (raising_row_fails_table df keywords h i Hh Hi).
    unfold row_raises. now rewrite Hb, R. }
  repeat split; try assumption.
  unfold extract_fund_data_smart. now rewrite choose_path_eq, T.
Qed.

(** the code column is doubled: the alias 产品代码 finds no column, and the
    alias 基金代码 comes to the doubled label *)
Lemma doubled_label_fails_table_path_witness :
  let df := grid [ ["基金代码"; "基金代码"; "基金名称"; "单位净值"; "净值日期"];
                   ["ABC123"; "ABC123"; "Test Fund"; "1.5000"; "20250121"] ]%string in
  lookup_field (cleaned_headers df 0) (row df 1)
    ([py "产品代码"] ++ py "基金代码"
       :: [py "资产代码"; py "代码"; py "协会备案编码"; py "协会备案代码";
           py "FundFillingCode"]) = Raise
  /\ extract_row (cleaned_headers df 0) (row df 1) keywords [] = Raise
  /\ extract_table_format df keywords = None
  /\ extract_fund_data_smart ascii_env df
     = fallback_outcome (extract_keyvalue_format ascii_env df keywords).
Proof.
  cbv zeta.
  apply (doubled_label_fails_table_path ascii_env _ 0 1 (py "产品代码")).
  - reflexivity.
  - split; [lia | vm_compute; lia].
  - reflexivity.
  - right. left. reflexivity.
  - intros p v [<-|[]]. vm_compute. discriminate.
  - exists [], (py "基金代码"),
      [py "基金代码"; py "基金名称"; py "单位净值"; py "净值日期"].
    split; [reflexivity|]. split; [reflexivity|].
    split; [vm_compute; discriminate | intros c v []].
Defined.

(** a doubled label the lookups do not come to: 基金代码 gives the code
    before the alias 代码 is tried, and the row's record is returned *)
Example doubled_label_out_of_reach :
  extract_table_format
    (grid [ ["基金代码"; "代码X"; "代码X"; "基金名称"; "单位净值"];
            ["ABC123"; "u"; "v"; "Test Fund"; "1.5000"] ]%string) keywords
  = Some [[ (py "产品名称", py "Test Fund"); (py "产品代码", py "ABC123");
            (py "单位净值", py "1.5000") ]].
Proof. now vm_compute. Qed.

(* ================================================================== *)
(** * The grids of the repository's test scripts *)
(* ================================================================== *)

Lemma extract_and_normalize_cjk_closed (env : PyEnv) (df : DataFrame) :
  extract_and_normalize env df = extract_and_normalize (cjk_closed env) df.
Proof.
  unfold extract_and_normalize. rewrite <- extract_fund_data_smart_cjk_closed.
  reflexivity.
Qed.

Ltac eval_normalize env :=
  rewrite (extract_and_normalize_cjk_closed env); destruct env; vm_compute; reflexivity.

(** the grid of [test_extractor_fix.py], test 2: a table whose header cells
    hold line breaks *)
Definition liwu : DataFrame :=
  {| df_rows :=
       [ [ Val (py "日期" ++ LF :: py "（NAV As Of Date）");
           Val (py "产品名称" ++ LF :: py "（Fund Name）");
           Val (py "单位净值" ++ LF :: py "（NAV/Share）");
           Val (py "累计单位净值" ++ LF :: py "（Accumulated NAV/Share）");
           Val (py "协会备案编码" ++ LF :: py "（Fund Filling Code）") ];
         [ Val (py "2025-09-26"); Val (py "利幄全天候1号私募证券投资基金");
           Val (py "1.5809"); Val (py "1.5809"); Val (py "SB6346") ] ];
     ncols := 5 |}.

(** On the grid of [test_extractor_fix.py], test 2, the header cells are
    matched through their line breaks and [extract_and_normalize] returns
    the one record of the data row, its date as 20250926 and its two values
    as numbers. *)
Example liwu_extracted (env : PyEnv) :
  extract_and_normalize env liwu
  = Some [ [ (py "产品名称", PStr (py "利幄全天候1号私募证券投资基金"));
             (py "产品代码", PStr (py "SB6346"));
             (py "客户名称", PNone);
             (py "参与计提份额", PNone);
             (py "净值日期", PStr (py "20250926"));
             (py "单位净值", PFloat (nearest_double false 15809 (-4)));
             (py "累计单位净值", PFloat (nearest_double false 15809 (-4)));
             (py "计提频率", PNone);
             (py "虚拟计提业绩报酬金额", PNone);
             (py "提取净值", PNone);
             (py "计提后虚拟净值", PNone) ] ].
Proof. eval_normalize env. Qed.

(** the vertical sheet of [test_complete_flow.py]: labels on the left,
    values on the right *)
Definition dongkai_vertical : DataFrame :=
  grid [ ["客户名称"; "中邮永安鑫享成长FOF二号私募证券投资基金"];
         ["基金账号"; "S58005924402"];
         ["估值基准日"; "2024-11-27"];
         ["计提方式"; "TA计提"];
         ["持仓份额"; "860,511.14"];
         ["虚拟业绩报酬"; "0"];
         ["虚拟净值"; "1.1613"];
         ["实际净值"; "1.1613"];
         ["实际累计净值"; "1.1613"];
         ["产品代码"; "T05851"];
         ["产品名称"; "东恺多资产ETF轮动一号私募证券投资基金B类"] ]%string.

(** On the vertical sheet of [test_complete_flow.py] no row is a header
    row, and the key/value scan gives the record: code T05851, the name, the
    date 20241127, unit value and accumulated value 1.1613. *)
Example dongkai_vertical_extracted (env : PyEnv) :
  header_row_idx dongkai_vertical keywords = None
  /\ extract_and_normalize env dongkai_vertical
     = Some [ [ (py "产品名称", PStr (py "东恺多资产ETF轮动一号私募证券投资基金B类"));
                (py "产品代码", PStr (py "T05851"));
                (py "客户名称", PNone);
                (py "参与计提份额", PNone);
                (py "净值日期", PStr (py "20241127"));
                (py "单位净值", PFloat (nearest_double false 11613 (-4)));
                (py "累计单位净值", PFloat (nearest_double false 11613 (-4)));
                (py "计提频率", PNone);
                (py "虚拟计提业绩报酬金额", PNone);
                (py "提取净值", PNone);
                (py "计提后虚拟净值", PNone) ] ].
Proof. split; [now vm_compute | eval_normalize env]. Qed.

(** A data row with four fields and no code becomes a candidate record
    and is dropped by the validator; the row after it is kept. *)
Example row_without_code_dropped (env : PyEnv) :
  let df := grid [ ["基金代码"; "基金名称"; "净值日期"; "单位净值"; "累计单位净值"];
                   [EmptyString; "Test Fund"; "20250121"; "1.5000"; "1.5000"];
                   ["ABC124"; "Test Fund 2"; "20250122"; "2.0000"; "2.0000"] ]%string in
  length (records_of (extract_table_format df keywords)) = 2
  /\ extract_fund_data_smart env df = Some [record_ABC124].
Proof.
  cbv zeta. split; [now vm_compute|].
  unfold extract_fund_data_smart. rewrite choose_path_eq.
  match goal with |- context [extract_table_format ?df keywords] =>
    let t := eval vm_compute in (extract_table_format df keywords) in
    assert (E : extract_table_format df keywords = t) by now vm_compute
  end.
  rewrite E. reflexivity.
Qed.

(* ================================================================== *)
(** * More of the extractor: [clean_value] *)
(* ================================================================== *)

Lemma before_not_In (c : char) (s : str) : ~ In c (before c s).
Proof.
  induction s as [|x s IH]; simpl; [tauto|].
  destruct (x =? c)%N eqn:E; [tauto|]. apply N.eqb_neq in E.
  intros [H|H]; [congruence | contradiction].
Qed.

Lemma before_split (c : char) (s : str) :
  exists rest, s = before c s ++ rest /\ (rest = [] \/ exists r, rest = c :: r).
Proof.
  induction s as [|x s [rest [E H]]]; simpl.
  - exists []. split; [reflexivity | now left].
  - destruct (x =? c)%N eqn:Ex.
    + apply N.eqb_eq in Ex. subst x. exists (c :: s). split; [reflexivity|].
      right. now exists s.
    + exists rest. split; [simpl; now f_equal | assumption].
Qed.

(** what [lstrip] removes is white space *)
Lemma lstrip_split (s : str) :
  exists ws, s = ws ++ lstrip s /\ forallb isspace ws = true.
Proof.
  induction s as [|c s [ws [E H]]]; simpl.
  - now exists [].
  - destruct (isspace c) eqn:Ec.
    + exists (c :: ws). simpl. rewrite Ec, H. split; [now f_equal | reflexivity].
    + now exists [].
Qed.

Lemma rstrip_split (s : str) :
  exists ws, s = rstrip s ++ ws /\ forallb isspace ws = true.
Proof.
  unfold rstrip. destruct (lstrip_split (rev s)) as [ws [E H]].
  exists (rev ws). split.
  - rewrite <- rev_app_distr, <- E. now rewrite rev_involutive.
  - rewrite forallb_forall in *. intros c Hc. apply H. now apply in_rev.
Qed.

(** [strip] keeps a block of the string, between two runs of white space *)
Lemma strip_split (s : str) :
  exists pre post, s = pre ++ strip s ++ post
                   /\ forallb isspace pre = true /\ forallb isspace post = true.
Proof.
  destruct (lstrip_split s) as [pre [E1 H1]].
  destruct (rstrip_split (lstrip s)) as [post [E2 H2]].
  exists pre, post. unfold strip. split; [|now split].
  now rewrite <- E2.
Qed.

(** the end of a stripped string is not white space either *)
Lemma strip_clean_tail (s : str) : clean_head (rev (strip s)) = true.
Proof.
  unfold strip, rstrip. rewrite rev_involutive. apply lstrip_clean_head.
Qed.

Lemma strip_idempotent (s : str) : strip (strip s) = strip s.
Proof. apply strip_id; [apply strip_clean_head | apply strip_clean_tail]. Qed.

(** X2. [clean_value] returns the part of the stripped value before its
    first underscore: the result holds no underscore, does not start with
    white space, and what it leaves out of the stripped value is nothing or
    starts at an underscore. It may end with white space (as in "a _b"), so
    a second application can still change it, but only by removing white
    space at the end. *)
Theorem clean_value_shape (value : str) :
  ~ In UNDERSCORE (clean_value value)
  /\ clean_head (clean_value value) = true
  /\ (exists rest, strip value = clean_value value ++ rest
                   /\ (rest = [] \/ exists r, rest = UNDERSCORE :: r))
  /\ (has_char UNDERSCORE value = false -> clean_value value = strip value)
  /\ clean_value (clean_value value) = rstrip (clean_value value)
  /\ clean_value (py "a _b") = py "a "
  /\ clean_value (clean_value (py "a _b")) = py "a".
Proof.
  assert (Hno : ~ In UNDERSCORE (clean_value value)).
  { unfold clean_value. destruct (has_char UNDERSCORE (strip value)) eqn:E.
    - apply before_not_In.
    - intros H. apply has_char_In in H. congruence. }
  split; [exact Hno|]. split; [apply clean_value_clean_head|].
  split; [|split; [|split; [|split]]].
  - unfold clean_value. destruct (has_char UNDERSCORE (strip value)).
    + apply before_split.
    + exists []. split; [now rewrite app_nil_r | now left].
  - intros H. unfold clean_value.
    destruct (has_char UNDERSCORE (strip value)) eqn:E; [|reflexivity].
    exfalso. apply has_char_In in E.
    destruct (strip_split value) as [pre [post [Ev _]]].
    assert (In UNDERSCORE value).
    { rewrite Ev. apply in_or_app. right. apply in_or_app. now left. }
    apply has_char_In in H0. congruence.
  - set (w := clean_value value) in *.
    assert (Hs : strip w = rstrip w).
    { unfold strip. now rewrite (lstrip_id w (clean_value_clean_head value)). }
    unfold clean_value at 1. rewrite Hs.
    destruct (has_char UNDERSCORE (rstrip w)) eqn:E; [|reflexivity].
    exfalso. apply has_char_In in E. apply Hno.
    destruct (rstrip_split w) as [ws [Ew _]]. rewrite Ew.
    apply in_or_app. now left.
  - now vm_compute.
  - now vm_compute.
Qed.

(* ================================================================== *)
(** * More of the extractor: [is_header_keyword] *)
(* ================================================================== *)

Lemma substring_In (a b : str) (c : char) : substring a b -> In c a -> In c b.
Proof.
  intros [pre [post ->]] H. apply in_or_app. right. apply in_or_app. now left.
Qed.

Lemma substring_refl (a : str) : substring a a.
Proof. exists [], []. now rewrite app_nil_r. Qed.

Lemma is_header_keyword_spec (value : str) (all : list str) :
  is_header_keyword value all = true <->
  exists keyword, In keyword (header_patterns ++ all)
                  /\ (substring keyword value \/ substring value keyword).
Proof.
  unfold is_header_keyword. rewrite orb_true_iff, !existsb_exists. split.
  - intros [[k [Hk H]]|[k [Hk H]]]; exists k;
      (split; [apply in_or_app; tauto|]);
      apply orb_true_iff in H as [H|H]; apply contains_spec in H; tauto.
  - intros [k [Hk H]].
    assert (Hb : contains k value || contains value k = true).
    { apply orb_true_iff. destruct H as [H|H]; apply contains_spec in H; tauto. }
    apply in_app_or in Hk as [Hk|Hk]; [left | right]; now exists k.
Qed.

(** X3. A candidate value is refused as a header keyword exactly when one of
    the listed words (the built-in header patterns or an alias of the
    catalog) occurs inside it or it occurs inside one of them. So every
    listed word is refused, every text that holds one (a fund name with
    "净值" in it) is refused, and every piece of one, down to a single
    character such as "值" or the empty string, is refused. *)
Theorem is_header_keyword_refuses (all : list str) :
  (forall value,
      is_header_keyword value all = true <->
      exists keyword, In keyword (header_patterns ++ all)
                      /\ (substring keyword value \/ substring value keyword))
  /\ (forall keyword pre post,
         In keyword (header_patterns ++ all) ->
         is_header_keyword (pre ++ keyword ++ post) all = true)
  /\ (forall keyword pre piece post,
         In keyword (header_patterns ++ all) ->
         keyword = pre ++ piece ++ post ->
         is_header_keyword piece all = true)
  /\ is_header_keyword (py "值") all = true
  /\ is_header_keyword [] all = true.
Proof.
  split; [intros; apply is_header_keyword_spec|].
  split; [|split; [|split]].
  - intros keyword pre post Hk. apply is_header_keyword_spec.
    exists keyword. split; [assumption|]. left. now exists pre, post.
  - intros keyword pre piece post Hk E. apply is_header_keyword_spec.
    exists keyword. split; [assumption|]. right. now exists pre, post.
  - apply is_header_keyword_spec. exists (py "净值").
    split; [apply in_or_app; left; vm_compute; tauto|].
    right. now exists (py "净"), [].
  - apply is_header_keyword_spec. exists (py "净值").
    split; [apply in_or_app; left; vm_compute; tauto|].
    right. now exists [], (py "净值").
Qed.

(** the characters of numbers, dates and times *)
Definition plain_char (c : char) : bool :=
  is_digit c
  || ((c =? 46) || (c =? 45) || (c =? 58) || (c =? 44) || (c =? 32) || (c =? 47))%N.

(** X4. A value made of digits and the marks of numbers and dates (. - : ,
    / and spaces), with at least one digit, is never taken for a header
    keyword under the catalog: numbers and dates always pass this filter. *)
Theorem numbers_pass_header_filter (value : str) :
  forallb plain_char value = true ->
  existsb is_digit value = true ->
  is_header_keyword value (all_keywords_of keywords) = false.
Proof.
  intros Hplain Hdigit.
  destruct (is_header_keyword value (all_keywords_of keywords)) eqn:E; [|reflexivity].
  exfalso. apply is_header_keyword_spec in E as [k [Hk H]].
  assert (F1 : forallb (fun k => existsb (fun c => negb (plain_char c)) k)
                       (header_patterns ++ all_keywords_of keywords) = true)
    by now vm_compute.
  assert (F2 : forallb (fun k => forallb (fun c => negb (is_digit c)) k)
                       (header_patterns ++ all_keywords_of keywords) = true)
    by now vm_compute.
  rewrite forallb_forall in F1, F2, Hplain.
  destruct H as [H|H].
  - specialize (F1 k Hk). apply existsb_exists in F1 as [c [Hc Hn]].
    apply (substring_In k value c H) in Hc. rewrite (Hplain c Hc) in Hn. discriminate.
  - apply existsb_exists in Hdigit as [c [Hc Hd]].
    apply (substring_In value k c H) in Hc.
    specialize (F2 k Hk). rewrite forallb_forall in F2.
    specialize (F2 c Hc). rewrite Hd in F2. discriminate.
Qed.

Lemma numbers_pass_header_filter_witness :
  forallb plain_char (py "2024-01-30 00:00:00") = true
  /\ existsb is_digit (py "2024-01-30 00:00:00") = true
  /\ is_header_keyword (py "2024-01-30 00:00:00") (all_keywords_of keywords) = false.
Proof.
  split; [reflexivity|]. split; [reflexivity|].
  apply (numbers_pass_header_filter (py "2024-01-30 00:00:00")); reflexivity.
Defined.

(* ================================================================== *)
(** * More of the extractor: the shape of a record *)
(* ================================================================== *)

Lemma dict_set_keys {V} (d : dict V) (k : str) (v : V) :
  map fst (dict_set d k v)
  = if existsb (fun k' => eqb k' k) (map fst d) then map fst d else map fst d ++ [k].
Proof.
  induction d as [|[k' v'] d IH]; simpl; [reflexivity|].
  destruct (eqb k' k); simpl; [reflexivity|]. rewrite IH.
  now destruct (existsb (fun k'0 => eqb k'0 k) (map fst d)).
Qed.

Lemma dict_set_NoDup {V} (d : dict V) (k : str) (v : V) :
  NoDup (map fst d) -> NoDup (map fst (dict_set d k v)).
Proof.
  intros H. rewrite dict_set_keys.
  destruct (existsb (fun k' => eqb k' k) (map fst d)) eqn:E; [assumption|].
  apply NoDup_app; [assumption | repeat constructor; intros [] |].
  intros x Hx [Hk|[]]. subst x.
  assert (existsb (fun k' => eqb k' k) (map fst d) = true); [|congruence].
  apply existsb_exists. exists k. split; [assumption | apply eqb_refl].
Qed.

Lemma extract_row_NoDup columns data_row todo result r :
  NoDup (map fst result) ->
  extract_row columns data_row todo result = Ret r ->
  NoDup (map fst r).
Proof.
  revert result. induction todo as [|[field_name patterns] todo IH];
    intros result Hnd; simpl.
  - now intros [= <-].
  - destruct (lookup_field columns data_row patterns) as [[v|]|]; simpl.
    + apply IH. now apply dict_set_NoDup.
    + now apply IH.
    + discriminate.
Qed.

Lemma scan_fields_NoDup env df kws all todo result :
  NoDup (map fst result) ->
  NoDup (map fst (scan_fields env df kws all todo result)).
Proof.
  revert result. induction todo as [|[field_name patterns] todo IH];
    intros result Hnd; simpl; [assumption|].
  destruct (scan_field env df kws all field_name patterns).
  - apply IH. now apply dict_set_NoDup.
  - now apply IH.
Qed.

(** the records of the table path have at least 3 entries, under distinct
    field names *)
Lemma extract_table_format_shape (df : DataFrame) (kws : catalog) (r : record) :
  In r (records_of (extract_table_format df kws)) ->
  3 <= length r /\ NoDup (map fst r).
Proof.
  unfold extract_table_format.
  destruct (header_row_idx df kws) as [h|]; [|intros []].
  destruct (len df <=? h + 1); [intros []|].
  rewrite extract_rows_spec. destruct (existsb _ _); [intros []|].
  rewrite app_nil_l.
  intros Hin.
  assert (Hin' : In r (flat_map (emitted_of (cleaned_headers df h) kws)
                                (data_rows df (h + 1)))).
  { destruct (flat_map _ _); [destruct Hin | exact Hin]. }
  apply in_flat_map in Hin' as [data_row [_ Hr]].
  unfold emitted_of in Hr.
  destruct (forallb blank_cell data_row); [destruct Hr|].
  destruct (extract_row _ data_row kws []) as [result|] eqn:E; [|destruct Hr].
  destruct (3 <=? length result) eqn:L; [|destruct Hr].
  destruct Hr as [<-|[]]. split; [now apply Nat.leb_le|].
  eapply extract_row_NoDup; [|exact E]. constructor.
Qed.

(** X5. Every record the engine returns holds between 3 and 5 entries,
    under distinct field names that are all fields of the catalog: a grid in
    which fewer than 3 of the 5 fields can be located gives no record on
    either path. *)
Theorem record_has_three_to_five_fields (env : PyEnv) (df : DataFrame) :
  Forall (fun r => 3 <= length r <= 5
                   /\ NoDup (map fst r)
                   /\ incl (map fst r) (map fst keywords))
         (records_of (extract_fund_data_smart env df)).
Proof.
  pose proof (extract_fund_data_smart_good env df) as G.
  rewrite Forall_forall in *. intros r Hin.
  assert (Hincl : incl (map fst r) (map fst keywords)).
  { destruct (G r Hin) as [_ Hg]. intros k Hk.
    apply in_map_iff in Hk as [kv [<- Hkv]].
    unfold good_record in Hg. rewrite Forall_forall in Hg. now destruct (Hg kv Hkv). }
  assert (Hshape : 3 <= length r /\ NoDup (map fst r)).
  { unfold extract_fund_data_smart in Hin. rewrite choose_path_eq in Hin.
    destruct (filter is_valid_result (records_of (extract_table_format df keywords)))
      as [|r0 rs] eqn:F.
    - unfold fallback_outcome, extract_keyvalue_format in Hin.
      destruct (3 <=? length (keyvalue_scan env df keywords)) eqn:L; [|destruct Hin].
      destruct (is_valid_result (keyvalue_scan env df keywords)); [|destruct Hin].
      destruct Hin as [<-|[]]. split; [now apply Nat.leb_le|].
      apply scan_fields_NoDup. constructor.
    - cbn [records_of] in Hin. rewrite <- F in Hin.
      apply filter_In in Hin as [Hin _].
      now apply extract_table_format_shape with (df := df) (kws := keywords). }
  destruct Hshape as [H3 Hnd]. repeat split; try assumption.
  pose proof (NoDup_incl_length Hnd Hincl) as Hlen.
  rewrite !length_map in Hlen. exact Hlen.
Qed.

(* ================================================================== *)
(** * More of the table path: where a value comes from *)
(* ================================================================== *)

Lemma dict_set_In {V} (d : dict V) (k : str) (v : V) (x : str * V) :
  In x (dict_set d k v) -> In x d \/ x = (k, v).
Proof.
  induction d as [|[k' v'] d IH]; simpl.
  - intros [<-|[]]. now right.
  - destruct (eqb k' k) eqn:E.
    + apply eqb_eq in E. subst k'. intros [<-|H]; [now right | left; now right].
    + intros [<-|H]; [left; now left|].
      destruct (IH H) as [H'|H']; [left; now right | now right].
Qed.

Lemma index_of_nth (col : str) (columns : list str) :
  In col columns ->
  index_of col columns < length columns
  /\ nth (index_of col columns) columns [] = col.
Proof.
  induction columns as [|c columns IH]; simpl; [intros []|].
  destruct (eqb c col) eqn:E.
  - apply eqb_eq in E. intros _. split; [lia | assumption].
  - intros [H|H]; [apply eqb_neq in E; contradiction|].
    destruct (IH H) as [Hl Hn]. split; [lia | assumption].
Qed.

Lemma scan_columns_source columns data_row pattern cols v :
  scan_columns columns data_row pattern cols = Ret (Some v) ->
  exists col,
    In col cols
    /\ pattern_in pattern (squeeze col) = true
    /\ value_present (nth (index_of col columns) data_row NaN) = true
    /\ v = clean_value (str_of (nth (index_of col columns) data_row NaN)).
Proof.
  induction cols as [|col cols IH]; simpl; [discriminate|].
  destruct (pattern_in pattern (squeeze col)) eqn:P.
  - unfold getitem. destruct (length (filter (eqb col) columns) =? 1); [|discriminate].
    destruct (value_present (nth (index_of col columns) data_row NaN)) eqn:VP.
    + intros [= <-]. exists col. repeat split; try assumption. now left.
    + intros H. destruct (IH H) as [c [Hc Hrest]]. exists c. split; [now right | assumption].
  - intros H. destruct (IH H) as [c [Hc Hrest]]. exists c. split; [now right | assumption].
Qed.

Lemma lookup_field_source columns data_row patterns v :
  lookup_field columns data_row patterns = Ret (Some v) ->
  exists pattern col,
    In pattern patterns /\ In col columns
    /\ pattern_in pattern (squeeze col) = true
    /\ value_present (nth (index_of col columns) data_row NaN) = true
    /\ v = clean_value (str_of (nth (index_of col columns) data_row NaN)).
Proof.
  induction patterns as [|pattern patterns IH]; simpl; [discriminate|].
  destruct (scan_columns columns data_row pattern columns) as [[v'|]|] eqn:E; simpl.
  - intros [= <-]. apply scan_columns_source in E as [col [Hc Hrest]].
    exists pattern, col. split; [now left | now split].
  - intros H. destruct (IH H) as [p [col [Hp Hrest]]].
    exists p, col. split; [now right | assumption].
  - discriminate.
Qed.

Lemma extract_row_source columns data_row todo result r field v :
  extract_row columns data_row todo result = Ret r ->
  In (field, v) r ->
  In (field, v) result
  \/ exists patterns, In (field, patterns) todo
                      /\ lookup_field columns data_row patterns = Ret (Some v).
Proof.
  revert result. induction todo as [|[field_name patterns] todo IH]; intros result; simpl.
  - intros [= <-] H. now left.
  - destruct (lookup_field columns data_row patterns) as [[v'|]|] eqn:E; simpl.
    + intros Hr Hin. destruct (IH _ Hr Hin) as [H|[ps [Hps Hl]]].
      * apply dict_set_In in H as [H|H]; [now left|].
        injection H as -> ->. right. exists patterns. split; [now left | assumption].
      * right. exists ps. split; [now right | assumption].
    + intros Hr Hin. destruct (IH _ Hr Hin) as [H|[ps [Hps Hl]]]; [now left|].
      right. exists ps. split; [now right | assumption].
    + discriminate.
Qed.

Lemma nth_row (df : DataFrame) (i j : nat) :
  j < ncols df -> nth j (row df i) NaN = iloc df i j.
Proof.
  intros Hj. unfold row.
  rewrite (nth_indep _ NaN (iloc df i 0)) by (rewrite length_map, length_seq; exact Hj).
  rewrite map_nth, seq_nth by exact Hj. reflexivity.
Qed.

Lemma nth_cleaned_headers (df : DataFrame) (h j : nat) :
  j < ncols df ->
  nth j (cleaned_headers df h) [] = strip (replace LF [SPACE] (str_of (iloc df h j))).
Proof.
  intros Hj. unfold cleaned_headers.
  rewrite (nth_indep _ [] (strip (replace LF [SPACE] (str_of NaN))))
    by (rewrite length_map; unfold row; rewrite length_map, length_seq; exact Hj).
  rewrite (map_nth (fun v => strip (replace LF [SPACE] (str_of v)))).
  now rewrite nth_row.
Qed.

(** the header text of column [j], as the table path names the column *)
Definition column_label (df : DataFrame) (h j : nat) : str :=
  strip (replace LF [SPACE] (str_of (iloc df h j))).

(** X6. The table path invents nothing: every value of a record it returns
    is [clean_value] of the text of a cell that stands in a row below the
    header row, is present (not NaN, not blank, not "nan"), and stands in a
    column whose header holds an alias of the value's field. *)
Theorem table_values_come_from_cells (df : DataFrame) (kws : catalog)
    (results : list record) (r : record) (field v : str) :
  extract_table_format df kws = Some results ->
  In r results ->
  In (field, v) r ->
  exists h i j patterns alias,
    header_row_idx df kws = Some h
    /\ h < i < len df /\ j < ncols df
    /\ In (field, patterns) kws /\ In alias patterns
    /\ pattern_in alias (squeeze (column_label df h j)) = true
    /\ value_present (iloc df i j) = true
    /\ v = clean_value (str_of (iloc df i j)).
Proof.
  intros Ht Hr Hv. unfold extract_table_format in Ht.
  destruct (header_row_idx df kws) as [h|] eqn:Hh; [|discriminate].
  destruct (len df <=? h + 1) eqn:L; [discriminate|]. apply Nat.leb_gt in L.
  rewrite extract_rows_spec in Ht. destruct (existsb _ _); [discriminate|].
  rewrite app_nil_l in Ht.
  assert (Hin : In r (flat_map (emitted_of (cleaned_headers df h) kws)
                               (data_rows df (h + 1)))).
  { destruct (flat_map _ _) as [|r0 rs]; [discriminate|]. now injection Ht as <-. }
  apply in_flat_map in Hin as [data_row [Hrow Hem]].
  unfold data_rows in Hrow. apply in_map_iff in Hrow as [i [<- Hi]].
  apply in_seq in Hi. unfold emitted_of in Hem.
  destruct (forallb blank_cell (row df i)); [destruct Hem|].
  destruct (extract_row _ (row df i) kws []) as [result|] eqn:E; [|destruct Hem].
  destruct (3 <=? length result); [|destruct Hem].
  destruct Hem as [<-|[]].
  destruct (extract_row_source _ _ _ _ _ _ _ E Hv) as [[]|[patterns [Hps Hl]]].
  apply lookup_field_source in Hl as [alias [col [Ha [Hc [Hp [Hvp Hval]]]]]].
  destruct (index_of_nth col _ Hc) as [Hj Hn].
  assert (Hlen : length (cleaned_headers df h) = ncols df).
  { unfold cleaned_headers, row. now rewrite !length_map, length_seq. }
  rewrite Hlen in Hj.
  set (j := index_of col (cleaned_headers df h)) in *.
  rewrite nth_row in Hvp, Hval by exact Hj.
  exists h, i, j, patterns, alias. repeat split; try assumption; try lia.
  unfold column_label. rewrite <- nth_cleaned_headers by exact Hj. now rewrite Hn.
Qed.

Lemma table_values_come_from_cells_witness :
  exists h i j patterns alias,
    header_row_idx two_row_table keywords = Some h
    /\ h < i < len two_row_table /\ j < ncols two_row_table
    /\ In (py "产品代码", patterns) keywords /\ In alias patterns
    /\ pattern_in alias (squeeze (column_label two_row_table h j)) = true
    /\ value_present (iloc two_row_table i j) = true
    /\ py "ABC123" = clean_value (str_of (iloc two_row_table i j)).
Proof.
  apply (table_values_come_from_cells two_row_table keywords
           [record_ABC123; record_ABC124] record_ABC123 (py "产品代码") (py "ABC123")).
  - now vm_compute.
  - now left.
  - right. now left.
Defined.

(* ================================================================== *)
(** * More of the key/value path: where a value comes from *)
(* ================================================================== *)

Lemma first_some_seq_Some {B} (f : nat -> option B) (a n : nat) (b : B) :
  first_some f (seq a n) = Some b ->
  exists k, a <= k < a + n /\ f k = Some b /\ forall k', a <= k' < k -> f k' = None.
Proof.
  revert a; induction n as [|n IH]; intros a; simpl; [discriminate|].
  destruct (f a) as [b'|] eqn:E.
  - intros [= <-]. exists a. split; [lia|]. split; [assumption | intros k' Hk'; lia].
  - intros H. destruct (IH _ H) as [k [Hk [Hf Hmin]]].
    exists k. split; [lia|]. split; [assumption|].
    intros k' Hk'. destruct (Nat.eq_dec k' a) as [->|Hne]; [assumption|].
    apply Hmin. lia.
Qed.

Lemma first_some_seq_None {B} (f : nat -> option B) (a n k : nat) :
  first_some f (seq a n) = None -> a <= k < a + n -> f k = None.
Proof.
  intros H Hk. apply (proj1 (first_some_None f (seq a n)) H). apply in_seq. lia.
Qed.

Lemma scan_patterns_source env df kws all field_name i j cell_value patterns v :
  scan_patterns env df kws all field_name i j cell_value patterns = Some v ->
  exists pattern,
    In pattern patterns
    /\ is_match env cell_value pattern = true
    /\ better_field_match kws field_name (cleaned cell_value) (cleaned pattern) = false
    /\ locate_value df all i j cell_value = Some v.
Proof.
  induction patterns as [|pattern patterns IH]; simpl; [discriminate|].
  destruct (is_match env cell_value pattern) eqn:M.
  - destruct (better_field_match kws field_name (cleaned cell_value) (cleaned pattern))
      eqn:B.
    + intros H. destruct (IH H) as [p [Hp Hrest]]. exists p. split; [now right | assumption].
    + intros H. exists pattern. repeat split; try assumption. now left.
  - intros H. destruct (IH H) as [p [Hp Hrest]]. exists p. split; [now right | assumption].
Qed.

(** the two ways [locate_value] succeeds *)
Definition located (df : DataFrame) (all : list str) (i j : nat) (cell_value v : str)
    : Prop :=
  (exists rest,
      after FWCOLON cell_value = Some rest
      /\ accepted_same_cell all (strip rest) = true
      /\ v = clean_value (strip rest))
  \/ (exists offset,
         (offset = 1 \/ offset = 2) /\ j + offset < ncols df
         /\ accepted_right all (strip (str_of (iloc df i (j + offset)))) = true
         /\ v = clean_value (strip (str_of (iloc df i (j + offset))))).

Lemma right_value_located df all i j cell_value v :
  right_value df all i j [1; 2] = Some v -> located df all i j cell_value v.
Proof.
  intros H. unfold right_value in H. apply first_some_Some in H as [offset [Ho H]].
  destruct (j + offset <? ncols df) eqn:L; [|discriminate]. apply Nat.ltb_lt in L.
  cbv zeta in H.
  match type of H with
  | (if ?b then _ else _) = _ => destruct b eqn:Acc; [|discriminate]
  end.
  injection H as <-. right. exists offset. unfold accepted_right.
  assert (offset = 1 \/ offset = 2) by (simpl in Ho; intuition congruence).
  repeat split; assumption.
Qed.

Lemma locate_value_located df all i j cell_value v :
  locate_value df all i j cell_value = Some v -> located df all i j cell_value v.
Proof.
  unfold locate_value. destruct (same_cell_value all cell_value) as [v'|] eqn:S.
  - intros [= <-]. unfold same_cell_value in S.
    destruct (has_char FWCOLON cell_value); [|discriminate].
    destruct (after FWCOLON cell_value) as [rest|] eqn:A; [|discriminate].
    cbv zeta in S.
    match type of S with
    | (if ?b then _ else _) = _ => destruct b eqn:Acc; [|discriminate]
    end.
    injection S as <-. left. exists rest. unfold accepted_same_cell.
    repeat split; assumption.
  - apply right_value_located.
Qed.

Lemma scan_field_first env df kws all field_name patterns v :
  scan_field env df kws all field_name patterns = Some v ->
  exists i j,
    i < len df /\ j < ncols df
    /\ scan_cell env df kws all field_name patterns i j = Some v
    /\ forall i' j', i' < len df -> j' < ncols df ->
                     i' < i \/ (i' = i /\ j' < j) ->
                     scan_cell env df kws all field_name patterns i' j' = None.
Proof.
  unfold scan_field. intros H.
  apply first_some_seq_Some in H as [i [Hi [Hrow Hrows]]].
  apply first_some_seq_Some in Hrow as [j [Hj [Hcell Hcells]]].
  exists i, j. repeat split; try lia; try assumption.
  intros i' j' Hi' Hj' [Hlt|[-> Hlt]].
  - apply (first_some_seq_None _ 0 (ncols df) j'); [apply Hrows; lia | lia].
  - apply Hcells. lia.
Qed.

Lemma scan_fields_source env df kws all todo result field v :
  In (field, v) (scan_fields env df kws all todo result) ->
  In (field, v) result
  \/ exists patterns, In (field, patterns) todo
                      /\ scan_field env df kws all field patterns = Some v.
Proof.
  revert result. induction todo as [|[field_name patterns] todo IH]; intros result; simpl.
  - now left.
  - destruct (scan_field env df kws all field_name patterns) as [v'|] eqn:E.
    + intros Hin. destruct (IH _ Hin) as [H|[ps [Hps Hs]]].
      * apply dict_set_In in H as [H|H]; [now left|].
        injection H as -> ->. right. exists patterns. split; [now left | assumption].
      * right. exists ps. split; [now right | assumption].
    + intros Hin. destruct (IH _ Hin) as [H|[ps [Hps Hs]]]; [now left|].
      right. exists ps. split; [now right | assumption].
Qed.

(** X7. The key/value scan invents nothing: every value in its result was
    located from a label cell of the grid: a cell that matches an alias of
    the value's field and loses to no longer alias of another field. The
    value is [clean_value] of the accepted text after the cell's first
    full-width colon, or of the accepted text of the cell 1 or 2 columns to
    its right. That label cell is the first cell in row-major order that
    gives the field a value. *)
Theorem keyvalue_values_come_from_labels (env : PyEnv) (df : DataFrame) (kws : catalog)
    (field v : str) :
  In (field, v) (keyvalue_scan env df kws) ->
  exists patterns pattern i j,
    In (field, patterns) kws /\ In pattern patterns
    /\ i < len df /\ j < ncols df
    /\ is_match env (strip (str_of (iloc df i j))) pattern = true
    /\ better_field_match kws field (cleaned (strip (str_of (iloc df i j))))
                          (cleaned pattern) = false
    /\ located df (all_keywords_of kws) i j (strip (str_of (iloc df i j))) v
    /\ forall i' j', i' < len df -> j' < ncols df ->
                     i' < i \/ (i' = i /\ j' < j) ->
                     scan_cell env df kws (all_keywords_of kws) field patterns i' j' = None.
Proof.
  intros Hin. unfold keyvalue_scan in Hin.
  apply scan_fields_source in Hin as [[]|[patterns [Hps Hs]]].
  apply scan_field_first in Hs as [i [j [Hi [Hj [Hcell Hmin]]]]].
  unfold scan_cell in Hcell at 1.
  apply scan_patterns_source in Hcell as [pattern [Hp [M [B L]]]].
  apply locate_value_located in L.
  exists patterns, pattern, i, j. repeat split; assumption.
Qed.

Lemma keyvalue_values_come_from_labels_witness :
  exists patterns pattern i j,
    let df := grid [["产品代码"; "T05851"]%string] in
    In (py "产品代码", patterns) keywords /\ In pattern patterns
    /\ i < len df /\ j < ncols df
    /\ is_match ascii_env (strip (str_of (iloc df i j))) pattern = true
    /\ better_field_match keywords (py "产品代码")
         (cleaned (strip (str_of (iloc df i j)))) (cleaned pattern) = false
    /\ located df (all_keywords_of keywords) i j (strip (str_of (iloc df i j)))
               (py "T05851")
    /\ forall i' j', i' < len df -> j' < ncols df ->
                     i' < i \/ (i' = i /\ j' < j) ->
                     scan_cell ascii_env df keywords (all_keywords_of keywords)
                               (py "产品代码") patterns i' j' = None.
Proof.
  apply (keyvalue_values_come_from_labels ascii_env
           (grid [["产品代码"; "T05851"]%string]) keywords (py "产品代码") (py "T05851")).
  vm_compute. now left.
Defined.

(* ================================================================== *)
(** * Grids without labels, grids without data rows *)
(* ================================================================== *)

(** some cell of the grid, its line breaks and spaces removed, holds an
    alias of the catalog *)
Definition mentions_alias (kws : catalog) (df : DataFrame) : bool :=
  existsb (fun i =>
             existsb (fun j =>
                        existsb (fun alias =>
                                   contains alias (squeeze (str_of (iloc df i j))))
                                (all_keywords_of kws))
                     (seq 0 (ncols df)))
          (seq 0 (len df)).

Lemma mentions_alias_false (kws : catalog) (df : DataFrame) (i j : nat) (alias : str) :
  mentions_alias kws df = false ->
  i < len df -> j < ncols df -> In alias (all_keywords_of kws) ->
  contains alias (squeeze (str_of (iloc df i j))) = false.
Proof.
  intros H Hi Hj Ha.
  destruct (contains alias (squeeze (str_of (iloc df i j)))) eqn:C; [|reflexivity].
  assert (mentions_alias kws df = true); [|congruence].
  unfold mentions_alias. apply existsb_exists. exists i. split; [apply in_seq; lia|].
  apply existsb_exists. exists j. split; [apply in_seq; lia|].
  apply existsb_exists. now exists alias.
Qed.

Lemma cleaned_squeeze (s : str) : cleaned s = squeeze s.
Proof.
  rewrite squeeze_filter. unfold cleaned, replace.
  induction s as [|c s IH]; [reflexivity|].
  cbn [flat_map filter app]. destruct (c =? SPACE)%N eqn:E1.
  - cbn [app flat_map]. rewrite IH.
    destruct (c =? LF)%N; cbn [negb andb]; reflexivity.
  - cbn [app flat_map]. destruct (c =? LF)%N eqn:E2; cbn [app negb andb].
    + exact IH.
    + f_equal. exact IH.
Qed.

Lemma substring_trans (a b c : str) : substring a b -> substring b c -> substring a c.
Proof.
  intros [p1 [q1 ->]] [p2 [q2 ->]]. exists (p2 ++ p1), (q1 ++ q2).
  now rewrite <- !app_assoc.
Qed.

Lemma squeeze_substring (a b : str) : substring a b -> substring (squeeze a) (squeeze b).
Proof.
  intros [pre [post ->]]. rewrite !squeeze_filter, !filter_app.
  now exists (filter (fun c => negb (c =? LF)%N && negb (c =? SPACE)%N) pre),
             (filter (fun c => negb (c =? LF)%N && negb (c =? SPACE)%N) post).
Qed.

Lemma strip_substring (s : str) : substring (strip s) s.
Proof. destruct (strip_split s) as [pre [post [E _]]]. now exists pre, post. Qed.

(** a match leaves the squeezed alias inside the squeezed cell *)
Lemma is_match_squeezed (env : PyEnv) (cell_value pattern : str) :
  is_match env cell_value pattern = true ->
  substring (squeeze pattern) (squeeze cell_value).
Proof.
  unfold is_match. destruct (eqb (cleaned cell_value) (cleaned pattern)) eqn:E.
  - intros _. apply eqb_eq in E. rewrite !cleaned_squeeze in E. rewrite E.
    apply substring_refl.
  - destruct (find cell_value pattern) as [idx|] eqn:F; [|discriminate].
    intros _. apply squeeze_substring.
    apply find_Some in F as [[pre [post [Ec _]]] _]. now exists pre, post.
Qed.

Lemma keywords_squeeze (alias : str) :
  In alias (all_keywords_of keywords) -> squeeze alias = alias.
Proof.
  intros H.
  assert (Hall : forallb (fun p => eqb (squeeze p) p) (all_keywords_of keywords) = true)
    by now vm_compute.
  rewrite forallb_forall in Hall. now apply eqb_eq, Hall.
Qed.

Lemma scan_patterns_no_match env df kws all field_name i j cell_value patterns :
  (forall pattern, In pattern patterns -> is_match env cell_value pattern = false) ->
  scan_patterns env df kws all field_name i j cell_value patterns = None.
Proof.
  intros H. apply scan_patterns_all_beaten. intros pattern Hp M.
  rewrite (H pattern Hp) in M. discriminate.
Qed.

Lemma scan_fields_nothing env df kws all todo result :
  (forall field_name patterns, In (field_name, patterns) todo ->
     scan_field env df kws all field_name patterns = None) ->
  scan_fields env df kws all todo result = result.
Proof.
  revert result. induction todo as [|[field_name patterns] todo IH];
    intros result H; simpl; [reflexivity|].
  rewrite (H field_name patterns) by now left.
  apply IH. intros f ps Hin. apply H. now right.
Qed.

(** X8. A grid in which no cell holds an alias of the catalog (line breaks
    and spaces set aside) gives no record: no row can be a header row, no
    cell can be a label, and both [extract_fund_data_smart] and
    [extract_and_normalize] return None. In particular so does every grid
    without rows or without columns. *)
Theorem no_alias_no_record (env : PyEnv) (df : DataFrame) :
  mentions_alias keywords df = false ->
  header_row_idx df keywords = None
  /\ keyvalue_scan env df keywords = []
  /\ extract_fund_data_smart env df = None
  /\ extract_and_normalize env df = None.
Proof.
  intros H.
  assert (Hh : header_row_idx df keywords = None).
  { unfold header_row_idx. apply find_seq_None. intros k Hk.
    unfold is_header_row, matched_field_count.
    assert (F : filter (fun kv => field_in_row (snd kv) (row_cleaned df k)) keywords = []).
    { destruct (filter (fun kv => field_in_row (snd kv) (row_cleaned df k)) keywords)
        as [|[field ps] l] eqn:F; [reflexivity|]. exfalso.
      assert (Hin : In (field, ps)
                       (filter (fun kv => field_in_row (snd kv) (row_cleaned df k)) keywords))
        by (rewrite F; now left).
      apply filter_In in Hin as [Hin Hf]. simpl in Hf.
      apply field_in_row_spec in Hf as [alias [cell [Ha [Hc Hp]]]].
      unfold row_cleaned, row in Hc. rewrite map_map in Hc.
      apply in_map_iff in Hc as [j [<- Hj]]. apply in_seq in Hj.
      assert (Hal : alias_of keywords field alias) by now exists ps.
      apply (keywords_pattern_in field) in Hp; [|exact Hal].
      apply contains_spec in Hp.
      rewrite (mentions_alias_false keywords df k j alias H) in Hp;
        [discriminate | lia | lia|].
      unfold all_keywords_of. apply in_flat_map. now exists (field, ps). }
    now rewrite F. }
  assert (Hk : keyvalue_scan env df keywords = []).
  { unfold keyvalue_scan. apply scan_fields_nothing. intros field ps Hin.
    unfold scan_field. apply first_some_None. intros i Hi. apply in_seq in Hi.
    apply first_some_None. intros j Hj. apply in_seq in Hj.
    unfold scan_cell. apply scan_patterns_no_match. intros alias Ha.
    destruct (is_match env (strip (str_of (iloc df i j))) alias) eqn:M; [|reflexivity].
    exfalso. apply is_match_squeezed in M.
    assert (Hal : In alias (all_keywords_of keywords)).
    { unfold all_keywords_of. apply in_flat_map. now exists (field, ps). }
    rewrite (keywords_squeeze alias Hal) in M.
    assert (S : substring alias (squeeze (str_of (iloc df i j)))).
    { eapply substring_trans; [exact M|]. apply squeeze_substring, strip_substring. }
    apply contains_spec in S.
    rewrite (mentions_alias_false keywords df i j alias H) in S;
      [discriminate | lia | lia | exact Hal]. }
  assert (He : extract_fund_data_smart env df = None).
  { unfold extract_fund_data_smart. rewrite choose_path_eq.
    unfold extract_table_format. rewrite Hh. cbn [records_of filter].
    unfold fallback_outcome, extract_keyvalue_format. now rewrite Hk. }
  repeat split; try assumption.
  unfold extract_and_normalize. now rewrite He.
Qed.

Lemma no_alias_no_record_witness :
  let df := grid [["2024-01-30"; "1.5000"]; ["T05851"; "Test Fund"]]%string in
  mentions_alias keywords df = false
  /\ extract_and_normalize ascii_env df = None.
Proof.
  cbv zeta. split; [reflexivity|].
  apply (no_alias_no_record ascii_env
           (grid [["2024-01-30"; "1.5000"]; ["T05851"; "Test Fund"]]%string)).
  reflexivity.
Defined.

(** X9. The table path needs a row after the header row: on a grid with
    fewer than two rows it returns no record, whatever the catalog and
    however many labels the one row holds. *)
Theorem table_needs_two_rows (df : DataFrame) (kws : catalog) :
  len df <= 1 -> extract_table_format df kws = None.
Proof.
  intros H. unfold extract_table_format.
  destruct (header_row_idx df kws) as [h|] eqn:Hh; [|reflexivity].
  unfold header_row_idx in Hh. apply find_seq_Some in Hh as [Hr _].
  assert (L : (len df <=? h + 1) = true) by (apply Nat.leb_le; lia).
  now rewrite L.
Qed.

Lemma table_needs_two_rows_witness :
  let df := grid [["基金代码"; "基金名称"; "净值日期"; "单位净值"]]%string in
  len df <= 1
  /\ header_row_idx df keywords = Some 0
  /\ extract_table_format df keywords = None.
Proof.
  cbv zeta. split; [vm_compute; lia|]. split; [reflexivity|].
  apply (table_needs_two_rows
           (grid [["基金代码"; "基金名称"; "净值日期"; "单位净值"]]%string) keywords).
  vm_compute. lia.
Defined.

(* ================================================================== *)
(** * The order of the fields in the catalog *)
(* ================================================================== *)

From Stdlib Require Import Permutation.

Lemma existsb_Permutation {A} (f : A -> bool) (l l' : list A) :
  Permutation l l' -> existsb f l = existsb f l'.
Proof.
  induction 1 as [|x l l' _ IH|x y l|l l' l'' _ IH1 _ IH2]; simpl.
  - reflexivity.
  - now rewrite IH.
  - now destruct (f x), (f y).
  - now rewrite IH1.
Qed.

Lemma dict_get_In_iff {V} (d : dict V) (k : str) (v : V) :
  NoDup (map fst d) -> dict_get d k = Some v <-> In (k, v) d.
Proof.
  intros Hnd. split; [apply dict_get_In|].
  induction d as [|[k' v'] d IH]; simpl; [intros []|].
  inversion Hnd as [|? ? Hnin Hnd']; subst.
  intros [H|H].
  - injection H as -> ->. now rewrite eqb_refl.
  - destruct (eqb k' k) eqn:E; [|now apply IH].
    apply eqb_eq in E. subst k'. exfalso. apply Hnin.
    now apply (in_map fst) in H.
Qed.

Lemma dict_get_Permutation {V} (d d' : dict V) (k : str) :
  NoDup (map fst d) -> Permutation d d' -> dict_get d k = dict_get d' k.
Proof.
  intros Hnd Hp.
  assert (Hnd' : NoDup (map fst d'))
    by (eapply Permutation_NoDup; [apply Permutation_map; exact Hp | exact Hnd]).
  destruct (dict_get d k) as [v|] eqn:G.
  - apply dict_get_In in G. symmetry. apply dict_get_In_iff; [assumption|].
    now apply (Permutation_in _ Hp).
  - destruct (dict_get d' k) as [v'|] eqn:G'; [|reflexivity].
    apply dict_get_In in G'. apply Permutation_sym in Hp.
    apply (Permutation_in _ Hp) in G'.
    apply (dict_get_In_iff d k v' Hnd) in G'. congruence.
Qed.

Section CatalogOrder.

Variable env : PyEnv.
Variable df : DataFrame.
Variables kws kws' : catalog.
Hypothesis Hperm : Permutation kws kws'.

Lemma is_header_keyword_Permutation (value : str) :
  is_header_keyword value (all_keywords_of kws)
  = is_header_keyword value (all_keywords_of kws').
Proof.
  unfold is_header_keyword, all_keywords_of. f_equal.
  apply existsb_Permutation. now apply Permutation_flat_map.
Qed.

Lemma better_field_match_Permutation (field_name cell pattern : str) :
  better_field_match kws field_name cell pattern
  = better_field_match kws' field_name cell pattern.
Proof. unfold better_field_match. now apply existsb_Permutation. Qed.

Lemma locate_value_Permutation (i j : nat) (cell_value : str) :
  locate_value df (all_keywords_of kws) i j cell_value
  = locate_value df (all_keywords_of kws') i j cell_value.
Proof.
  unfold locate_value, same_cell_value, right_value.
  destruct (has_char FWCOLON cell_value).
  - destruct (after FWCOLON cell_value) as [rest|].
    + cbv zeta. rewrite <- is_header_keyword_Permutation.
      match goal with |- context [if ?b then Some ?x else None] => destruct b end;
        [reflexivity|].
      apply first_some_ext. intros offset. cbv zeta.
      now rewrite <- is_header_keyword_Permutation.
    + apply first_some_ext. intros offset. cbv zeta.
      now rewrite <- is_header_keyword_Permutation.
  - apply first_some_ext. intros offset. cbv zeta.
    now rewrite <- is_header_keyword_Permutation.
Qed.

Lemma scan_field_Permutation (field_name : str) (patterns : list str) :
  scan_field env df kws (all_keywords_of kws) field_name patterns
  = scan_field env df kws' (all_keywords_of kws') field_name patterns.
Proof.
  unfold scan_field. apply first_some_ext. intros i.
  apply first_some_ext. intros j. unfold scan_cell.
  generalize (strip (str_of (iloc df i j))) as cell_value. intros cell_value.
  induction patterns as [|pattern patterns IH]; simpl; [reflexivity|].
  now rewrite IH, <- better_field_match_Permutation, <- locate_value_Permutation.
Qed.

End CatalogOrder.

(** what one field adds to the result of the key/value scan *)
Definition scanned_entry (env : PyEnv) (df : DataFrame) (kws : catalog)
    (kv : str * list str) : list (str * str) :=
  match scan_field env df kws (all_keywords_of kws) (fst kv) (snd kv) with
  | Some v => [(fst kv, v)]
  | None => []
  end.

Lemma scan_fields_spec env df kws all (todo : catalog) (result : record) :
  NoDup (map fst todo) ->
  (forall k, In k (map fst todo) -> ~ In k (map fst result)) ->
  scan_fields env df kws all todo result
  = result ++ flat_map (fun kv => match scan_field env df kws all (fst kv) (snd kv) with
                                  | Some v => [(fst kv, v)]
                                  | None => []
                                  end) todo.
Proof.
  revert result. induction todo as [|[field_name patterns] todo IH];
    intros result Hnd Hdis; simpl.
  - now rewrite app_nil_r.
  - inversion Hnd as [|? ? Hnin Hnd']; subst.
    destruct (scan_field env df kws all field_name patterns) as [v|]; simpl.
    + rewrite dict_set_fresh by (apply Hdis; now left).
      rewrite IH; [now rewrite <- app_assoc | assumption|].
      intros k Hk Hin. rewrite map_app in Hin. apply in_app_or in Hin as [Hin|Hin].
      * apply (Hdis k); [now right | assumption].
      * simpl in Hin. destruct Hin as [<-|[]]. contradiction.
    + apply IH; [assumption|]. intros k Hk. apply Hdis. now right.
Qed.

(** X10. The order in which the catalog lists its fields does not matter to
    the key/value scan: with the fields listed in another order the scan
    finds the same value for every field (its result holds the same entries,
    possibly in another order), and it succeeds or fails alike. *)
Theorem keyvalue_scan_field_order (env : PyEnv) (df : DataFrame) (kws kws' : catalog) :
  Permutation kws kws' ->
  NoDup (map fst kws) ->
  Permutation (keyvalue_scan env df kws) (keyvalue_scan env df kws')
  /\ (forall field,
         dict_get (keyvalue_scan env df kws) field
         = dict_get (keyvalue_scan env df kws') field)
  /\ (extract_keyvalue_format env df kws = None
      <-> extract_keyvalue_format env df kws' = None).
Proof.
  intros Hp Hnd.
  assert (Hnd' : NoDup (map fst kws'))
    by (eapply Permutation_NoDup; [apply Permutation_map; exact Hp | exact Hnd]).
  assert (HP : Permutation (keyvalue_scan env df kws) (keyvalue_scan env df kws')).
  { unfold keyvalue_scan.
    rewrite !scan_fields_spec by (assumption || intros k _ []).
    rewrite !app_nil_l.
    fold (scanned_entry env df kws). fold (scanned_entry env df kws').
    rewrite (flat_map_ext (scanned_entry env df kws') (scanned_entry env df kws)).
    - now apply Permutation_flat_map.
    - intros [f ps]. unfold scanned_entry. cbn [fst snd].
      now rewrite (scan_field_Permutation env df kws kws' Hp). }
  split; [exact HP|]. split.
  - intros field. apply dict_get_Permutation; [|exact HP].
    apply scan_fields_NoDup. constructor.
  - unfold extract_keyvalue_format. rewrite (Permutation_length HP).
    now destruct (3 <=? length (keyvalue_scan env df kws')).
Qed.

Lemma keyvalue_scan_field_order_witness :
  Permutation keywords (rev keywords)
  /\ NoDup (map fst keywords)
  /\ Permutation (keyvalue_scan ascii_env dongkai_vertical keywords)
                 (keyvalue_scan ascii_env dongkai_vertical (rev keywords)).
Proof.
  split; [apply Permutation_rev|]. split; [apply keywords_NoDup|].
  apply (keyvalue_scan_field_order ascii_env dongkai_vertical keywords (rev keywords)).
  - apply Permutation_rev.
  - apply keywords_NoDup.
Defined.

Lemma filter_length_Permutation {A} (f : A -> bool) (l l' : list A) :
  Permutation l l' -> length (filter f l) = length (filter f l').
Proof.
  induction 1 as [|x l l' _ IH|x y l|l l' l'' _ IH1 _ IH2]; simpl.
  - reflexivity.
  - destruct (f x); simpl; now rewrite IH.
  - now destruct (f x), (f y).
  - now rewrite IH1.
Qed.

Lemma header_row_idx_Permutation (df : DataFrame) (kws kws' : catalog) :
  Permutation kws kws' -> header_row_idx df kws = header_row_idx df kws'.
Proof.
  intros Hp. unfold header_row_idx. apply find_ext_in. intros i _.
  unfold is_header_row, matched_field_count.
  now rewrite (filter_length_Permutation _ _ _ Hp).
Qed.

Lemma emitted_of_Permutation columns (kws kws' : catalog) (data_row : list cell) :
  Permutation kws kws' -> NoDup (map fst kws) ->
  row_raises columns kws data_row = row_raises columns kws' data_row
  /\ Forall2 (@Permutation (str * str))
             (emitted_of columns kws data_row) (emitted_of columns kws' data_row).
Proof.
  intros Hp Hnd.
  assert (Hnd' : NoDup (map fst kws'))
    by (eapply Permutation_NoDup; [apply Permutation_map; exact Hp | exact Hnd]).
  unfold row_raises, emitted_of.
  rewrite !extract_row_spec by (assumption || intros k _ []).
  rewrite (existsb_Permutation (field_raises columns data_row) kws kws' Hp).
  destruct (forallb blank_cell data_row); [split; [reflexivity | constructor]|].
  destruct (existsb (field_raises columns data_row) kws');
    [split; [reflexivity | constructor]|].
  rewrite !app_nil_l. split; [reflexivity|].
  assert (HP : Permutation (flat_map (field_entry columns data_row) kws)
                           (flat_map (field_entry columns data_row) kws'))
    by now apply Permutation_flat_map.
  rewrite (Permutation_length HP).
  destruct (3 <=? length (flat_map (field_entry columns data_row) kws'));
    repeat constructor. exact HP.
Qed.

(** X11. The order in which the catalog lists its fields does not matter to
    the table path either: another order gives the same header row and, row
    by row, records with the same entries. *)
Theorem table_field_order (df : DataFrame) (kws kws' : catalog) :
  Permutation kws kws' ->
  NoDup (map fst kws) ->
  header_row_idx df kws = header_row_idx df kws'
  /\ Forall2 (@Permutation (str * str))
             (records_of (extract_table_format df kws))
             (records_of (extract_table_format df kws')).
Proof.
  intros Hp Hnd. pose proof (header_row_idx_Permutation df kws kws' Hp) as Hh.
  split; [exact Hh|]. unfold extract_table_format. rewrite <- Hh.
  destruct (header_row_idx df kws) as [h|]; [|constructor].
  destruct (len df <=? h + 1); [constructor|].
  rewrite !extract_rows_spec, !app_nil_l.
  generalize (data_rows df (h + 1)) as rows. intros rows.
  assert (Hrows : existsb (row_raises (cleaned_headers df h) kws) rows
                  = existsb (row_raises (cleaned_headers df h) kws') rows
                  /\ Forall2 (@Permutation (str * str))
                             (flat_map (emitted_of (cleaned_headers df h) kws) rows)
                             (flat_map (emitted_of (cleaned_headers df h) kws') rows)).
  { induction rows as [|data_row rows [IH1 IH2]]; simpl; [split; constructor|].
    destruct (emitted_of_Permutation (cleaned_headers df h) kws kws' data_row Hp Hnd)
      as [Hr He].
    rewrite Hr, IH1. split; [reflexivity|]. now apply Forall2_app. }
  destruct Hrows as [Hr Hf]. rewrite <- Hr.
  destruct (existsb (row_raises (cleaned_headers df h) kws) rows); [constructor|].
  destruct Hf; [constructor|]. cbn [records_of]. now constructor.
Qed.

Lemma table_field_order_witness :
  Permutation keywords (rev keywords)
  /\ NoDup (map fst keywords)
  /\ Forall2 (@Permutation (str * str))
             (records_of (extract_table_format two_row_table keywords))
             (records_of (extract_table_format two_row_table (rev keywords))).
Proof.
  split; [apply Permutation_rev|]. split; [apply keywords_NoDup|].
  apply (table_field_order two_row_table keywords (rev keywords)).
  - apply Permutation_rev.
  - apply keywords_NoDup.
Defined.

(* ================================================================== *)
(** * More of the normaliser *)
(* ================================================================== *)

(** X12. [normalize_date] is idempotent on what it returns: a non-empty
    result, fed back, comes out unchanged, both when it is a parsed date
    (YYYYMMDD, the year from 1000 on) and when it is the stripped text no
    format could read. *)
Theorem normalize_date_idempotent (env : PyEnv) (raw v : str) :
  normalize_date env (Some raw) = PStr v ->
  v <> [] ->
  (forall dt, first_some (strptime env (strip raw)) formats = Some dt ->
              (1000 <= year dt)%N) ->
  normalize_date env (Some v) = PStr v.
Proof.
  intros Hn Hv Hy.
  assert (Hraw : raw <> []) by (intros ->; discriminate).
  rewrite normalize_date_nonempty in Hn by exact Hraw.
  destruct (first_some (strptime env (strip raw)) formats) as [dt|] eqn:F.
  - injection Hn as <-. specialize (Hy dt eq_refl).
    apply first_some_Some in F as [fmt [_ Hp]].
    apply strptime_valid in Hp. destruct dt as [y m d]. cbn [year month day] in *.
    rewrite strftime_Ymd_ymd by exact Hy.
    apply (normalize_date_written env y m d 0 0 0); unfold calendar_date; lia.
  - injection Hn as <-. rewrite normalize_date_nonempty by exact Hv.
    now rewrite strip_idempotent, F.
Qed.

Lemma normalize_date_idempotent_witness :
  normalize_date ascii_env (Some (py "2024/01/30")) = PStr (py "20240130")
  /\ normalize_date ascii_env (Some (py "20240130")) = PStr (py "20240130").
Proof.
  split; [reflexivity|].
  apply (normalize_date_idempotent ascii_env (py "2024/01/30") (py "20240130")).
  - reflexivity.
  - discriminate.
  - intros dt H. vm_compute in H. injection H as <-. vm_compute. discriminate.
Defined.























(* ================================================================== *)
(** * Blank values in the records [extract_and_normalize] returns *)
(* ================================================================== *)

Lemma strip_not_blank (s : str) (c : char) :
  In c s -> isspace c = false -> strip s <> [].
Proof.
  intros Hin Hc E. destruct (strip_split s) as [pre [post [Es [Hpre Hpost]]]].
  rewrite E in Es. cbn [app] in Es. rewrite Es in Hin.
  rewrite forallb_forall in Hpre, Hpost.
  apply in_app_or in Hin as [Hin | Hin];
    [apply Hpre in Hin | apply Hpost in Hin]; congruence.
Qed.

Lemma strftime_Ymd_not_blank (env : PyEnv) (dt : date) :
  strip (strftime_Ymd env dt) <> [].
Proof.
  apply (strip_not_blank _ (digit_char (day dt))).
  - unfold strftime_Ymd, two_digits. rewrite !in_app_iff. right. right.
    right. now left.
  - apply digit_char_not_space.
Qed.

Lemma normalized_of_extract (env : PyEnv) (df : DataFrame) :
  normalized_of (extract_and_normalize env df)
  = map (normalized env) (records_of (extract_fund_data_smart env df)).
Proof.
  unfold extract_and_normalize.
  now destruct (extract_fund_data_smart env df) as [[|r rs]|].
Qed.

Lemma good_record_get (K : str -> Prop) (r : record) (k v : str) :
  good_record K r -> dict_get r k = Some v -> clean_head v = true.
Proof.
  intros G Hget. apply dict_get_In in Hget.
  unfold good_record in G. rewrite Forall_forall in G.
  destruct (G _ Hget) as [_ [raw E]]. cbn [snd] in E. subst v.
  apply clean_value_clean_head.
Qed.

(** a value a caller can test for presence: [None], a number, or a string
    that is not blank *)
Definition none_or_nonblank (v : pyval) : Prop :=
  v = PNone \/ (exists f, v = PFloat f) \/ (exists s, v = PStr s /\ strip s <> []).

(** X14. In every record [extract_and_normalize] returns, the date and the
    cumulative value are None, a number, or a string that is not blank: an
    empty extracted value becomes None. The product name alone can come out
    as the empty string (a value that starts with an underscore is cut down
    to it); it is never a string of white space only. *)
Theorem blank_values_become_none (env : PyEnv) (df : DataFrame) :
  Forall (fun n =>
            (exists v, dict_get n (py "净值日期") = Some v /\ none_or_nonblank v)
            /\ (exists v, dict_get n (py "累计单位净值") = Some v /\ none_or_nonblank v)
            /\ (exists v, dict_get n (py "产品名称") = Some v
                          /\ (v = PStr [] \/ none_or_nonblank v)))
         (normalized_of (extract_and_normalize env df)).
Proof.
  rewrite normalized_of_extract. apply Forall_map.
  eapply Forall_impl; [|apply (extract_fund_data_smart_good env df)].
  intros r [_ G]. split; [|split].
  - exists (normalize_date env (dict_get r (py "净值日期"))). split; [reflexivity|].
    destruct (dict_get r (py "净值日期")) as [v|] eqn:E; [|now left].
    destruct v as [|c t] eqn:Ev; [now left|]. rewrite <- Ev in *.
    assert (Hne : v <> []) by (rewrite Ev; discriminate).
    rewrite (normalize_date_nonempty env v Hne). right. right.
    destruct (first_some (strptime env (strip v)) formats) as [dt|].
    + eexists. split; [reflexivity|]. apply strftime_Ymd_not_blank.
    + eexists. split; [reflexivity|]. rewrite strip_idempotent.
      apply clean_head_not_blank; [exact (good_record_get _ _ _ _ G E)|].
      now rewrite Ev.
  - exists (float_if_present env r (py "累计单位净值")). split; [reflexivity|].
    unfold float_if_present.
    destruct (dict_get r (py "累计单位净值")) as [v|] eqn:E; [|now left].
    destruct (truthy v) eqn:T; [|now left].
    unfold convert_to_float. destruct (py_float env v) as [f|].
    + right. left. now exists f.
    + right. right. exists v. split; [reflexivity|].
      apply clean_head_not_blank; [exact (good_record_get _ _ _ _ G E) | exact T].
  - exists (of_option (dict_get r (py "产品名称"))). split; [reflexivity|].
    destruct (dict_get r (py "产品名称")) as [v|] eqn:E; [|right; now left].
    destruct (truthy v) eqn:T.
    + right. right. right. exists v. split; [reflexivity|].
      apply clean_head_not_blank; [exact (good_record_get _ _ _ _ G E) | exact T].
    + left. destruct v; [reflexivity | discriminate].
Qed.

(** a name cell that starts with an underscore: the record is returned, its
    name the empty string *)
Example underscore_name_is_empty :
  extract_and_normalize ascii_env
    (grid [["产品名称"; "_A"]; ["产品代码"; "T05851"]; ["单位净值"; "1.05"]]%string)
  = Some [[ (py "产品名称", PStr []);
            (py "产品代码", PStr (py "T05851"));
            (py "客户名称", PNone);
            (py "参与计提份额", PNone);
            (py "净值日期", PNone);
            (py "单位净值", PFloat (nearest_double false 105 (-2)));
            (py "累计单位净值", PNone);
            (py "计提频率", PNone);
            (py "虚拟计提业绩报酬金额", PNone);
            (py "提取净值", PNone);
            (py "计提后虚拟净值", PNone) ]].
Proof. vm_compute. reflexivity. Qed.

(* ================================================================== *)
(** * The format analyser, [analyze_excel_format] of src/analyze_excel.py *)
(* ================================================================== *)

Module AnalyzeExcel.

(** the three texts the analyser can write under 'pattern' *)
Inductive layout :=
| SameCell
| LabelLeft
| LabelAbove.

Definition layout_text (l : layout) : str :=
  match l with
  | SameCell => py "标签：值（同一单元格）"
  | LabelLeft => py "标签在左，值在右侧"
  | LabelAbove => py "标签在上，值在下方"
  end.

Definition layout_eqb (a b : layout) : bool :=
  match a, b with
  | SameCell, SameCell | LabelLeft, LabelLeft | LabelAbove, LabelAbove => true
  | _, _ => false
  end.

(** an entry of [fields_found]; layout 1 writes no 'value_position' *)
Record finding := {
  position : nat * nat;
  pattern : layout;
  label : str;
  value : str;
  value_position : option (nat * nat)
}.

(** the dictionary [analysis] *)
Record analysis := {
  filename : str;
  shape : nat * nat;
  fields_found : dict finding;
  format_pattern : option layout
}.

Definition keywords : catalog :=
  [ (py "基金名称", [py "基金名称"; py "产品名称"; py "名称"]);
    (py "基金代码", [py "基金代码"; py "产品代码"; py "代码"]);
    (py "单位净值", [py "单位净值"; py "净值"]);
    (py "累计单位净值", [py "累计单位净值"; py "累计净值"]);
    (py "净值日期", [py "净值日期"; py "日期"]) ].

(** [cell_value == pattern or cell_value.replace(' ', '') == pattern] *)
Definition is_label (cell_value label : str) : bool :=
  eqb cell_value label || eqb (replace SPACE [] cell_value) label.

(** [value and value != 'nan'] *)
Definition filled (value : str) : bool :=
  truthy value && negb (eqb value (py "nan")).

(** the body of the loop over the patterns at one cell: the entry it
    writes, after which the loop is left; [None] leads to the next pattern.
    The three branches are those of the source, in its order. *)
Definition try_pattern (df : DataFrame) (i j : nat) (cell_value label : str)
    : option finding :=
  if contains label cell_value && has_char FWCOLON cell_value then
    match after FWCOLON cell_value with
    | Some rest =>
        Some {| position := (i, j); pattern := SameCell; label := label;
                value := strip rest; value_position := None |}
    | None => None
    end
  else if is_label cell_value label then
    if j + 1 <? ncols df then
      let value := strip (str_of (iloc df i (j + 1))) in
      if filled value then
        Some {| position := (i, j); pattern := LabelLeft; label := label;
                value := value; value_position := Some (i, j + 1) |}
      else None
    else None
  else if is_label cell_value label then
    if i + 1 <? len df then
      let value := strip (str_of (iloc df (i + 1) j)) in
      if filled value then
        Some {| position := (i, j); pattern := LabelAbove; label := label;
                value := value; value_position := Some (i + 1, j) |}
      else None
    else None
  else None.

(** the loops over the rows, the columns and the patterns for one field,
    left at the first entry written *)
Definition find_field (df : DataFrame) (patterns : list str) : option finding :=
  first_some
    (fun i =>
       first_some
         (fun j => first_some (try_pattern df i j (strip (str_of (iloc df i j))))
                              patterns)
         (seq 0 (ncols df)))
    (seq 0 (len df)).

(** the loop over the fields *)
Fixpoint find_fields (df : DataFrame) (todo : catalog) (found : dict finding)
    : dict finding :=
  match todo with
  | [] => found
  | (field_name, patterns) :: todo' =>
      match find_field df patterns with
      | Some f => find_fields df todo' (dict_set found field_name f)
      | None => find_fields df todo' found
      end
  end.

(** [patterns_found.count(x)] *)
Definition count (patterns_found : list layout) (x : layout) : nat :=
  length (filter (layout_eqb x) patterns_found).

(** [max(items, key=key)]: the first of the items with the greatest key;
    [None] stands for the ValueError on no item *)
Definition py_max (key : layout -> nat) (items : list layout) : option layout :=
  match items with
  | [] => None
  | x :: rest =>
      Some (fold_left (fun best item => if key best <? key item then item else best)
                      rest x)
  end.

(** [max(set(patterns_found), key=patterns_found.count)] under
    [if patterns_found]; [set_iter] lists a set's elements in the order the
    interpreter iterates over them *)
Definition most_common (set_iter : list layout -> list layout)
    (patterns_found : list layout) : option layout :=
  match patterns_found with
  | [] => None
  | _ :: _ => py_max (count patterns_found) (set_iter patterns_found)
  end.

Definition analyze_excel_format (set_iter : list layout -> list layout)
    (df : DataFrame) (name : str) : analysis :=
  let found := find_fields df keywords [] in
  {| filename := name;
     shape := (len df, ncols df);
     fields_found := found;
     format_pattern := most_common set_iter (map (fun kv => pattern (snd kv)) found) |}.

End AnalyzeExcel.

Section AnalyserFacts.

Import AnalyzeExcel.

(** what an entry written at a cell says about the grid *)
Definition finding_at (df : DataFrame) (i j : nat) (alias : str) (f : finding) : Prop :=
  let cell_value := strip (str_of (iloc df i j)) in
  position f = (i, j) /\ label f = alias
  /\ ((pattern f = SameCell
       /\ substring alias cell_value
       /\ (exists before_colon rest,
              cell_value = before_colon ++ FWCOLON :: rest
              /\ ~ In FWCOLON before_colon /\ value f = strip rest)
       /\ value_position f = None)
      \/ (pattern f = LabelLeft
          /\ (cell_value = alias \/ replace SPACE [] cell_value = alias)
          /\ j + 1 < ncols df
          /\ value f = strip (str_of (iloc df i (j + 1)))
          /\ value f <> [] /\ value f <> py "nan"
          /\ value_position f = Some (i, j + 1))).

Lemma is_label_spec (cell_value alias : str) :
  is_label cell_value alias = true ->
  cell_value = alias \/ replace SPACE [] cell_value = alias.
Proof.
  unfold is_label. intros H. apply orb_true_iff in H as [H|H];
    apply eqb_eq in H; [now left | now right].
Qed.

Lemma try_pattern_spec (df : DataFrame) (i j : nat) (alias : str) (f : finding) :
  try_pattern df i j (strip (str_of (iloc df i j))) alias = Some f ->
  finding_at df i j alias f.
Proof.
  unfold try_pattern, finding_at. cbv zeta.
  set (cell_value := strip (str_of (iloc df i j))).
  destruct (contains alias cell_value && has_char FWCOLON cell_value) eqn:C.
  - apply andb_true_iff in C as [C1 C2].
    destruct (after FWCOLON cell_value) as [rest|] eqn:A; [|discriminate].
    intros [= <-]. cbn. split; [reflexivity|]. split; [reflexivity|]. left.
    split; [reflexivity|]. split; [now apply contains_spec|].
    split; [|reflexivity].
    apply after_spec in A as [before_colon [E Hn]]. now exists before_colon, rest.
  - destruct (is_label cell_value alias) eqn:L; [|discriminate].
    destruct (j + 1 <? ncols df) eqn:R; [|discriminate].
    destruct (filled (strip (str_of (iloc df i (j + 1))))) eqn:F; [|discriminate].
    intros [= <-]. cbn. split; [reflexivity|]. split; [reflexivity|]. right.
    unfold filled in F. apply andb_true_iff in F as [F1 F2].
    apply negb_true_iff in F2. apply eqb_neq in F2.
    repeat split.
    + now apply is_label_spec.
    + now apply Nat.ltb_lt.
    + intros E. now rewrite E in F1.
    + exact F2.
Qed.

Lemma find_field_source (df : DataFrame) (patterns : list str) (f : finding) :
  find_field df patterns = Some f ->
  exists i j alias, i < len df /\ j < ncols df /\ In alias patterns
                    /\ finding_at df i j alias f.
Proof.
  unfold find_field. intros H.
  apply first_some_Some in H as [i [Hi H]].
  apply first_some_Some in H as [j [Hj H]].
  apply first_some_Some in H as [alias [Ha H]].
  apply in_seq in Hi, Hj. exists i, j, alias.
  split; [lia|]. split; [lia|]. split; [assumption|]. now apply try_pattern_spec.
Qed.

Lemma find_fields_source (df : DataFrame) (todo : catalog) (found : dict finding)
    (kf : str * finding) :
  In kf (find_fields df todo found) ->
  In kf found
  \/ exists patterns, In (fst kf, patterns) todo /\ find_field df patterns = Some (snd kf).
Proof.
  revert found. induction todo as [|[field_name patterns] todo IH]; intros found; simpl.
  - now left.
  - destruct (find_field df patterns) as [f|] eqn:F; intros H; apply IH in H.
    + destruct H as [H | [ps [H1 H2]]].
      * apply dict_set_In in H as [H | ->]; [now left|].
        right. exists patterns. split; [now left | exact F].
      * right. exists ps. split; [now right | exact H2].
    + destruct H as [H | [ps [H1 H2]]]; [now left|].
      right. exists ps. split; [now right | exact H2].
Qed.

Lemma find_fields_NoDup (df : DataFrame) (todo : catalog) (found : dict finding) :
  NoDup (map fst found) -> NoDup (map fst (find_fields df todo found)).
Proof.
  revert found. induction todo as [|[field_name patterns] todo IH]; intros found H; simpl.
  - exact H.
  - destruct (find_field df patterns); apply IH; [now apply dict_set_NoDup | exact H].
Qed.

Lemma analyser_findings_source (df : DataFrame) :
  Forall (fun kf =>
            exists patterns i j alias,
              In (fst kf, patterns) AnalyzeExcel.keywords /\ In alias patterns
              /\ i < len df /\ j < ncols df
              /\ finding_at df i j alias (snd kf))
         (find_fields df AnalyzeExcel.keywords [])
  /\ NoDup (map fst (find_fields df AnalyzeExcel.keywords [])).
Proof.
  split.
  - apply Forall_forall. intros kf Hin.
    apply find_fields_source in Hin as [[] | [patterns [Hk Hf]]].
    apply find_field_source in Hf as [i [j [alias [Hi [Hj [Ha Hat]]]]]].
    now exists patterns, i, j, alias.
  - apply find_fields_NoDup. constructor.
Qed.

(** X15. Every entry the analyser reports for a field points at a cell of
    the grid whose stripped text holds the reported label, an alias of that
    field: either the text holds a full-width colon and the value is what
    follows the first one, stripped, or the text (as it is, or without its
    spaces) is the label and the value is the stripped text of the next cell
    to the right, inside the grid, not empty and not 'nan'. A field is
    reported at most once. *)
Theorem analyser_findings_come_from_cells
    (set_iter : list layout -> list layout) (df : DataFrame) (name : str) :
  let a := analyze_excel_format set_iter df name in
  Forall (fun kf =>
            exists patterns i j alias,
              In (fst kf, patterns) AnalyzeExcel.keywords /\ In alias patterns
              /\ i < len df /\ j < ncols df
              /\ finding_at df i j alias (snd kf))
         (fields_found a)
  /\ NoDup (map fst (fields_found a))
  /\ shape a = (len df, ncols df).
Proof.
  cbv zeta. unfold analyze_excel_format. cbn [fields_found shape].
  destruct (analyser_findings_source df) as [H1 H2].
  split; [exact H1 | split; [exact H2 | reflexivity]].
Qed.

Lemma py_max_spec (key : layout -> nat) (items : list layout) :
  items <> [] ->
  exists best, py_max key items = Some best /\ In best items
               /\ forall x, In x items -> key x <= key best.
Proof.
  destruct items as [|x rest]; [contradiction|]. intros _. unfold py_max.
  eexists. split; [reflexivity|].
  revert x. induction rest as [|y rest IH]; intros x; simpl.
  - split; [now left|]. intros z [<-|[]]. lia.
  - destruct (IH (if key x <? key y then y else x)) as [Hin Hmax]. split.
    + destruct Hin as [Hin|Hin]; [|right; now right].
      rewrite <- Hin. destruct (key x <? key y); [right; now left | now left].
    + intros z [Hz|[Hz|Hz]].
      * subst z. etransitivity; [|apply Hmax; now left].
        destruct (key x <? key y) eqn:E; [apply Nat.ltb_lt in E; lia | lia].
      * subst z. etransitivity; [|apply Hmax; now left].
        destruct (key x <? key y) eqn:E; [lia | apply Nat.ltb_ge in E; lia].
      * apply Hmax. now right.
Qed.

Lemma count_not_In (l : list layout) (x : layout) : ~ In x l -> count l x = 0.
Proof.
  unfold count. induction l as [|y l IH]; simpl; [reflexivity|]. intros H.
  destruct (layout_eqb x y) eqn:E.
  - exfalso. apply H. left. now destruct x, y.
  - apply IH. intros Hin. apply H. now right.
Qed.

(** X16. The overall format the analyser reports is a layout most of the
    found fields have: [None] exactly when no field was found, otherwise the
    layout of at least one found field, and no layout has more found fields
    than it; this holds in whatever order the interpreter iterates over the
    set of layouts. *)
Theorem format_pattern_is_most_common
    (set_iter : list layout -> list layout) (df : DataFrame) (name : str) :
  (forall l x, In x (set_iter l) <-> In x l) ->
  let a := analyze_excel_format set_iter df name in
  let patterns_found := map (fun kf => pattern (snd kf)) (fields_found a) in
  (format_pattern a = None <-> fields_found a = [])
  /\ forall p, format_pattern a = Some p ->
               In p patterns_found
               /\ forall q, count patterns_found q <= count patterns_found p.
Proof.
  intros Hset. cbv zeta. unfold analyze_excel_format. cbn [fields_found format_pattern].
  set (found := find_fields df AnalyzeExcel.keywords []).
  set (patterns_found := map (fun kf => pattern (snd kf)) found).
  unfold most_common.
  destruct patterns_found as [|p0 ps] eqn:E.
  - split; [|discriminate]. split; [|reflexivity]. intros _.
    destruct found; [reflexivity | discriminate].
  - rewrite <- E.
    assert (Hne : set_iter patterns_found <> []).
    { intros Hnil. assert (Hin : In p0 (set_iter patterns_found))
        by (apply Hset; rewrite E; now left).
      now rewrite Hnil in Hin. }
    destruct (py_max_spec (count patterns_found) _ Hne) as [best [Hb [Hin Hmax]]].
    rewrite Hb. split.
    + split; [discriminate|]. intros Hf. subst patterns_found.
      rewrite Hf in E. discriminate.
    + intros p [= <-]. split; [now apply Hset|]. intros q.
      destruct (in_dec (fun a b : layout =>
                          ltac:(decide equality) : {a = b} + {a <> b})
                       q patterns_found) as [Hq|Hq].
      * apply Hmax. now apply Hset.
      * rewrite (count_not_In _ _ Hq). lia.
Qed.

(** the elements of a list, each once, in the order of their first
    occurrence: one order a set can have *)
Fixpoint distinct (l : list layout) : list layout :=
  match l with
  | [] => []
  | x :: l' => x :: filter (fun y => negb (layout_eqb x y)) (distinct l')
  end.

Lemma distinct_In (l : list layout) (x : layout) : In x (distinct l) <-> In x l.
Proof.
  induction l as [|y l IH]; simpl; [tauto|]. rewrite filter_In, IH.
  split.
  - intros [H|[H _]]; [now left | now right].
  - intros [H|H]; [now left|].
    destruct (layout_eqb y x) eqn:E.
    + left. now destruct y, x.
    + right. split; [exact H | reflexivity].
Qed.

Lemma format_pattern_is_most_common_witness :
  let a := analyze_excel_format distinct
             (grid [["基金代码"; "T05851"; "净值日期：2024-01-30"];
                    ["单位净值"; "1.05"; "备注"]]%string) (py "a.xls") in
  let patterns_found := map (fun kf => pattern (snd kf)) (fields_found a) in
  (format_pattern a = None <-> fields_found a = [])
  /\ forall p, format_pattern a = Some p ->
               In p patterns_found
               /\ forall q, count patterns_found q <= count patterns_found p.
Proof.
  exact (format_pattern_is_most_common distinct
           (grid [["基金代码"; "T05851"; "净值日期：2024-01-30"];
                  ["单位净值"; "1.05"; "备注"]]%string) (py "a.xls") distinct_In).
Defined.

(** X17. The analyser never reports the layout with the label above its
    value, for a field or as the overall format: the branch that would
    write it repeats the condition of the branch before it, so it is never
    taken. *)
Theorem analyser_never_reports_label_above
    (set_iter : list layout -> list layout) (df : DataFrame) (name : str) :
  (forall l x, In x (set_iter l) -> In x l) ->
  let a := analyze_excel_format set_iter df name in
  Forall (fun kf => pattern (snd kf) <> LabelAbove) (fields_found a)
  /\ format_pattern a <> Some LabelAbove.
Proof.
  intros Hset. cbv zeta.
  assert (Hf : Forall (fun kf => pattern (snd kf) <> LabelAbove)
                      (fields_found (analyze_excel_format set_iter df name))).
  { destruct (analyser_findings_source df) as [H _].
    eapply Forall_impl; [|exact H].
    intros kf [patterns [i [j [alias [_ [_ [_ [_ Hat]]]]]]]].
    destruct Hat as [_ [_ [[E _] | [E _]]]]; rewrite E; discriminate. }
  split; [exact Hf|].
  unfold analyze_excel_format in *. cbn [fields_found format_pattern] in *.
  set (patterns_found := map (fun kf => pattern (snd kf))
                             (find_fields df AnalyzeExcel.keywords [])).
  unfold most_common. destruct patterns_found as [|p0 ps] eqn:E; [discriminate|].
  rewrite <- E. intros Hmax.
  assert (Hin : In LabelAbove patterns_found).
  { apply Hset. destruct (set_iter patterns_found) as [|x rest] eqn:S; [discriminate|].
    rewrite <- S in Hmax.
    destruct (py_max_spec (count patterns_found) (set_iter patterns_found))
      as [best [Hb [Hbin _]]]; [rewrite S; discriminate|].
    rewrite Hb in Hmax. injection Hmax as ->. rewrite <- S. exact Hbin. }
  subst patterns_found. apply in_map_iff in Hin as [kf [Hp Hkf]].
  rewrite Forall_forall in Hf. exact (Hf kf Hkf Hp).
Qed.

Lemma analyser_never_reports_label_above_witness :
  let a := analyze_excel_format distinct
             (grid [["基金代码"; "单位净值"]; ["T05851"; "1.05"]]%string)
             (py "a.xls") in
  Forall (fun kf => pattern (snd kf) <> LabelAbove) (fields_found a)
  /\ format_pattern a <> Some LabelAbove.
Proof.
  apply (analyser_never_reports_label_above distinct).
  intros l x. apply distinct_In.
Defined.

End AnalyserFacts.

(* ================================================================== *)
(** * Days the calendar does not have *)
(* ================================================================== *)

Lemma valid_datetime_day (y m d : N) :
  (days_in_month y m < d)%N -> valid_datetime y m d 0 0 0 = false.
Proof.
  intros H. unfold valid_datetime. apply N.leb_gt in H. rewrite H.
  now rewrite !andb_false_r.
Qed.

Lemma days_in_month_ge (y m : N) : (28 <= days_in_month y m)%N.
Proof.
  unfold days_in_month.
  destruct (m =? 2)%N; [destruct (is_leap y); lia|].
  destruct ((m =? 4) || (m =? 6) || (m =? 9) || (m =? 11))%N; lia.
Qed.

Lemma digit_char_not_separator (n : N) :
  digit_char n <> DASH /\ digit_char n <> SLASH.
Proof.
  pose proof (digit_char_cases n) as H. simpl in H.
  split; intros E; rewrite E in H;
    repeat (destruct H as [H|H]; [discriminate|]); destruct H.
Qed.

Lemma strptime_compact_day (env : PyEnv) (y m d : N) :
  (y <= 9999)%N -> (1 <= m <= 12)%N -> (days_in_month y m < d <= 31)%N ->
  strptime env (ymd y m d) [DY; Dm; Dd] = None.
Proof.
  intros Hy Hm Hd. unfold strptime, ymd. rewrite <- (app_nil_r (two_digits d)).
  rewrite regex_compact by lia. cbn [group same_directive].
  rewrite int_of_four_digits, !int_of_two_digits by lia.
  now rewrite valid_datetime_day by lia.
Qed.

Lemma strptime_separated_day (env : PyEnv) (sep : char) (y m d : N) :
  (y <= 9999)%N -> (1 <= m <= 12)%N -> (days_in_month y m < d <= 31)%N ->
  strptime env (date_text sep y m d) [DY; DLit sep; Dm; DLit sep; Dd] = None.
Proof.
  intros Hy Hm Hd. unfold strptime, date_text. rewrite <- (app_nil_r (two_digits d)).
  rewrite regex_separated by lia. cbn [group same_directive].
  rewrite int_of_four_digits, !int_of_two_digits by lia.
  now rewrite valid_datetime_day by lia.
Qed.

(** the format with the time of day does not match a date alone *)
Lemma strptime_datetime_of_date (env : PyEnv) (y m d : N) :
  (1 <= m <= 12)%N -> (1 <= d <= 31)%N ->
  strptime env (date_text DASH y m d)
    [DY; DLit DASH; Dm; DLit DASH; Dd; DSpace; DH; DLit COLON; DM; DLit COLON; DS]
  = None.
Proof.
  intros Hm Hd. unfold strptime, date_text.
  rewrite (regex_match_single env DY _ _ _ _ (candidates_year env y _)).
  rewrite (regex_match_single env (DLit DASH) _ _ _ _ (candidates_lit env DASH _)).
  cases_N m; cases_N d; reflexivity.
Qed.

(** X18. A day its month does not have (30 February, 31 April, 29 February
    outside a leap year), written as YYYYMMDD, YYYY-MM-DD or YYYY/MM/DD, is
    neither normalised nor rejected: no format reads it, and
    [normalize_date] returns the text as it stands. *)
Theorem impossible_day_passes_through (env : PyEnv) (y m d : N) :
  (y <= 9999)%N -> (1 <= m <= 12)%N -> (days_in_month y m < d <= 31)%N ->
  normalize_date env (Some (ymd y m d)) = PStr (ymd y m d)
  /\ normalize_date env (Some (date_text DASH y m d)) = PStr (date_text DASH y m d)
  /\ normalize_date env (Some (date_text SLASH y m d)) = PStr (date_text SLASH y m d).
Proof.
  intros Hy Hm Hd. pose proof (days_in_month_ge y m) as Hge.
  destruct (digit_char_not_separator (m / 10)) as [Nd Ns].
  assert (S1 : strip (ymd y m d) = ymd y m d)
    by exact (strip_digits (y / 1000) d
                [digit_char (y / 100); digit_char (y / 10); digit_char y;
                 digit_char (m / 10); digit_char m; digit_char (d / 10)]).
  assert (S2 : forall sep, strip (date_text sep y m d) = date_text sep y m d)
    by (intros sep;
        exact (strip_digits (y / 1000) d
                 [digit_char (y / 100); digit_char (y / 10); digit_char y; sep;
                  digit_char (m / 10); digit_char m; sep; digit_char (d / 10)])).
  split; [|split].
  - rewrite normalize_date_nonempty by discriminate. rewrite S1.
    unfold formats. cbn [first_some].
    rewrite strptime_compact_day by assumption.
    unfold ymd at 1 2 3, two_digits at 1 3 5. cbn [app].
    now rewrite !strptime_other_separator by assumption.
  - rewrite normalize_date_nonempty by discriminate. rewrite S2.
    unfold formats. cbn [first_some].
    unfold date_text at 1. rewrite strptime_compact_stuck by (now left).
    rewrite strptime_separated_day by assumption.
    unfold date_text at 1. rewrite strptime_other_separator by discriminate.
    now rewrite strptime_datetime_of_date by lia.
  - rewrite normalize_date_nonempty by discriminate. rewrite S2.
    unfold formats. cbn [first_some].
    unfold date_text at 1. rewrite strptime_compact_stuck by (now right).
    unfold date_text at 1. rewrite strptime_other_separator by discriminate.
    rewrite strptime_separated_day by assumption.
    unfold date_text at 1. now rewrite strptime_other_separator by discriminate.
Qed.

Lemma impossible_day_passes_through_witness :
  normalize_date ascii_env (Some (py "20240230")) = PStr (py "20240230")
  /\ normalize_date ascii_env (Some (py "2024-02-30")) = PStr (py "2024-02-30")
  /\ normalize_date ascii_env (Some (py "2024/02/30")) = PStr (py "2024/02/30").
Proof.
  apply (impossible_day_passes_through ascii_env 2024 2 30); vm_compute;
    repeat split; discriminate.
Defined.
